(** * Census preprocessing transformers of the XGBoost notebook

    A shallow embedding of the notebook
    [notebooks/xgboost/Training and Prediction with XGBoost.ipynb]:
    the three hand-written scikit-learn transformers
    ([PositionalSelector], [StripString], [SimpleOneHotEncoder]), the
    feature pipeline assembled from them, and the label extraction.

    Python objects carry mutable attributes and methods may raise, so
    every method is a computation in a state-and-exception monad over
    the attributes of [self]. The numpy operations the methods call are
    pure functions that may raise.

    A [string] stands for a Python [str] whose characters have code
    points below 256, one character of the string per code point; the
    order of strings is the order of [str], by code point. *)

From Stdlib Require Import ZArith String Ascii.
From stdpp Require Import base tactics option list sorting strings gmap.

(** ** Exceptions, results and the method monad *)

Inductive exn : Set :=
  | IndexError
  | ValueError
  | TypeError
  | AttributeError
  | KeyError
  | NotFittedError.

Inductive result (A : Type) : Type :=
  | Ok (a : A)
  | Raise (e : exn).
Arguments Ok {A} a.
Arguments Raise {A} e.

Definition result_bind {A B} (r : result A) (k : A → result B) : result B :=
  match r with Ok a => k a | Raise e => Raise e end.

Declare Scope result_scope.
Delimit Scope result_scope with R.
Notation "x <- m ;; k" := (result_bind m (λ x, k))
  (at level 100, m at next level, right associativity) : result_scope.

(** A method of an object whose attributes have type [S]: it receives
    the attributes, returns a value or raises, and leaves the object
    with possibly updated attributes (also when it raises). *)
Definition Py (S A : Type) : Type := S → result A * S.

Definition py_ret {S A} (a : A) : Py S A := λ s, (Ok a, s).
Definition py_bind {S A B} (m : Py S A) (k : A → Py S B) : Py S B := λ s,
  match m s with
  | (Ok a, s') => k a s'
  | (Raise e, s') => (Raise e, s')
  end.
Definition py_lift {S A} (r : result A) : Py S A := λ s, (r, s).
Definition py_get {S} : Py S S := λ s, (Ok s, s).
Definition py_put {S} (s' : S) : Py S unit := λ _, (Ok tt, s').

Declare Scope py_scope.
Delimit Scope py_scope with py.
Notation "x <- m ;; k" := (py_bind m (λ x, k))
  (at level 100, m at next level, right associativity) : py_scope.

(** [for x in l: acc = body(acc, x)], for a body that may raise and for
    a body that is a method. *)
Fixpoint foldR {A B} (body : B → A → result B) (acc : B) (l : list A) : result B :=
  match l with
  | [] => Ok acc
  | x :: l => (acc' <- body acc x ;; foldR body acc' l)%R
  end.

Fixpoint foldPy {S A B} (body : B → A → Py S B) (acc : B) (l : list A) : Py S B :=
  match l with
  | [] => py_ret acc
  | x :: l => (acc' <- body acc x ;; foldPy body acc' l)%py
  end.

(** A method run on a component of a larger object. *)
Definition on_fst {S1 S2 A} (m : Py S1 A) : Py (S1 * S2) A := λ s,
  let '(r, s1) := m s.1 in (r, (s1, s.2)).
Definition on_snd {S1 S2 A} (m : Py S2 A) : Py (S1 * S2) A := λ s,
  let '(r, s2) := m s.2 in (r, (s.1, s2)).

(** The attributes an object is left with after the same method has
    been called on each input in turn. *)
Definition after_calls {S I O} (method : I → Py S O) (inputs : list I) (s : S) : S :=
  foldl (λ s X, (method X s).2) s inputs.

(** ** Python values and two-dimensional arrays *)

(** Cells of the census table: text, integers, and the missing-value
    marker pandas stores for an absent field. *)
Inductive pyval : Set :=
  | PStr (s : string)
  | PInt (z : Z)
  | PNaN.

(** A two-dimensional numpy array: [shape1] columns and [length rows]
    rows. numpy arrays are rectangular, which is [wf]. The column count
    is kept apart from the rows because an array without rows still has
    one. *)
Record ndarray (A : Type) : Type := NdArray {
  shape1 : nat;
  rows : list (list A)
}.
Arguments NdArray {A} shape1 rows.
Arguments shape1 {A} _.
Arguments rows {A} _.

Definition shape0 {A} (X : ndarray A) : nat := length (rows X).

Definition wf {A} (X : ndarray A) : Prop :=
  Forall (λ r, length r = shape1 X) (rows X).

(** [X[i][j]] *)
Definition cell {A} (X : ndarray A) (i j : nat) : option A :=
  rows X !! i ≫= (.!! j).

(** [X[:, c]] for [c] below [X.shape[1]] *)
Definition column {A} (c : nat) (X : ndarray A) : list A :=
  omap (.!! c) (rows X).

(** [np.array(X)], where a two-dimensional array is expected. What the
    notebook passes is an array, or a nested list of rows; numpy turns
    it into an array with cells of type [A], or raises. The conversion
    is numpy's: the transformers are modelled over any input type [I]
    with such a conversion. Of an array, [np.array] is a copy with the
    same entries. A nested list is converted by looking at all of its
    cells (rows that mix numbers and text become rows of text). *)
Class ArrayLike (I A : Type) : Type := np_array : I → result (ndarray A).
Global Hint Mode ArrayLike ! - : typeclass_instances.

Global Instance ndarray_ArrayLike {A} : ArrayLike (ndarray A) A := Ok.

Definition amap {A B} (f : A → B) (X : ndarray A) : ndarray B :=
  NdArray (shape1 X) ((λ r : list A, f <$> r) <$> rows X).

(** An index [p] into an axis of [n] entries: negative indices count
    from the end, anything outside [-n, n) raises. This is array
    indexing for positions of machine size; a list that holds larger
    integers is converted by numpy first, which may wrap them, and
    numpy may skip the check on an array without rows. *)
Definition axis_index (n : nat) (p : Z) : result nat :=
  if decide (0 ≤ p < Z.of_nat n)%Z then Ok (Z.to_nat p)
  else if decide (- Z.of_nat n ≤ p < 0)%Z then Ok (Z.to_nat (p + Z.of_nat n))
  else Raise IndexError.

Fixpoint mapR {A B} (f : A → result B) (l : list A) : result (list B) :=
  match l with
  | [] => Ok []
  | x :: l => (y <- f x ;; ys <- mapR f l ;; Ok (y :: ys))%R
  end.

(** [X[:, ps]] with a list of integer positions: every position is
    checked against the column axis, then each row is gathered. *)
Definition take_columns {A} (X : ndarray A) (ps : list Z) : result (ndarray A) :=
  (ks <- mapR (axis_index (shape1 X)) ps ;;
   Ok (NdArray (length ps) ((λ r : list A, omap (λ k : nat, r !! k) ks) <$> rows X)))%R.

(** [np.zeros(shape=(n, m), dtype=np.int8)] *)
Definition np_zeros (n m : nat) : ndarray Z :=
  NdArray m (replicate n (replicate m 0%Z)).

(** [M[i][k] = v] *)
Definition setitem {A} (M : ndarray A) (i k : nat) (v : A) : result (ndarray A) :=
  if decide (i < shape0 M ∧ k < shape1 M)
  then Ok (NdArray (shape1 M) (alter (<[k:=v]>) i (rows M)))
  else Raise IndexError.

(** Two arrays side by side; the row counts must agree. *)
Definition hstack2 {A} (M N : ndarray A) : result (ndarray A) :=
  if decide (shape0 M = shape0 N)
  then Ok (NdArray (shape1 M + shape1 N) (zip_with app (rows M) (rows N)))
  else Raise ValueError.

(** [np.concatenate(Ms, axis=1)]: an empty sequence is refused. *)
Definition np_concatenate1 {A} (Ms : list (ndarray A)) : result (ndarray A) :=
  match Ms with
  | [] => Raise ValueError
  | M :: Ms => foldR hstack2 M Ms
  end.

(** [enumerate(l)] *)
Definition enumerate {A} (l : list A) : list (nat * A) := imap pair l.

(** [np.unique(Y)] on a one-dimensional array of strings: the array is
    sorted (strings compare by code point) and an entry is kept when it
    differs from the entry before it. *)
Fixpoint keep_changes (prev : string) (aux : list string) : list string :=
  match aux with
  | [] => []
  | x :: aux => (if decide (x = prev) then [] else [x]) ++ keep_changes x aux
  end.

Definition np_unique (Y : list string) : list string :=
  match merge_sort String.le Y with
  | [] => []
  | x :: aux => x :: keep_changes x aux
  end.

(** [{v: i for i, v in pairs}]: a later pair overwrites an earlier one
    with the same key. *)
Definition dict_of_pairs (pairs : list (nat * string)) : gmap string nat :=
  foldl (λ d iv, <[iv.2 := iv.1]> d) ∅ pairs.

(** [d[x]] *)
Definition dict_getitem (d : gmap string nat) (x : string) : result nat :=
  match d !! x with
  | Some k => Ok k
  | None => Raise KeyError
  end.

(** Whitespace as [str.strip] sees it. Among the code points below 256
    the whitespace characters are tab to carriage return (9..13), the
    separators 28..31, the space (32), the next-line control (133) and
    the no-break space (160). *)
Definition is_space (a : ascii) : bool :=
  let n := N_of_ascii a in
  ((9 <=? n) && (n <=? 13) || (28 <=? n) && (n <=? 32)
   || (n =? 133) || (n =? 160))%N.

Fixpoint lstrip (s : string) : string :=
  match s with
  | EmptyString => EmptyString
  | String a s' => if is_space a then lstrip s' else s
  end.

Fixpoint rstrip (s : string) : string :=
  match s with
  | EmptyString => EmptyString
  | String a s' =>
      match rstrip s' with
      | EmptyString => if is_space a then EmptyString else String a EmptyString
      | t => String a t
      end
  end.

(** [s.strip()] *)
Definition strip (s : string) : string := rstrip (lstrip s).

(** [str.strip(v)], the unbound method: anything but a [str] is
    refused. *)
Definition str_strip (v : pyval) : result string :=
  match v with
  | PStr s => Ok (strip s)
  | _ => Raise TypeError
  end.

(** An array of text ([dtype='<U...']) has entries of one width: it
    pads a shorter string with NUL characters and reads an entry back
    without the NUL characters at its end, those of the string it was
    given included. *)
Definition is_nul (a : ascii) : bool := (N_of_ascii a =? 0)%N.

Fixpoint unicode_item (s : string) : string :=
  match s with
  | EmptyString => EmptyString
  | String a s' =>
      match unicode_item s' with
      | EmptyString => if is_nul a then EmptyString else String a EmptyString
      | t => String a t
      end
  end.

(** [np.vectorize(f)(X)] with no [otypes], for an [f] that returns
    text: an input of size 0 is refused; otherwise [f] is applied to
    every entry, in row-major order, and the results are stored in an
    array of text. *)
Definition np_vectorize {A} (f : A → result string) (X : ndarray A) : result (ndarray string) :=
  if decide (shape0 X * shape1 X = 0) then Raise ValueError
  else (rs <- mapR (mapR f) (rows X) ;;
        Ok (amap unicode_item (NdArray (shape1 X) rs)))%R.

(** [x == y] on cells; the missing-value marker equals nothing. *)
Definition py_eq (x y : pyval) : bool :=
  match x, y with
  | PStr a, PStr b => bool_decide (a = b)
  | PInt a, PInt b => bool_decide (a = b)
  | _, _ => false
  end.

(** ** PositionalSelector *)

Module PositionalSelector.

Record self : Type := Self { positions : list Z }.

Definition init (positions : list Z) : self := Self positions.

Definition fit {I} (X : I) : Py self unit := py_ret tt.

Definition transform {I A} `{!ArrayLike I A} (X : I) : Py self (ndarray A) :=
  (X <- py_lift (np_array X) ;;
   s <- py_get ;;
   py_lift (take_columns X (positions s)))%py.

End PositionalSelector.

(** ** StripString *)

Module StripString.

Definition self : Type := unit.

Definition init : self := tt.

Definition fit {A} (X : ndarray A) : Py self unit := py_ret tt.

Definition transform (X : ndarray pyval) : Py self (ndarray string) :=
  (let strip := np_vectorize str_strip in
   X <- py_lift (np_array X) ;;
   py_lift (strip X))%py.

End StripString.

(** ** SimpleOneHotEncoder *)

Module SimpleOneHotEncoder.

(** The only attribute is [values], which does not exist before the
    first [fit]. *)
Record self : Type := Self { values : option (list (gmap string nat)) }.

Definition init : self := Self None.

(** [self.values = v] *)
Definition set_values (v : list (gmap string nat)) : Py self unit :=
  py_put (Self (Some v)).

(** [self.values] *)
Definition get_values : Py self (list (gmap string nat)) := λ s,
  match values s with
  | Some v => (Ok v, s)
  | None => (Raise AttributeError, s)
  end.

(** [self.values.append(d)] *)
Definition values_append (d : gmap string nat) : Py self unit :=
  (v <- get_values ;; set_values (v ++ [d]))%py.

(** [self.values[c]] *)
Definition values_item (c : nat) : Py self (gmap string nat) :=
  (v <- get_values ;;
   py_lift (match v !! c with Some d => Ok d | None => Raise IndexError end))%py.

Definition fit (X : ndarray string) : Py self unit :=
  (_ <- set_values [] ;;
   _ <- foldPy (λ _ c,
     let Y := column c X in
     let values := dict_of_pairs (enumerate (np_unique Y)) in
     values_append values) tt (seq 0 (shape1 X)) ;;
   py_ret tt)%py.

Definition transform (X : ndarray string) : Py self (ndarray Z) :=
  (X <- py_lift (np_array X) ;;
   matrices <- foldPy (λ matrices c,
     let Y := column c X in
     d <- values_item c ;;
     let matrix := np_zeros (length Y) (size d) in
     matrix <- foldPy (λ matrix ix,
       d <- values_item c ;;
       if decide (is_Some (d !! ix.2)) then
         d <- values_item c ;;
         k <- py_lift (dict_getitem d ix.2) ;;
         py_lift (setitem matrix ix.1 k 1%Z)
       else py_ret matrix) matrix (enumerate Y) ;;
     py_ret (matrices ++ [matrix])) [] (seq 0 (shape1 X)) ;;
   let res := np_concatenate1 matrices in
   py_lift res)%py.

End SimpleOneHotEncoder.

(** ** The census table and its labels *)

Definition COLUMNS : list string :=
  [ "age"; "workclass"; "fnlwgt"; "education"; "education-num";
    "marital-status"; "occupation"; "relationship"; "race"; "sex";
    "capital-gain"; "capital-loss"; "hours-per-week"; "native-country";
    "income-level" ].

Record DataFrame : Type := {
  df_columns : list string;
  df_values : ndarray pyval
}.

(** [pd.read_csv(f, header=None, names=names)]: the parsed records of
    the file under the given column labels. *)
Definition read_csv (records : ndarray pyval) (names : list string) : DataFrame :=
  {| df_columns := names; df_values := records |}.

Definition label_position (labels : list string) (label : string) : result nat :=
  match list_find (λ l, l = label) labels with
  | Some (j, _) => Ok j
  | None => Raise KeyError
  end.

(** [df[label]] *)
Definition df_getitem (df : DataFrame) (label : string) : result (list pyval) :=
  (j <- label_position (df_columns df) label ;;
   Ok (column j (df_values df)))%R.

(** [df.drop(label, axis=1)] *)
Definition df_drop (df : DataFrame) (label : string) : result DataFrame :=
  (j <- label_position (df_columns df) label ;;
   Ok {| df_columns := delete j (df_columns df);
         df_values := NdArray (shape1 (df_values df) - 1)
                        ((λ r : list pyval, delete j r) <$> rows (df_values df)) |})%R.

Definition raw_training_data (records : ndarray pyval) : DataFrame :=
  read_csv records COLUMNS.

Definition raw_features (records : ndarray pyval) : result (ndarray pyval) :=
  (df <- df_drop (raw_training_data records) "income-level" ;;
   Ok (df_values df))%R.

Definition train_labels (records : ndarray pyval) : result (list bool) :=
  (col <- df_getitem (raw_training_data records) "income-level" ;;
   Ok ((λ v, py_eq v (PStr " >50K")) <$> col))%R.

(** ** The scikit-learn transformer interface and its combinators *)

(** Besides its methods an estimator has what [check_is_fitted] finds
    on it: whether it holds an attribute whose name ends with an
    underscore (or, for a pipeline, whether its last step does). *)
Record Transformer (S I O : Type) : Type := {
  fit : I → Py S unit;
  transform : I → Py S O;
  fit_transform : I → Py S O;
  is_fitted : S → bool
}.
Arguments fit {S I O} _ _.
Arguments transform {S I O} _ _.
Arguments fit_transform {S I O} _ _.
Arguments is_fitted {S I O} _ _.

(** [TransformerMixin] supplies [fit_transform] as
    [self.fit(X).transform(X)]. *)
Definition TransformerMixin {S I O} (is_fitted : S → bool) (fit : I → Py S unit) (transform : I → Py S O) : Transformer S I O :=
  {| fit := fit;
     transform := transform;
     fit_transform X := (_ <- fit X ;; transform X)%py;
     is_fitted := is_fitted |}.

(** The steps of a pipeline, a first step and the steps after it, each
    step receiving what the step before it returned. *)
Definition steps {S1 S2 I X O} (first : Transformer S1 I X) (rest : Transformer S2 X O) : Transformer (S1 * S2) I O :=
  {| fit X := (Xt <- on_fst (fit_transform first X) ;; on_snd (fit rest Xt))%py;
     transform X := (Xt <- on_fst (transform first X) ;; on_snd (transform rest Xt))%py;
     fit_transform X := (Xt <- on_fst (fit_transform first X) ;; on_snd (fit_transform rest Xt))%py;
     is_fitted s := is_fitted rest s.2 |}.

(** [make_pipeline(a, b, c)] is [make_pipeline (steps a (steps b c))].
    scikit-learn changed under the notebook: in recent versions (1.9,
    for one) [Pipeline.transform] begins with [check_is_fitted(self)]
    and raises [NotFittedError] when the last step does not pass; in
    earlier versions (1.2, for one), as when the notebook was written,
    it runs the steps at once. [checks_fitted] tells which of the two
    the library does. *)
Definition make_pipeline {S I O} (checks_fitted : bool) (t : Transformer S I O) : Transformer S I O :=
  {| fit := fit t;
     transform X := λ s,
       if checks_fitted && negb (is_fitted t s) then (Raise NotFittedError, s)
       else transform t X s;
     fit_transform := fit_transform t;
     is_fitted := is_fitted t |}.

(** The three classes of the notebook. None of them ever holds an
    attribute whose name ends with an underscore. *)
Definition PositionalSelector_ {I A} `{!ArrayLike I A} : Transformer PositionalSelector.self I (ndarray A) :=
  TransformerMixin (λ _, false) PositionalSelector.fit PositionalSelector.transform.

Definition StripString_ : Transformer StripString.self (ndarray pyval) (ndarray string) :=
  TransformerMixin (λ _, false) StripString.fit StripString.transform.

Definition SimpleOneHotEncoder_ : Transformer SimpleOneHotEncoder.self (ndarray string) (ndarray Z) :=
  TransformerMixin (λ _, false) SimpleOneHotEncoder.fit SimpleOneHotEncoder.transform.

Definition numerical_indices : list Z := [0; 12]%Z.
Definition categorical_indices : list Z := [1; 3; 5; 7]%Z.

Section Pipeline.

(** [StandardScaler] and float64 arithmetic belong to scikit-learn and
    numpy; the pipeline is modelled over any choice of them: the float64
    values, the conversion of an int8 entry that stacking with float64
    entries applies, the statistics [fit] computes from its input and
    the rescaling [transform] applies with them. A fitted scaler holds
    its statistics in attributes such as [mean_] and [scale_]. *)
Variable checks_fitted : bool.
Variable float64 : Type.
Variable float_of_int8 : Z → float64.
Variable scaler_stats : Type.
Variable scaler_fit : ndarray pyval → result scaler_stats.
Variable scaler_transform : scaler_stats → ndarray pyval → result (ndarray float64).
Context {I : Type} `{!ArrayLike I pyval}.

Definition StandardScaler : Transformer (option scaler_stats) (ndarray pyval) (ndarray float64) :=
  TransformerMixin
    (λ s, bool_decide (is_Some s))
    (λ X, st <- py_lift (scaler_fit X) ;; py_put (Some st))%py
    (λ X, s <- py_get ;;
          py_lift (match s with
                   | Some st => scaler_transform st X
                   | None => Raise NotFittedError
                   end))%py.

(** [np.hstack] of an int8 block and a float64 block is float64. *)
Definition np_hstack (X1 : ndarray Z) (X2 : ndarray float64) : result (ndarray float64) :=
  hstack2 (amap float_of_int8 X1) X2.

(** [FeatureUnion] of two transformers: each sees the whole input, in
    list order, and the outputs are stacked side by side. *)
Definition FeatureUnion {S1 S2 J} (t1 : Transformer S1 J (ndarray Z)) (t2 : Transformer S2 J (ndarray float64)) : Transformer (S1 * S2) J (ndarray float64) :=
  {| fit X := (_ <- on_fst (fit t1 X) ;; on_snd (fit t2 X))%py;
     transform X :=
       (X1 <- on_fst (transform t1 X) ;;
        X2 <- on_snd (transform t2 X) ;;
        py_lift (np_hstack X1 X2))%py;
     fit_transform X :=
       (X1 <- on_fst (fit_transform t1 X) ;;
        X2 <- on_snd (fit_transform t2 X) ;;
        py_lift (np_hstack X1 X2))%py;
     is_fitted s := is_fitted t1 s.1 && is_fitted t2 s.2 |}.

Definition p1 : Transformer (PositionalSelector.self * (StripString.self * SimpleOneHotEncoder.self)) I (ndarray Z) :=
  make_pipeline checks_fitted
    (steps PositionalSelector_ (steps StripString_ SimpleOneHotEncoder_)).
Definition p2 : Transformer (PositionalSelector.self * option scaler_stats) I (ndarray float64) :=
  make_pipeline checks_fitted (steps PositionalSelector_ StandardScaler).

Definition pipeline := FeatureUnion p1 p2.

(** The objects as the notebook constructs them, before any [fit]. *)
Definition pipeline_init : (PositionalSelector.self * (StripString.self * SimpleOneHotEncoder.self)) * (PositionalSelector.self * option scaler_stats) :=
  ((PositionalSelector.init categorical_indices, (StripString.init, SimpleOneHotEncoder.init)),
   (PositionalSelector.init numerical_indices, None)).

(** The objects of the pipeline once fitted: the selectors as
    constructed, the encoder with its mappings, the scaler with its
    statistics. *)
Definition fitted_pipeline (vals : list (gmap string nat)) (st : scaler_stats) : (PositionalSelector.self * (StripString.self * SimpleOneHotEncoder.self)) * (PositionalSelector.self * option scaler_stats) :=
  ((PositionalSelector.init categorical_indices,
    (StripString.init, SimpleOneHotEncoder.Self (Some vals))),
   (PositionalSelector.init numerical_indices, Some st)).

(** The steps the pipeline takes on the array [X], one by one: [vals]
    and [st] are what the encoder and the scaler learn from [X], the
    mappings of the stripped columns 1, 3, 5, 7 and the statistics of
    columns 0 and 12. *)
Definition fitted_on (X : ndarray pyval) (vals : list (gmap string nat)) (st : scaler_stats) : Prop :=
  ∃ C S N,
    PositionalSelector.transform X (PositionalSelector.init [1; 3; 5; 7]%Z)
      = (Ok C, PositionalSelector.init [1; 3; 5; 7]%Z)
    ∧ StripString.transform C StripString.init = (Ok S, StripString.init)
    ∧ SimpleOneHotEncoder.fit S SimpleOneHotEncoder.init
        = (Ok tt, SimpleOneHotEncoder.Self (Some vals))
    ∧ PositionalSelector.transform X (PositionalSelector.init [0; 12]%Z)
        = (Ok N, PositionalSelector.init [0; 12]%Z)
    ∧ scaler_fit N = Ok st.

(** [M] is what the steps of the fitted pipeline make of the array
    [X]: the encoder's output on the stripped columns 1, 3, 5, 7 next
    to the scaler's output on columns 0 and 12. *)
Definition concatenation (vals : list (gmap string nat)) (st : scaler_stats) (X : ndarray pyval) (M : ndarray float64) : Prop :=
  ∃ C S OH N SC,
    PositionalSelector.transform X (PositionalSelector.init [1; 3; 5; 7]%Z)
      = (Ok C, PositionalSelector.init [1; 3; 5; 7]%Z)
    ∧ StripString.transform C StripString.init = (Ok S, StripString.init)
    ∧ SimpleOneHotEncoder.transform S (SimpleOneHotEncoder.Self (Some vals))
        = (Ok OH, SimpleOneHotEncoder.Self (Some vals))
    ∧ PositionalSelector.transform X (PositionalSelector.init [0; 12]%Z)
        = (Ok N, PositionalSelector.init [0; 12]%Z)
    ∧ scaler_transform st N = Ok SC
    ∧ shape0 OH = shape0 SC
    ∧ M = NdArray (shape1 OH + shape1 SC)
            (zip_with app (rows (amap float_of_int8 OH)) (rows SC)).

End Pipeline.

(** ** Vocabulary of the statements *)

(** Strings made of whitespace only, and strings that begin or end with
    whitespace. *)
Fixpoint all_spaces (s : string) : bool :=
  match s with
  | EmptyString => true
  | String a s => is_space a && all_spaces s
  end.

Definition starts_with_space (s : string) : bool :=
  match s with
  | EmptyString => false
  | String a _ => is_space a
  end.

Fixpoint ends_with_space (s : string) : bool :=
  match s with
  | EmptyString => false
  | String a EmptyString => is_space a
  | String _ s => ends_with_space s
  end.

(** [t] is [s] with its leading and trailing whitespace removed. *)
Definition trimmed_of (s t : string) : Prop :=
  ∃ l r, s = l +:+ t +:+ r ∧ all_spaces l = true ∧ all_spaces r = true ∧
         starts_with_space t = false ∧ ends_with_space t = false.

(** Strings of NUL characters only, strings that end with a NUL
    character, and: [t] is [s] without the NUL characters at its
    end. *)
Fixpoint all_nul (s : string) : bool :=
  match s with
  | EmptyString => true
  | String a s => is_nul a && all_nul s
  end.

Fixpoint ends_with_nul (s : string) : bool :=
  match s with
  | EmptyString => false
  | String a EmptyString => is_nul a
  | String _ s => ends_with_nul s
  end.

Definition nul_cut_of (s t : string) : Prop :=
  ∃ z, s = t +:+ z ∧ all_nul z = true ∧ ends_with_nul t = false.

(** [u] is what is left of the text [s] once its leading and trailing
    whitespace is removed and then the NUL characters at its end. *)
Definition kept_of (s u : string) : Prop :=
  ∃ t, trimmed_of s t ∧ nul_cut_of t u.

(** Text without any NUL character. *)
Fixpoint nul_free (s : string) : bool :=
  match s with
  | EmptyString => true
  | String a s => negb (is_nul a) && nul_free s
  end.

(** The order [np.unique] sorts strings by. *)
Definition str_lt (a b : string) : Prop := (a ?= b)%string = Lt.

Global Instance str_lt_dec : RelDecision str_lt.
Proof. intros a b. unfold str_lt. apply _. Defined.

(** The distinct values of a column, and how many of them are strictly
    below [v]. *)
Definition distinct (Y : list string) : list string := remove_dups Y.

Definition count_below (v : string) (Y : list string) : nat :=
  length (filter (λ w, str_lt w v) (distinct Y)).

(** The binary vector of length [n] with a single 1, at index [k]. *)
Definition onehot (n k : nat) : list Z := <[k := 1%Z]> (replicate n 0%Z).

(** Where the block of input column [c] starts in an output row, and
    the block itself. *)
Definition offset (vals : list (gmap string nat)) (c : nat) : nat :=
  sum_list_with size (take c vals).

Definition block (vals : list (gmap string nat)) (c : nat) (row : list Z) : list Z :=
  take (size (default ∅ (vals !! c))) (drop (offset vals c) row).

(** ** The methods without the object *)

(** What [StripString.transform] stores of the text of a cell. *)
Definition kept (s : string) : string := unicode_item (strip s).

(** What [fit] leaves in [self.values]. *)
Definition fit_values (X : ndarray string) : list (gmap string nat) :=
  (λ c, dict_of_pairs (enumerate (np_unique (column c X)))) <$> seq 0 (shape1 X).

(** One pass of the loop over [enumerate(Y)] when [self.values[c]] is
    [d]; the matrix [transform] builds for input column [c], and what
    it returns, when [self.values] is [vals]. *)
Definition mark (d : gmap string nat) (matrix : ndarray Z) (ix : nat * string) : result (ndarray Z) :=
  match d !! ix.2 with
  | Some k => setitem matrix ix.1 k 1%Z
  | None => Ok matrix
  end.

Definition encode_block (vals : list (gmap string nat)) (X : ndarray string) (c : nat) : result (ndarray Z) :=
  match vals !! c with
  | Some d =>
      foldR (mark d)
        (np_zeros (length (column c X)) (size d)) (enumerate (column c X))
  | None => Raise IndexError
  end.

Definition encode (vals : list (gmap string nat)) (X : ndarray string) : result (ndarray Z) :=
  (matrices <- mapR (encode_block vals X) (seq 0 (shape1 X)) ;;
   np_concatenate1 matrices)%R.

(** The row that encodes one value, and one input row. *)
Definition onehot_row (d : gmap string nat) (x : string) : list Z :=
  match d !! x with
  | Some k => onehot (size d) k
  | None => replicate (size d) 0%Z
  end.

Definition encode_row (vals : list (gmap string nat)) (r : list string) : list Z :=
  concat (zip_with onehot_row vals r).

(** Every index of a mapping lies below the number of its keys. *)
Definition dict_ok (d : gmap string nat) : Prop :=
  ∀ v k, d !! v = Some k → k < size d.

(** The matrix built for input column [c], and the matrices of the
    columns before [c] side by side. *)
Definition block_of (vals : list (gmap string nat)) (X : ndarray string) (c : nat) : ndarray Z :=
  let d := default ∅ (vals !! c) in
  NdArray (size d) (onehot_row d <$> column c X).

Definition stacked (vals : list (gmap string nat)) (X : ndarray string) (c : nat) : ndarray Z :=
  NdArray (offset vals c) ((λ r, encode_row (take c vals) r) <$> rows X).

(** The text of a cell that holds text. *)
Definition text_of (v : pyval) : string :=
  match v with PStr s => s | _ => EmptyString end.

(** ** The features, in the words of the specification *)

(** The one-hot encoding of the value [t] among the values [col] seen
    when fitting: one entry per distinct value of [col], with a single
    1 at the rank of [t] among them when [t] is one of them, and no 1
    when it is not. *)
Definition one_hot_encoding (col : list string) (t : string) : list Z :=
  if decide (t ∈ col) then onehot (length (distinct col)) (count_below t col)
  else replicate (length (distinct col)) 0%Z.

(** The row [r] holds text at position [p], of which [clean] leaves
    [t]. *)
Definition text_at (clean : string → string → Prop) (r : list pyval) (p : nat) (t : string) : Prop :=
  ∃ s, r !! p = Some (PStr s) ∧ clean s t.

(** [T] lists, for each of the positions [ps], the cleaned text of
    that column of [A], row by row. *)
Definition text_columns (clean : string → string → Prop) (ps : list nat) (A : ndarray pyval) (T : list (list string)) : Prop :=
  Forall2 (λ p col, Forall2 (λ r t, text_at clean r p t) (rows A) col) ps T.

(** The columns of [A] at the positions [ps], as an array. *)
Definition columns_at {B} (ps : list nat) (A : ndarray B) : ndarray B :=
  NdArray (length ps) ((λ r : list B, omap (λ p : nat, r !! p) ps) <$> rows A).

(** Rows the pipeline has features for: at least one row, thirteen
    columns or more, text in columns 1, 3, 5 and 7. *)
Definition census_rows (A : ndarray pyval) : Prop :=
  0 < shape0 A ∧ 13 ≤ shape1 A
  ∧ Forall (λ r, Forall (λ p, ∃ s, r !! p = Some (PStr s)) [1; 3; 5; 7]) (rows A).

Section Features.

Variable float64 : Type.
Variable float_of_int8 : Z → float64.
Variable scaler_stats : Type.
Variable scaler_transform : scaler_stats → ndarray pyval → result (ndarray float64).

(** [M] is the feature matrix of the rows [A] after fitting on the
    rows [Atrain], where the scaler learned [st]: row by row, the
    column-wise concatenation of (1) the one-hot encodings of the
    cleaned text at positions 1, 3, 5, 7, each among the cleaned text
    of that column of [Atrain], and (2) the row the scaler makes, with
    [st], of columns 0 and 12 of [A]. *)
Definition feature_matrix (clean : string → string → Prop) (Atrain : ndarray pyval) (st : scaler_stats) (A : ndarray pyval) (M : ndarray float64) : Prop :=
  ∃ T SC,
    text_columns clean [1; 3; 5; 7] Atrain T
    ∧ scaler_transform st (columns_at [0; 12] A) = Ok SC
    ∧ shape0 SC = shape0 A
    ∧ shape0 M = shape0 A
    ∧ shape1 M = sum_list_with (λ col, length (distinct col)) T + shape1 SC
    ∧ ∀ i r, rows A !! i = Some r →
        ∃ ts sc,
          Forall2 (text_at clean r) [1; 3; 5; 7] ts
          ∧ rows SC !! i = Some sc
          ∧ rows M !! i
              = Some ((float_of_int8 <$> concat (zip_with one_hot_encoding T ts)) ++ sc).

End Features.

(** ** Sample arrays *)

Definition train_example : ndarray string :=
  NdArray 2 [["b"; "x"]; ["a"; "y"]; ["b"; "x"]].

Definition input_example : ndarray string :=
  NdArray 2 [["a"; "x"]; ["c"; "y"]].

Definition fitted_example : SimpleOneHotEncoder.self :=
  SimpleOneHotEncoder.Self (Some [ {["a" := 0; "b" := 1]}; {["x" := 0; "y" := 1]} ]).

Definition output_example : ndarray Z :=
  NdArray 4 [[1; 0; 1; 0]; [0; 0; 0; 1]]%Z.

Definition census_example : ndarray pyval :=
  NdArray 15
    [ [PInt 39; PStr " State-gov"; PInt 77516; PStr " Bachelors"; PInt 13;
       PStr " Never-married"; PStr " Adm-clerical"; PStr " Not-in-family";
       PStr " White"; PStr " Male"; PInt 2174; PInt 0; PInt 40;
       PStr " United-States"; PStr " <=50K"];
      [PInt 52; PStr " Self-emp-not-inc"; PInt 209642; PStr " HS-grad"; PInt 9;
       PStr " Married-civ-spouse"; PStr " Exec-managerial"; PStr " Husband";
       PStr " White"; PStr " Male"; PInt 0; PInt 0; PInt 45;
       PStr " United-States"; PStr " >50K"];
      [PInt 31; PStr " Private"; PInt 45781; PStr " Masters"; PInt 14;
       PStr " Never-married"; PStr " Prof-specialty"; PStr " Not-in-family";
       PStr " White"; PStr " Female"; PInt 14084; PInt 0; PInt 50;
       PStr " United-States"; PStr ">50K"];
      [PInt 42; PStr " Private"; PInt 159449; PStr " Bachelors"; PInt 13;
       PStr " Married-civ-spouse"; PStr " Exec-managerial"; PStr " Husband";
       PStr " White"; PStr " Male"; PInt 5178; PInt 0; PInt 40;
       PStr " United-States"; PStr " >50K."] ]%Z.

Definition small_train : ndarray string := NdArray 2 [["a"; "x"]].

Definition small_input : ndarray string := NdArray 2 [["b"; "x"]].

Definition small_fitted : SimpleOneHotEncoder.self :=
  SimpleOneHotEncoder.Self (Some [ {["a" := 0]}; {["x" := 0]} ]).

Definition wide_input : ndarray string := NdArray 3 [["a"; "x"; "q"]].

Definition no_columns : ndarray string := NdArray 0 [[]].

Definition no_columns_fitted : SimpleOneHotEncoder.self :=
  SimpleOneHotEncoder.Self (Some []).

Definition no_rows : ndarray string := NdArray 1 [].

Definition padded_example : ndarray string :=
  NdArray 2 [[" State-gov"; "  a b  "]].

(** The NUL character; a space, the letter a and a NUL character. *)
Definition NUL : ascii := ascii_of_N 0.

Definition nul_padded : string := String " " (String "a" (String NUL EmptyString)).

Definition nul_example : ndarray string := NdArray 1 [[nul_padded]].

Definition digits_example : ndarray nat := NdArray 3 [[1; 2; 3]; [4; 5; 6]].

(** The sample table without its label column, and a stand-in for the
    scaler (no statistics, integers as they are) to run the pipeline
    on it, with a library that runs the steps of a pipeline at once. *)
Definition features_example : ndarray pyval :=
  Eval vm_compute in
    match raw_features census_example with
    | Ok X => X
    | Raise _ => NdArray 0 []
    end.

Definition sample_scaler_fit (N : ndarray pyval) : result unit := Ok tt.

Definition sample_scaler_transform (st : unit) (N : ndarray pyval) : result (ndarray Z) :=
  Ok (amap (λ v, match v with PInt z => z | _ => 0%Z end) N).

Definition sample_pipeline {I} `{!ArrayLike I pyval} :=
  pipeline false Z id unit sample_scaler_fit sample_scaler_transform (I := I).

(** Two rows whose workclass differs by a NUL character at the end,
    and what the pipeline makes of them. *)
Definition nul_rows : ndarray pyval :=
  NdArray 13
    [ [PInt 39; PStr " a"; PInt 0; PStr "x"; PInt 0; PStr "y"; PInt 0;
       PStr "z"; PInt 0; PInt 0; PInt 0; PInt 0; PInt 40];
      [PInt 52; PStr nul_padded; PInt 0; PStr "x"; PInt 0; PStr "y"; PInt 0;
       PStr "z"; PInt 0; PInt 0; PInt 0; PInt 0; PInt 45] ]%Z.

Definition nul_features : ndarray Z :=
  NdArray 6 [ [1; 1; 1; 1; 39; 40]; [1; 1; 1; 1; 52; 45] ]%Z.

Definition train_features_example : ndarray Z :=
  NdArray 12
    [ [0; 0; 1; 1; 0; 0; 0; 1; 0; 1; 39; 40];
      [0; 1; 0; 0; 1; 0; 1; 0; 1; 0; 52; 45];
      [1; 0; 0; 0; 0; 1; 0; 1; 0; 1; 31; 50];
      [1; 0; 0; 1; 0; 0; 1; 0; 1; 0; 42; 40] ]%Z.

Definition sample_pipeline_fitted :=
  fitted_pipeline unit
    [ {["Private" := 0; "Self-emp-not-inc" := 1; "State-gov" := 2]};
      {["Bachelors" := 0; "HS-grad" := 1; "Masters" := 2]};
      {["Married-civ-spouse" := 0; "Never-married" := 1]};
      {["Husband" := 0; "Not-in-family" := 1]} ] tt.

(** ** Further vocabulary *)

(** Two batches of rows with the same columns, one below the other. *)
Definition vstack {A} (X1 X2 : ndarray A) : ndarray A :=
  NdArray (shape1 X1) (rows X1 ++ rows X2).

(** Two arrays with the same number of columns whose rows agree at the
    positions [ks]. *)
Definition agree_at {A} (ks : list nat) (X X' : ndarray A) : Prop :=
  shape1 X = shape1 X' ∧
  Forall2 (λ r r' : list A, Forall (λ k, r !! k = r' !! k) ks) (rows X) (rows X').

(** The positions [ps2] read off the positions [ps1]: what selecting
    [ps2] from a selection by [ps1] selects. *)
Definition compose_positions (ps1 ps2 : list Z) : list Z :=
  omap (λ q, ps1 !! Z.to_nat (q mod Z.of_nat (length ps1))) ps2.

Definition train_shuffled : ndarray string :=
  NdArray 2 [["a"; "y"]; ["b"; "x"]; ["a"; "x"]; ["b"; "y"]; ["a"; "y"]].

Definition batch_example : ndarray string :=
  NdArray 2 [["b"; "y"]; ["a"; "x"]].

Definition mixed_example : ndarray pyval :=
  NdArray 2 [[PStr " Private"; PInt 40]].

(** The sample features with another value in a column the pipeline
    does not read. *)
Definition features_variant : ndarray pyval :=
  NdArray 14 ((λ r : list pyval, <[2 := PInt 0]> r) <$> rows features_example).

(** * Properties *)

(** ** Results and loops *)

Lemma mapR_Ok {A B} (f : A → result B) (l : list A) (k : list B) :
  mapR f l = Ok k ↔ Forall2 (λ x y, f x = Ok y) l k.
Proof.
  revert k. induction l as [|x l IH]; intros k; simpl.
  - split; [intros [= <-]; constructor | by inversion 1].
  - destruct (f x) as [y|e] eqn:Hx; simpl.
    + destruct (mapR f l) as [ys|e] eqn:Hl; simpl.
      * split.
        -- intros [= <-]. constructor; [done|]. by apply IH.
        -- inversion 1 as [|???? Hy Hys]; subst. rewrite Hx in Hy.
           apply IH in Hys. by simplify_eq.
      * split; [done|]. inversion 1 as [|???? Hy Hys]; subst.
        apply IH in Hys. done.
    + split; [done|]. inversion 1 as [|???? Hy Hys]; subst. congruence.
Qed.

Lemma mapR_total {A B} (f : A → B) (l : list A) :
  mapR (λ x, Ok (f x)) l = Ok (f <$> l).
Proof. induction l as [|x l IH]; simpl; [done|]. by rewrite IH. Qed.

Lemma mapR_ext_Forall {A B} (f g : A → result B) (l : list A) :
  Forall (λ x, f x = g x) l → mapR f l = mapR g l.
Proof. induction 1 as [|x l Hx _ IH]; simpl; [done|]. by rewrite Hx, IH. Qed.

Lemma mapR_Raise {A B} (f : A → result B) (l : list A) (e : exn) :
  mapR f l = Raise e → Exists (λ x, f x = Raise e) l.
Proof.
  induction l as [|x l IH]; simpl; [done|].
  destruct (f x) as [y|e'] eqn:Hx; simpl.
  - destruct (mapR f l) as [ys|e'']; simpl; [done|].
    intros [= ->]. by apply Exists_cons_tl, IH.
  - intros [= ->]. by apply Exists_cons_hd.
Qed.

(** ** Arrays *)

Section arrays.
Context {A : Type}.
Implicit Types (X M : ndarray A) (r : list A).

Lemma wf_lookup X i r : wf X → rows X !! i = Some r → length r = shape1 X.
Proof. intros Hwf Hr. by eapply (Forall_lookup_1 _ _ _ _ Hwf). Qed.

Lemma column_lookup X c i :
  wf X → c < shape1 X → column c X !! i = cell X i c.
Proof.
  unfold column, cell, wf. intros Hwf Hc. revert i.
  induction Hwf as [|r l Hr _ IH]; intros i; [done|]. simpl.
  destruct (lookup_lt_is_Some_2 r c) as [x Hx]; [lia|]. rewrite Hx.
  destruct i as [|i]; simpl; [done|]. apply IH.
Qed.

Lemma length_column X c : wf X → c < shape1 X → length (column c X) = shape0 X.
Proof.
  unfold column, shape0, wf. intros Hwf Hc.
  induction Hwf as [|r l Hr _ IH]; [done|]. simpl.
  destruct (lookup_lt_is_Some_2 r c) as [x ->]; [lia|]. simpl. f_equal. exact IH.
Qed.

Lemma cell_Some X i j x : wf X → cell X i j = Some x → i < shape0 X ∧ j < shape1 X.
Proof.
  unfold cell, shape0. intros Hwf Hx.
  destruct (rows X !! i) as [r|] eqn:Hr; [|done]. simpl in Hx.
  apply lookup_lt_Some in Hx. rewrite (wf_lookup X i r) in Hx by done.
  split; [by eapply lookup_lt_Some | done].
Qed.

End arrays.

Lemma axis_index_Ok n p :
  (- Z.of_nat n ≤ p < Z.of_nat n)%Z →
  axis_index n p = Ok (Z.to_nat (p mod Z.of_nat n)) ∧ Z.to_nat (p mod Z.of_nat n) < n.
Proof.
  intros Hp. unfold axis_index. destruct (decide (0 ≤ p < Z.of_nat n)%Z) as [H|H].
  - rewrite Z.mod_small by lia. split; [done|lia].
  - rewrite decide_True by lia.
    replace (p mod Z.of_nat n)%Z with (p + Z.of_nat n)%Z; [split; [done|lia]|].
    apply Z.mod_unique with (-1)%Z; lia.
Qed.

Lemma gather_lookup {A} (r : list A) (ks : list nat) j :
  Forall (λ k, k < length r) ks →
  omap (λ k : nat, r !! k) ks !! j = ks !! j ≫= (λ k, r !! k).
Proof.
  intros Hks. revert j. induction Hks as [|k ks Hk _ IH]; intros j; [done|]. simpl.
  destruct (lookup_lt_is_Some_2 r k Hk) as [x Hx]. rewrite Hx.
  destruct j as [|j]; simpl; [done|]. apply IH.
Qed.

Lemma length_gather {A} (r : list A) (ks : list nat) :
  Forall (λ k, k < length r) ks → length (omap (λ k : nat, r !! k) ks) = length ks.
Proof.
  induction 1 as [|k ks Hk _ IH]; [done|]. simpl.
  destruct (lookup_lt_is_Some_2 r k Hk) as [x ->]. simpl. f_equal. exact IH.
Qed.

Lemma gather_fmap {A B} (f : A → B) (r : list A) (ks : list nat) :
  omap (λ k : nat, (f <$> r) !! k) ks = f <$> omap (λ k : nat, r !! k) ks.
Proof.
  induction ks as [|k ks IH]; [done|]. simpl. rewrite list_lookup_fmap.
  destruct (r !! k); simpl; [f_equal|]; exact IH.
Qed.

(** What [X[:, ps]] returns when every position designates a column. *)
Lemma take_columns_Ok {A} (X : ndarray A) (ps : list Z) :
  Forall (λ p, (- Z.of_nat (shape1 X) ≤ p < Z.of_nat (shape1 X))%Z) ps →
  take_columns X ps =
    Ok (NdArray (length ps)
          ((λ r : list A, omap (λ k : nat, r !! k)
                            ((λ p, Z.to_nat (p mod Z.of_nat (shape1 X))) <$> ps)) <$> rows X)).
Proof.
  intros Hps. unfold take_columns.
  rewrite (mapR_ext_Forall _ (λ p, Ok (Z.to_nat (p mod Z.of_nat (shape1 X))))).
  - by rewrite mapR_total.
  - eapply Forall_impl; [done|]. intros p Hp. by apply axis_index_Ok.
Qed.

Lemma axis_index_Ok_inv n p k :
  axis_index n p = Ok k → (- Z.of_nat n ≤ p < Z.of_nat n)%Z.
Proof. unfold axis_index. repeat case_decide; intros; simplify_eq; lia. Qed.

Lemma take_columns_Ok_inv {A} (X M : ndarray A) (ps : list Z) :
  take_columns X ps = Ok M →
  Forall (λ p, (- Z.of_nat (shape1 X) ≤ p < Z.of_nat (shape1 X))%Z) ps.
Proof.
  unfold take_columns.
  destruct (mapR (axis_index (shape1 X)) ps) as [ks|e] eqn:Hks; [|done].
  intros _. apply mapR_Ok in Hks.
  induction Hks as [|p k ps ks Hp _ IH]; constructor; [|done].
  by eapply axis_index_Ok_inv.
Qed.


(** ** PositionalSelector *)

(** The selector on what [np.array] makes of its input. *)
Lemma PositionalSelector_transform_of {I A} `{!ArrayLike I A} (X : I) (Xa : ndarray A) (s : PositionalSelector.self) :
  np_array X = Ok Xa →
  PositionalSelector.transform X s = (take_columns Xa (PositionalSelector.positions s), s).
Proof.
  intros HX. unfold PositionalSelector.transform, py_bind, py_lift, py_get.
  by rewrite HX.
Qed.

Lemma PositionalSelector_transform_no_array {I A} `{!ArrayLike I A} (X : I) (e : exn) (s : PositionalSelector.self) :
  np_array X = Raise e →
  PositionalSelector.transform (A := A) X s = (Raise e, s).
Proof.
  intros HX. unfold PositionalSelector.transform, py_bind, py_lift, py_get.
  by rewrite HX.
Qed.

Lemma PositionalSelector_transform_eq {A} (X : ndarray A) (s : PositionalSelector.self) :
  PositionalSelector.transform X s = (take_columns X (PositionalSelector.positions s), s).
Proof. done. Qed.

Lemma PositionalSelector_transform_state {I A} `{!ArrayLike I A} (X : I) (s : PositionalSelector.self) :
  (PositionalSelector.transform (A := A) X s).2 = s.
Proof.
  destruct (np_array X) as [Xa|e] eqn:HX.
  - by rewrite (PositionalSelector_transform_of X Xa).
  - by rewrite (PositionalSelector_transform_no_array X e).
Qed.

Lemma amap_shape {A B} (f : A → B) (X : ndarray A) :
  shape0 (amap f X) = shape0 X ∧ shape1 (amap f X) = shape1 X.
Proof. unfold shape0, amap. simpl. by rewrite length_fmap. Qed.

Lemma amap_cell {A B} (f : A → B) (X : ndarray A) i j :
  cell (amap f X) i j = f <$> cell X i j.
Proof.
  unfold cell, amap. simpl. rewrite list_lookup_fmap.
  destruct (rows X !! i) as [r|]; simpl; [|done]. apply list_lookup_fmap.
Qed.

(** C4, as stated, fails for a position list that reaches outside the
    array: on an array with two rows and three columns the positions
    [[3]] make the indexing raise, so no matrix is returned. *)
Lemma C4_counterexample :
  wf digits_example ∧ shape0 digits_example = 2 ∧ shape1 digits_example = 3
  ∧ PositionalSelector.transform digits_example (PositionalSelector.init [3]%Z)
      = (Raise IndexError, PositionalSelector.init [3]%Z)
  ∧ ¬ (∃ M, PositionalSelector.transform digits_example (PositionalSelector.init [3]%Z)
              = (Ok M, PositionalSelector.init [3]%Z)).
Proof.
  split_and!; [repeat constructor|reflexivity|reflexivity|reflexivity|].
  intros (M & HM). vm_compute in HM. discriminate.
Qed.

(** C4, amended. Let [Xa] be the two-dimensional array that [np.array]
    makes of the input [X] (an array is taken as it is), and [ps] a
    list of positions of columns of [Xa]: from minus the number of
    columns up to, and not including, that number, a negative position
    counting from the last column, as array indexing has it. Then
    [PositionalSelector(ps).transform(X)] returns the array with the
    rows of [Xa] and one column per position, column [j] being column
    [ps[j]] of [Xa], in order; the selector is left as it was, and
    which columns are taken is fixed by [ps] and does not depend on the
    entries: the selection commutes with any entry-wise change of
    [Xa]. *)
Theorem C4_positional_selector_transform {I A} `{!ArrayLike I A} (X : I) (Xa : ndarray A) (ps : list Z) :
  np_array X = Ok Xa →
  wf Xa →
  Forall (λ p, (- Z.of_nat (shape1 Xa) ≤ p < Z.of_nat (shape1 Xa))%Z) ps →
  ∃ M, PositionalSelector.transform X (PositionalSelector.init ps)
         = (Ok M, PositionalSelector.init ps)
     ∧ wf M ∧ shape0 M = shape0 Xa ∧ shape1 M = length ps
     ∧ (∀ j p, ps !! j = Some p →
          column j M = column (Z.to_nat (p mod Z.of_nat (shape1 Xa))) Xa)
     ∧ (∀ B (f : A → B),
          PositionalSelector.transform (amap f Xa) (PositionalSelector.init ps)
            = (Ok (amap f M), PositionalSelector.init ps)).
Proof.
  intros HX Hwf Hps. rewrite (PositionalSelector_transform_of X Xa) by done.
  cbn [PositionalSelector.positions PositionalSelector.init].
  rewrite take_columns_Ok by done. eexists; split; [done|].
  set (ks := (λ p, Z.to_nat (p mod Z.of_nat (shape1 Xa))) <$> ps).
  assert (Forall (λ k, k < shape1 Xa) ks) as Hks.
  { apply Forall_fmap. eapply Forall_impl; [exact Hps|]. intros p Hp.
    by apply axis_index_Ok. }
  assert (∀ r, r ∈ rows Xa → Forall (λ k, k < length r) ks) as Hr.
  { intros r Hin. unfold wf in Hwf. rewrite Forall_forall in Hwf.
    by rewrite (Hwf r Hin). }
  split_and!.
  - unfold wf. simpl. apply Forall_fmap, Forall_forall. intros r Hin. simpl.
    rewrite length_gather by auto. unfold ks. by rewrite length_fmap.
  - unfold shape0. simpl. by rewrite length_fmap.
  - done.
  - intros j p Hj. unfold column. simpl.
    assert (ks !! j = Some (Z.to_nat (p mod Z.of_nat (shape1 Xa)))) as Hkj.
    { unfold ks. by rewrite list_lookup_fmap, Hj. }
    clear Hwf HX. induction (rows Xa) as [|r l IH]; [done|]. simpl.
    rewrite gather_lookup by (apply Hr; left). rewrite Hkj. simpl.
    destruct (r !! _); simpl; [f_equal|]; apply IH; intros; apply Hr; by right.
  - intros B f. rewrite PositionalSelector_transform_eq. simpl.
    rewrite take_columns_Ok by done. do 2 f_equal. unfold amap. simpl.
    f_equal. rewrite <-!list_fmap_compose. apply list_fmap_ext.
    intros _ r _. simpl. apply gather_fmap.
Qed.

Lemma C4_witness :
  ∃ M, PositionalSelector.transform digits_example (PositionalSelector.init [2; -3; 0]%Z)
         = (Ok M, PositionalSelector.init [2; -3; 0]%Z)
     ∧ wf M ∧ shape0 M = shape0 digits_example ∧ shape1 M = 3
     ∧ (∀ j p, [2; -3; 0]%Z !! j = Some p →
          column j M = column (Z.to_nat (p mod 3)) digits_example)
     ∧ (∀ B (f : nat → B),
          PositionalSelector.transform (amap f digits_example)
            (PositionalSelector.init [2; -3; 0]%Z)
            = (Ok (amap f M), PositionalSelector.init [2; -3; 0]%Z)).
Proof.
  apply (C4_positional_selector_transform digits_example digits_example [2; -3; 0]%Z).
  - reflexivity.
  - repeat constructor.
  - repeat constructor; simpl; lia.
Defined.

Example PositionalSelector_example :
  PositionalSelector.transform digits_example (PositionalSelector.init [2; -3; 0]%Z)
    = (Ok (NdArray 3 [[3; 1; 1]; [6; 4; 4]]), PositionalSelector.init [2; -3; 0]%Z).
Proof. reflexivity. Qed.

(** ** Trimming *)

Lemma append_String a s t : String a s +:+ t = String a (s +:+ t).
Proof. reflexivity. Qed.

Lemma append_empty_l t : EmptyString +:+ t = t.
Proof. reflexivity. Qed.

Lemma append_empty_r s : s +:+ EmptyString = s.
Proof. induction s as [|a s IH]; [done|]. by rewrite append_String, IH. Qed.

Lemma lstrip_split s : ∃ l, s = l +:+ lstrip s ∧ all_spaces l = true.
Proof.
  induction s as [|a s (l & Hl & Hsp)]; simpl.
  - by exists EmptyString.
  - destruct (is_space a) eqn:Ha.
    + exists (String a l). rewrite append_String, <-Hl. simpl. by rewrite Ha, Hsp.
    + by exists EmptyString.
Qed.

Lemma lstrip_starts s : starts_with_space (lstrip s) = false.
Proof.
  induction s as [|a s IH]; simpl; [done|].
  destruct (is_space a) eqn:Ha; simpl; done.
Qed.

Lemma lstrip_id s : starts_with_space s = false → lstrip s = s.
Proof. destruct s as [|a s]; simpl; [done|]. by intros ->. Qed.

Lemma lstrip_spaces l u : all_spaces l = true → lstrip (l +:+ u) = lstrip u.
Proof.
  induction l as [|a l IH]; [done|]. simpl. intros [Ha Hl]%andb_true_iff.
  rewrite Ha. by apply IH.
Qed.

Lemma rstrip_empty_iff s : rstrip s = EmptyString ↔ all_spaces s = true.
Proof.
  induction s as [|a s IH]; simpl; [done|].
  destruct (rstrip s) eqn:Hs.
  - destruct (is_space a); simpl; [|done]. split; [intros _; by apply IH | done].
  - split; [done|]. intros [_ Hsp]%andb_true_iff. by apply IH in Hsp.
Qed.

Lemma rstrip_split s : ∃ r, s = rstrip s +:+ r ∧ all_spaces r = true.
Proof.
  induction s as [|a s (r & Hr & Hsp)]; simpl.
  - by exists EmptyString.
  - destruct (rstrip s) as [|b t] eqn:Hs.
    + destruct (is_space a) eqn:Ha.
      * exists (String a s). split; [done|]. simpl. rewrite Ha. simpl.
        by apply rstrip_empty_iff.
      * exists r. by rewrite append_String, <-Hr.
    + exists r. by rewrite append_String, <-Hr.
Qed.

Lemma rstrip_ends s : ends_with_space (rstrip s) = false.
Proof.
  induction s as [|a s IH]; simpl; [done|].
  destruct (rstrip s) as [|b t] eqn:Hs.
  - destruct (is_space a) eqn:Ha; simpl; done.
  - simpl in *. done.
Qed.

Lemma rstrip_starts s : starts_with_space s = false → starts_with_space (rstrip s) = false.
Proof.
  destruct s as [|a s]; simpl; [done|]. intros Ha.
  destruct (rstrip s); [by rewrite Ha|done].
Qed.

Lemma rstrip_id s : ends_with_space s = false → rstrip s = s.
Proof.
  induction s as [|a s IH]; simpl; [done|].
  destruct s as [|b s].
  - simpl. by intros ->.
  - intros Hs. rewrite IH by done. done.
Qed.

Lemma rstrip_spaces t r : all_spaces r = true → rstrip (t +:+ r) = rstrip t.
Proof.
  intros Hr. induction t as [|a t IH].
  - rewrite append_empty_l. by apply rstrip_empty_iff.
  - rewrite append_String. simpl. by rewrite IH.
Qed.

Lemma strip_trimmed_of s : trimmed_of s (strip s).
Proof.
  unfold strip. destruct (lstrip_split s) as (l & Hl & Hlsp).
  destruct (rstrip_split (lstrip s)) as (r & Hr & Hrsp).
  exists l, r. split_and!; try done.
  - by rewrite <-Hr.
  - apply rstrip_starts, lstrip_starts.
  - apply rstrip_ends.
Qed.

Lemma trimmed_of_strip s t : trimmed_of s t → t = strip s.
Proof.
  intros (l & r & -> & Hl & Hr & Hst & Hen). unfold strip.
  rewrite lstrip_spaces by done.
  destruct t as [|a t].
  - rewrite append_empty_l.
    assert (lstrip r = EmptyString) as ->; [|done].
    clear -Hr. induction r as [|a r IH]; simpl; [done|].
    simpl in Hr. apply andb_true_iff in Hr as [-> Hr]. by apply IH.
  - rewrite lstrip_id by (by rewrite append_String).
    rewrite rstrip_spaces by done. by rewrite rstrip_id.
Qed.

(** ** Text read back from an array of text *)

Lemma unicode_item_empty_iff s : unicode_item s = EmptyString ↔ all_nul s = true.
Proof.
  induction s as [|a s IH]; simpl; [done|].
  destruct (unicode_item s) eqn:Hs.
  - destruct (is_nul a); simpl; [|done]. split; [intros _; by apply IH | done].
  - split; [done|]. intros [_ Hz]%andb_true_iff. by apply IH in Hz.
Qed.

Lemma unicode_item_split s : ∃ z, s = unicode_item s +:+ z ∧ all_nul z = true.
Proof.
  induction s as [|a s (z & Hz & Hnul)]; simpl.
  - by exists EmptyString.
  - destruct (unicode_item s) as [|b t] eqn:Hs.
    + destruct (is_nul a) eqn:Ha.
      * exists (String a s). split; [done|]. simpl. rewrite Ha. simpl.
        by apply unicode_item_empty_iff.
      * exists z. by rewrite append_String, <-Hz.
    + exists z. by rewrite append_String, <-Hz.
Qed.

Lemma unicode_item_ends s : ends_with_nul (unicode_item s) = false.
Proof.
  induction s as [|a s IH]; simpl; [done|].
  destruct (unicode_item s) as [|b t] eqn:Hs.
  - destruct (is_nul a) eqn:Ha; simpl; done.
  - simpl in *. done.
Qed.

Lemma unicode_item_id s : ends_with_nul s = false → unicode_item s = s.
Proof.
  induction s as [|a s IH]; simpl; [done|].
  destruct s as [|b s].
  - simpl. by intros ->.
  - intros Hs. rewrite IH by done. done.
Qed.

Lemma unicode_item_nuls t z : all_nul z = true → unicode_item (t +:+ z) = unicode_item t.
Proof.
  intros Hz. induction t as [|a t IH].
  - rewrite append_empty_l. by apply unicode_item_empty_iff.
  - rewrite append_String. simpl. by rewrite IH.
Qed.

Lemma unicode_item_cut s : nul_cut_of s (unicode_item s).
Proof.
  destruct (unicode_item_split s) as (z & Hz & Hnul).
  exists z. split_and!; [done|done|apply unicode_item_ends].
Qed.

Lemma nul_cut_of_unicode_item s t : nul_cut_of s t → t = unicode_item s.
Proof.
  intros (z & -> & Hz & Hen). rewrite unicode_item_nuls by done.
  by rewrite unicode_item_id.
Qed.

Lemma unicode_item_idemp s : unicode_item (unicode_item s) = unicode_item s.
Proof. apply unicode_item_id, unicode_item_ends. Qed.

(** What the trimming step keeps of a cell. *)
Lemma kept_of_iff s u : kept_of s u ↔ u = unicode_item (strip s).
Proof.
  split.
  - intros (t & ->%trimmed_of_strip & Hu). by apply nul_cut_of_unicode_item.
  - intros ->. exists (strip s). split; [apply strip_trimmed_of|apply unicode_item_cut].
Qed.

(** ** StripString *)

Lemma mapR_fmap {A B C} (f : B → result C) (g : A → B) (l : list A) :
  mapR f (g <$> l) = mapR (λ x, f (g x)) l.
Proof. induction l as [|x l IH]; csimpl; [done|]. by rewrite IH. Qed.

Lemma StripString_transform_eq (X : ndarray pyval) (s : StripString.self) :
  StripString.transform X s = (np_vectorize str_strip X, s).
Proof. done. Qed.

Lemma StripString_transform_Ok (X : ndarray string) :
  0 < shape0 X → 0 < shape1 X →
  StripString.transform (amap PStr X) StripString.init
    = (Ok (amap kept X), StripString.init).
Proof.
  intros H0 H1. rewrite StripString_transform_eq. unfold np_vectorize.
  destruct (amap_shape PStr X) as [-> ->].
  rewrite decide_False by lia. unfold amap at 1. cbn [rows shape1].
  rewrite mapR_fmap.
  rewrite (mapR_ext_Forall _ (λ r, Ok (strip <$> r))).
  - rewrite mapR_total. cbn [result_bind]. do 2 f_equal.
    unfold amap. cbn [rows shape1]. f_equal.
    rewrite <-list_fmap_compose. apply list_fmap_ext. intros _ r _. simpl.
    by rewrite <-list_fmap_compose.
  - apply Forall_true. intros r. rewrite mapR_fmap. apply mapR_total.
Qed.

Lemma StripString_transform_empty (X : ndarray pyval) :
  shape0 X = 0 ∨ shape1 X = 0 →
  StripString.transform X StripString.init = (Raise ValueError, StripString.init).
Proof.
  intros H. rewrite StripString_transform_eq. unfold np_vectorize.
  rewrite decide_True by lia. done.
Qed.

(** C5, as stated, fails on an array without entries: [np.vectorize]
    refuses an input of size 0, so nothing is returned for the array
    with no rows and one column. *)
Lemma C5_counterexample :
  StripString.transform (amap PStr no_rows) StripString.init
    = (Raise ValueError, StripString.init)
  ∧ ¬ (∃ M, StripString.transform (amap PStr no_rows) StripString.init
              = (Ok M, StripString.init)
          ∧ shape0 M = shape0 no_rows ∧ shape1 M = shape1 no_rows).
Proof.
  split; [reflexivity|]. intros (M & HM & _). vm_compute in HM. discriminate.
Qed.

(** It fails on text as well: the trimmed entries are stored in an
    array of text, which does not keep a NUL character at the end of
    an entry. The entry made of a space, the letter a and a NUL
    character comes back as the letter a alone, though its trimmed text
    is the letter a with the NUL character. *)
Example StripString_drops_trailing_nul :
  StripString.transform (amap PStr nul_example) StripString.init
    = (Ok (NdArray 1 [["a"]]), StripString.init)
  ∧ cell nul_example 0 0 = Some nul_padded
  ∧ trimmed_of nul_padded (String "a" (String NUL EmptyString))
  ∧ ¬ trimmed_of nul_padded "a".
Proof.
  split_and!; [reflexivity|reflexivity| |].
  - exists " "%string, EmptyString. by split_and!.
  - intros Ht%trimmed_of_strip. vm_compute in Ht. discriminate.
Qed.

(** C5, amended. For every array [X] of strings with at least one row
    and one column, [StripString.transform(X)] returns an array of the
    same shape whose entry (i, j) is [X[i][j]] with its leading and
    trailing whitespace removed and then without the NUL characters at
    its end, and nothing else in it is changed. The trimmed text [t] is
    the only string that [X[i][j]] extends by whitespace on both sides
    and that neither begins nor ends with whitespace; the entry [u] is
    the only string that [t] extends by NUL characters and that does
    not end with one, hence [t] itself when [t] does not end with a NUL
    character. *)
Theorem C5_strip_string_transform (X : ndarray string) :
  0 < shape0 X → 0 < shape1 X →
  ∃ M, StripString.transform (amap PStr X) StripString.init = (Ok M, StripString.init)
     ∧ shape0 M = shape0 X ∧ shape1 M = shape1 X
     ∧ (∀ i j, cell X i j = None → cell M i j = None)
     ∧ (∀ i j s, cell X i j = Some s →
          ∃ t u, cell M i j = Some u
               ∧ trimmed_of s t ∧ (∀ t', trimmed_of s t' → t' = t)
               ∧ nul_cut_of t u ∧ (∀ u', nul_cut_of t u' → u' = u)
               ∧ (ends_with_nul t = false → u = t)).
Proof.
  intros H0 H1. exists (amap kept X).
  split; [by apply StripString_transform_Ok|].
  destruct (amap_shape kept X) as [-> ->]. split_and!; try done.
  - intros i j Hc. by rewrite amap_cell, Hc.
  - intros i j s Hc. exists (strip s), (kept s). rewrite amap_cell, Hc.
    split_and!.
    + done.
    + apply strip_trimmed_of.
    + apply trimmed_of_strip.
    + apply unicode_item_cut.
    + apply nul_cut_of_unicode_item.
    + intros Hen. by apply unicode_item_id.
Qed.

Lemma C5_witness :
  ∃ M, StripString.transform (amap PStr padded_example) StripString.init
         = (Ok M, StripString.init)
     ∧ shape0 M = shape0 padded_example ∧ shape1 M = shape1 padded_example
     ∧ (∀ i j, cell padded_example i j = None → cell M i j = None)
     ∧ (∀ i j s, cell padded_example i j = Some s →
          ∃ t u, cell M i j = Some u
               ∧ trimmed_of s t ∧ (∀ t', trimmed_of s t' → t' = t)
               ∧ nul_cut_of t u ∧ (∀ u', nul_cut_of t u' → u' = u)
               ∧ (ends_with_nul t = false → u = t)).
Proof.
  apply (C5_strip_string_transform padded_example).
  - unfold shape0. simpl. lia.
  - simpl. lia.
Defined.

Example StripString_example :
  StripString.transform (amap PStr padded_example) StripString.init
    = (Ok (NdArray 2 [["State-gov"; "a b"]]), StripString.init).
Proof. reflexivity. Qed.

Example strip_state_gov : strip " State-gov" = "State-gov".
Proof. reflexivity. Qed.

Example strip_inner_space : strip "  a b  " = "a b".
Proof. reflexivity. Qed.

(** The no-break space and the next-line control are whitespace. *)
Example strip_no_break_space :
  strip (String (ascii_of_N 160) (String "a" (String (ascii_of_N 133) EmptyString))) = "a"%string.
Proof. reflexivity. Qed.

(** ** [np.unique] and the dictionary built from it *)

Lemma str_compare_refl a : (a ?= a)%string = Eq.
Proof.
  induction a as [|c a IH]; simpl; [done|].
  unfold Ascii.compare. by rewrite N.compare_refl.
Qed.

Lemma str_lt_le a b : str_lt a b ↔ String.le a b ∧ a ≠ b.
Proof.
  unfold str_lt, String.le, String.leb. split.
  - intros H. rewrite H. split; [done|]. intros ->.
    rewrite str_compare_refl in H. done.
  - intros [Hle Hne]. destruct (a ?= b)%string eqn:Hc; [|done|done].
    by apply String.compare_eq_iff in Hc.
Qed.

Global Instance str_lt_irrefl : Irreflexive str_lt.
Proof. intros a [_ H]%str_lt_le. done. Qed.

Global Instance str_lt_trans : Transitive str_lt.
Proof.
  intros a b c [Hab Hne]%str_lt_le [Hbc Hne']%str_lt_le. apply str_lt_le.
  split; [by etrans|]. intros ->. destruct Hne. by apply (anti_symm String.le).
Qed.

Lemma str_lt_asym a b : str_lt a b → ¬ str_lt b a.
Proof. intros H1 H2. by apply (irreflexivity str_lt a); etrans. Qed.

Lemma keep_changes_spec prev aux :
  StronglySorted String.le (prev :: aux) →
  StronglySorted str_lt (prev :: keep_changes prev aux) ∧
  ∀ y, y ∈ prev :: keep_changes prev aux ↔ y ∈ prev :: aux.
Proof.
  revert prev. induction aux as [|x aux IH]; intros prev Hs; simpl.
  - split; [repeat constructor | done].
  - apply StronglySorted_inv in Hs as [Hs Hprev].
    destruct (IH x Hs) as [IHs IHe].
    apply Forall_cons in Hprev as [Hpx Hpaux].
    destruct (decide (x = prev)) as [->|Hne]; simpl.
    + split; [done|]. intros y. rewrite IHe, !elem_of_cons. tauto.
    + split.
      * constructor; [done|]. apply Forall_forall. intros y Hy.
        assert (str_lt prev x) as Hlt by (by apply str_lt_le).
        apply elem_of_cons in Hy as [->|Hy]; [done|].
        etrans; [exact Hlt|].
        apply StronglySorted_inv in IHs as [_ Hall].
        rewrite Forall_forall in Hall. by apply Hall.
      * intros y. rewrite !elem_of_cons. rewrite <-(elem_of_cons aux).
        rewrite <-IHe. rewrite elem_of_cons. done.
Qed.

Lemma np_unique_spec Y :
  StronglySorted str_lt (np_unique Y) ∧ ∀ y, y ∈ np_unique Y ↔ y ∈ Y.
Proof.
  unfold np_unique.
  pose proof (StronglySorted_merge_sort String.le Y) as Hs.
  pose proof (merge_sort_Permutation String.le Y) as Hp.
  destruct (merge_sort String.le Y) as [|x aux].
  - split; [constructor|]. intros y. by rewrite <-Hp.
  - destruct (keep_changes_spec x aux Hs) as [H1 H2].
    split; [done|]. intros y. by rewrite H2, Hp.
Qed.

Lemma StronglySorted_str_lt_NoDup u : StronglySorted str_lt u → NoDup u.
Proof.
  induction 1 as [|x u _ IH Hx]; constructor; [|done].
  intros Hin. rewrite Forall_forall in Hx.
  by apply (irreflexivity str_lt x), Hx.
Qed.

Lemma np_unique_NoDup Y : NoDup (np_unique Y).
Proof. apply StronglySorted_str_lt_NoDup, np_unique_spec. Qed.

Lemma np_unique_distinct Y : np_unique Y ≡ₚ distinct Y.
Proof.
  apply NoDup_Permutation.
  - apply np_unique_NoDup.
  - apply NoDup_remove_dups.
  - intros y. unfold distinct. rewrite elem_of_remove_dups. apply np_unique_spec.
Qed.

Lemma filter_none {A} (P : A → Prop) `{∀ x, Decision (P x)} (l : list A) :
  Forall (λ x, ¬ P x) l → filter P l = [].
Proof.
  induction 1 as [|x l Hx _ IH]; [done|]. by rewrite filter_cons_False.
Qed.

(** In a strictly increasing list the position of an entry is the
    number of entries below it. *)
Lemma sorted_position u i v :
  StronglySorted str_lt u → u !! i = Some v →
  length (filter (λ w, str_lt w v) u) = i.
Proof.
  intros Hs. revert i. induction Hs as [|x u Hs IH Hx]; intros i Hi; [done|].
  rewrite Forall_forall in Hx. destruct i as [|i]; simpl in Hi.
  - simplify_eq. rewrite filter_cons_False by apply (irreflexivity str_lt).
    rewrite filter_none; [done|].
    apply Forall_forall. intros w Hw. by apply str_lt_asym, Hx.
  - rewrite filter_cons_True.
    + simpl. by rewrite (IH i).
    + apply Hx. by eapply list_elem_of_lookup_2.
Qed.

Lemma enumerate_snoc {A} (l : list A) x :
  enumerate (l ++ [x]) = enumerate l ++ [(length l, x)].
Proof. unfold enumerate. rewrite imap_app. simpl. by rewrite Nat.add_0_r. Qed.

Lemma dict_of_pairs_snoc u x :
  dict_of_pairs (enumerate (u ++ [x]))
    = <[x := length u]> (dict_of_pairs (enumerate u)).
Proof. unfold dict_of_pairs. by rewrite enumerate_snoc, foldl_app. Qed.

Lemma dict_of_pairs_dom u v :
  is_Some (dict_of_pairs (enumerate u) !! v) ↔ v ∈ u.
Proof.
  induction u as [|x u IH] using rev_ind.
  - unfold dict_of_pairs. simpl. rewrite lookup_empty, elem_of_nil.
    split; [by intros [? ?]|done].
  - rewrite dict_of_pairs_snoc, elem_of_app, list_elem_of_singleton, <-IH.
    destruct (decide (x = v)) as [->|Hne].
    + rewrite lookup_insert_eq. split; [by right | by eexists].
    + rewrite lookup_insert_ne by done. split; [by left | by intros [?|?]; subst].
Qed.

Lemma dict_of_pairs_lookup u v i :
  NoDup u → dict_of_pairs (enumerate u) !! v = Some i ↔ u !! i = Some v.
Proof.
  revert i. induction u as [|x u IH] using rev_ind; intros i Hnd.
  - unfold dict_of_pairs. simpl. by rewrite lookup_empty.
  - apply NoDup_app in Hnd as (Hu & Hx & _). rewrite dict_of_pairs_snoc.
    destruct (decide (x = v)) as [->|Hne].
    + rewrite lookup_insert_eq. split.
      * intros [= <-]. by rewrite list_lookup_middle.
      * intros Hi. f_equal. destruct (decide (i < length u)) as [Hlt|Hge].
        -- rewrite lookup_app_l in Hi by done.
           destruct (Hx v); [by eapply list_elem_of_lookup_2|].
           by apply list_elem_of_singleton.
        -- apply lookup_lt_Some in Hi. rewrite length_app in Hi. simpl in Hi. lia.
    + rewrite lookup_insert_ne by done. rewrite IH by done. split.
      * intros Hi. by rewrite lookup_app_l by (by eapply lookup_lt_Some).
      * intros Hi. destruct (decide (i < length u)) as [Hlt|Hge].
        -- by rewrite lookup_app_l in Hi.
        -- rewrite lookup_app_r in Hi by lia.
           apply list_lookup_singleton_Some in Hi as [_ ?]. done.
Qed.

Lemma dict_of_pairs_size u : NoDup u → size (dict_of_pairs (enumerate u)) = length u.
Proof.
  induction u as [|x u IH] using rev_ind; intros Hnd.
  - done.
  - apply NoDup_app in Hnd as (Hu & Hx & _). rewrite dict_of_pairs_snoc.
    rewrite map_size_insert_None.
    + rewrite IH, length_app by done. simpl. lia.
    + apply eq_None_not_Some. rewrite dict_of_pairs_dom.
      intros Hin. eapply Hx; [done|]. by apply list_elem_of_singleton.
Qed.

(** ** SimpleOneHotEncoder.fit *)

Lemma fit_loop (dict : nat → gmap string nat) (l : list nat) (acc : list (gmap string nat)) :
  foldPy (λ _ c, SimpleOneHotEncoder.values_append (dict c)) tt l
    (SimpleOneHotEncoder.Self (Some acc))
  = (Ok tt, SimpleOneHotEncoder.Self (Some (acc ++ (dict <$> l)))).
Proof.
  revert acc. induction l as [|c l IH]; intros acc; simpl.
  - by rewrite app_nil_r.
  - unfold py_bind at 1. simpl. rewrite IH. by rewrite <-app_assoc.
Qed.

(** [fit] overwrites [self.values] whatever the object held before. *)
Lemma SimpleOneHotEncoder_fit_eq (X : ndarray string) (s : SimpleOneHotEncoder.self) :
  SimpleOneHotEncoder.fit X s
    = (Ok tt, SimpleOneHotEncoder.Self (Some (fit_values X))).
Proof.
  unfold SimpleOneHotEncoder.fit, py_bind at 1. simpl.
  unfold py_bind. by rewrite fit_loop.
Qed.

Lemma fit_values_lookup (X : ndarray string) c d :
  fit_values X !! c = Some d ↔
  c < shape1 X ∧ d = dict_of_pairs (enumerate (np_unique (column c X))).
Proof.
  unfold fit_values. rewrite list_lookup_fmap. split.
  - intros H. destruct (seq 0 (shape1 X) !! c) as [c'|] eqn:Hc; [|done].
    apply lookup_seq in Hc as [-> ?]. simpl in *. by simplify_eq.
  - intros [Hc ->]. by rewrite (lookup_seq_lt _ _ _ Hc).
Qed.

Lemma fit_values_dict_ok (X : ndarray string) : Forall dict_ok (fit_values X).
Proof.
  apply Forall_lookup. intros c d [_ ->]%fit_values_lookup v k Hk.
  rewrite dict_of_pairs_size by apply np_unique_NoDup.
  apply dict_of_pairs_lookup in Hk; [|apply np_unique_NoDup].
  by eapply lookup_lt_Some.
Qed.

(** C2. For every training array [X] (and whatever the encoder held
    before), [fit(X)] returns and leaves in [self.values] one mapping
    per column of [X]; the keys of mapping [c] are exactly the values
    occurring in column [c], and its values are pairwise different and
    are exactly the indices 0 .. n-1, where n, the number of its keys,
    is the number of distinct values of the column. *)
Theorem C2_fit_builds_value_index_mappings (X : ndarray string) (s : SimpleOneHotEncoder.self) :
  ∃ vals,
    SimpleOneHotEncoder.fit X s = (Ok tt, SimpleOneHotEncoder.Self (Some vals))
    ∧ length vals = shape1 X
    ∧ ∀ c d, vals !! c = Some d →
        (∀ v, is_Some (d !! v) ↔ v ∈ column c X)
        ∧ size d = length (distinct (column c X))
        ∧ (∀ v k, d !! v = Some k → k < size d)
        ∧ (∀ v w k, d !! v = Some k → d !! w = Some k → v = w)
        ∧ (∀ k, k < size d → ∃ v, d !! v = Some k).
Proof.
  exists (fit_values X). split; [apply SimpleOneHotEncoder_fit_eq|]. split.
  { unfold fit_values. by rewrite length_fmap, length_seq. }
  intros c d [_ ->]%fit_values_lookup.
  pose proof (np_unique_NoDup (column c X)) as Hnd.
  pose proof (np_unique_spec (column c X)) as [_ Hel].
  rewrite dict_of_pairs_size by done. split_and!.
  - intros v. by rewrite dict_of_pairs_dom.
  - by rewrite np_unique_distinct.
  - intros v k Hk%dict_of_pairs_lookup; [|done]. by eapply lookup_lt_Some.
  - intros v w k Hv%dict_of_pairs_lookup Hw%dict_of_pairs_lookup; [|done..].
    congruence.
  - intros k Hk. destruct (lookup_lt_is_Some_2 _ _ Hk) as [v Hv].
    exists v. by apply dict_of_pairs_lookup.
Qed.

(** C9. [fit] returns and leaves one mapping per column of [X], and
    it numbers the values of a column in sorted order: every value [v]
    that occurs in column [c] is a key of mapping [c], and its index is
    the number of distinct values of column [c] strictly below [v] in
    the order of strings; the mappings have no other keys. What [fit]
    leaves behind is therefore a function of the training array alone:
    fitting any two encoders on the same array, or one encoder twice,
    yields identical mappings. *)
Theorem C9_fit_indices_follow_sorted_order (X : ndarray string) (s : SimpleOneHotEncoder.self) :
  ∃ vals,
    SimpleOneHotEncoder.fit X s = (Ok tt, SimpleOneHotEncoder.Self (Some vals))
    ∧ length vals = shape1 X
    ∧ (∀ c v, c < shape1 X → v ∈ column c X →
         ∃ d, vals !! c = Some d ∧ d !! v = Some (count_below v (column c X)))
    ∧ (∀ c d v k, vals !! c = Some d → d !! v = Some k →
         c < shape1 X ∧ v ∈ column c X ∧ k = count_below v (column c X))
    ∧ (∀ s', SimpleOneHotEncoder.fit X s' = SimpleOneHotEncoder.fit X s)
    ∧ SimpleOneHotEncoder.fit X (SimpleOneHotEncoder.fit X s).2
        = SimpleOneHotEncoder.fit X s.
Proof.
  exists (fit_values X). split; [apply SimpleOneHotEncoder_fit_eq|].
  assert (∀ c d v k, fit_values X !! c = Some d → d !! v = Some k →
            c < shape1 X ∧ v ∈ column c X ∧ k = count_below v (column c X)) as Hidx.
  { intros c d v k [Hc ->]%fit_values_lookup Hk.
    pose proof (np_unique_spec (column c X)) as [Hsorted Hel].
    split; [done|]. split.
    - apply Hel, dict_of_pairs_dom. by eexists.
    - apply dict_of_pairs_lookup in Hk; [|apply np_unique_NoDup].
      unfold count_below. rewrite <-np_unique_distinct.
      symmetry. by apply sorted_position. }
  split_and!.
  - unfold fit_values. by rewrite length_fmap, length_seq.
  - intros c v Hc Hv.
    set (d := dict_of_pairs (enumerate (np_unique (column c X)))).
    assert (fit_values X !! c = Some d) as Hd by (by apply fit_values_lookup).
    exists d. split; [done|].
    assert (is_Some (d !! v)) as [k Hk].
    { apply dict_of_pairs_dom. by apply np_unique_spec. }
    rewrite Hk. f_equal. by eapply Hidx.
  - exact Hidx.
  - intros s'. by rewrite !SimpleOneHotEncoder_fit_eq.
  - by rewrite !SimpleOneHotEncoder_fit_eq.
Qed.

Lemma C2_witness :
  ∃ vals,
    SimpleOneHotEncoder.fit train_example SimpleOneHotEncoder.init
      = (Ok tt, SimpleOneHotEncoder.Self (Some vals))
    ∧ length vals = shape1 train_example
    ∧ ∀ c d, vals !! c = Some d →
        (∀ v, is_Some (d !! v) ↔ v ∈ column c train_example)
        ∧ size d = length (distinct (column c train_example))
        ∧ (∀ v k, d !! v = Some k → k < size d)
        ∧ (∀ v w k, d !! v = Some k → d !! w = Some k → v = w)
        ∧ (∀ k, k < size d → ∃ v, d !! v = Some k).
Proof.
  exact (C2_fit_builds_value_index_mappings train_example SimpleOneHotEncoder.init).
Defined.

Lemma C9_witness :
  ∃ vals,
    SimpleOneHotEncoder.fit train_example fitted_example
      = (Ok tt, SimpleOneHotEncoder.Self (Some vals))
    ∧ length vals = shape1 train_example
    ∧ (∀ c v, c < shape1 train_example → v ∈ column c train_example →
         ∃ d, vals !! c = Some d
            ∧ d !! v = Some (count_below v (column c train_example)))
    ∧ (∀ c d v k, vals !! c = Some d → d !! v = Some k →
         c < shape1 train_example ∧ v ∈ column c train_example
         ∧ k = count_below v (column c train_example))
    ∧ (∀ s', SimpleOneHotEncoder.fit train_example s'
             = SimpleOneHotEncoder.fit train_example fitted_example)
    ∧ SimpleOneHotEncoder.fit train_example
        (SimpleOneHotEncoder.fit train_example fitted_example).2
      = SimpleOneHotEncoder.fit train_example fitted_example.
Proof.
  exact (C9_fit_indices_follow_sorted_order train_example fitted_example).
Defined.

Example fit_example :
  SimpleOneHotEncoder.fit train_example SimpleOneHotEncoder.init
    = (Ok tt, fitted_example).
Proof. vm_compute. reflexivity. Qed.

Example count_below_example :
  count_below "b" (column 0 train_example) = 1
  ∧ count_below "a" (column 0 train_example) = 0.
Proof. split; reflexivity. Qed.

(** ** SimpleOneHotEncoder.transform *)

Lemma py_bind_eq {S A B} (m : Py S A) (k : A → Py S B) (s : S) :
  py_bind m k s
  = match m s with
    | (Ok a, s') => k a s'
    | (Raise e, s') => (Raise e, s')
    end.
Proof. reflexivity. Qed.

Lemma values_item_fitted vals c :
  SimpleOneHotEncoder.values_item c (SimpleOneHotEncoder.Self (Some vals))
  = (match vals !! c with Some d => Ok d | None => Raise IndexError end,
     SimpleOneHotEncoder.Self (Some vals)).
Proof. reflexivity. Qed.

(** The loop over [enumerate(Y)] for column [c], on an object whose
    [values] attribute is [vals]. *)
Lemma mark_loop_fitted vals c d (l : list (nat * string)) (matrix : ndarray Z) :
  vals !! c = Some d →
  foldPy (λ matrix ix,
      d <- SimpleOneHotEncoder.values_item c ;;
      if decide (is_Some (d !! ix.2)) then
        d <- SimpleOneHotEncoder.values_item c ;;
        k <- py_lift (dict_getitem d ix.2) ;;
        py_lift (setitem matrix ix.1 k 1%Z)
      else py_ret matrix)%py
    matrix l (SimpleOneHotEncoder.Self (Some vals))
  = (foldR (mark d) matrix l, SimpleOneHotEncoder.Self (Some vals)).
Proof.
  intros Hd. revert matrix. induction l as [|[i x] l IH]; intros matrix; [done|].
  cbn [foldPy foldR]. rewrite !py_bind_eq, values_item_fitted, Hd.
  unfold mark at 1, dict_getitem. cbn [fst snd].
  destruct (d !! x) as [k|] eqn:Hx.
  - rewrite decide_True by done.
    rewrite !py_bind_eq, values_item_fitted, Hd.
    unfold py_bind at 1, py_lift at 1 2. rewrite Hx.
    destruct (setitem matrix i k 1%Z) as [matrix'|e]; [|done].
    cbn [result_bind]. apply IH.
  - rewrite decide_False by (by intros [? ?]).
    unfold py_ret. cbn [result_bind]. apply IH.
Qed.

(** The loop over the columns of [X], entered with the matrices in
    [acc], on an object whose [values] attribute is [vals]. *)
Lemma transform_loop_fitted (X : ndarray string) vals (l : list nat) (acc : list (ndarray Z)) :
  foldPy (λ matrices c,
      let Y := column c X in
      d <- SimpleOneHotEncoder.values_item c ;;
      let matrix := np_zeros (length Y) (size d) in
      matrix <- foldPy (λ matrix ix,
        d <- SimpleOneHotEncoder.values_item c ;;
        if decide (is_Some (d !! ix.2)) then
          d <- SimpleOneHotEncoder.values_item c ;;
          k <- py_lift (dict_getitem d ix.2) ;;
          py_lift (setitem matrix ix.1 k 1%Z)
        else py_ret matrix) matrix (enumerate Y) ;;
      py_ret (matrices ++ [matrix]))%py
    acc l (SimpleOneHotEncoder.Self (Some vals))
  = (match mapR (encode_block vals X) l with
     | Ok Ms => Ok (acc ++ Ms)
     | Raise e => Raise e
     end, SimpleOneHotEncoder.Self (Some vals)).
Proof.
  revert acc. induction l as [|c l IH]; intros acc.
  - cbn [foldPy mapR]. by rewrite app_nil_r.
  - cbn [foldPy mapR]. rewrite !py_bind_eq, values_item_fitted.
    unfold encode_block at 1. destruct (vals !! c) as [d|] eqn:Hd; [|done].
    rewrite py_bind_eq, (mark_loop_fitted vals c d) by done.
    destruct (foldR _ _ _) as [M|e]; [|done].
    unfold py_ret at 1. cbn [result_bind]. rewrite IH.
    destruct (mapR _ l); [|done]. by rewrite <-app_assoc.
Qed.

(** The same loop on an object that was never fitted. *)
Lemma transform_loop_unfitted (X : ndarray string) (l : list nat) (acc : list (ndarray Z)) :
  foldPy (λ matrices c,
      let Y := column c X in
      d <- SimpleOneHotEncoder.values_item c ;;
      let matrix := np_zeros (length Y) (size d) in
      matrix <- foldPy (λ matrix ix,
        d <- SimpleOneHotEncoder.values_item c ;;
        if decide (is_Some (d !! ix.2)) then
          d <- SimpleOneHotEncoder.values_item c ;;
          k <- py_lift (dict_getitem d ix.2) ;;
          py_lift (setitem matrix ix.1 k 1%Z)
        else py_ret matrix) matrix (enumerate Y) ;;
      py_ret (matrices ++ [matrix]))%py
    acc l (SimpleOneHotEncoder.Self None)
  = (match l with [] => Ok acc | _ => Raise AttributeError end,
     SimpleOneHotEncoder.Self None).
Proof. by destruct l. Qed.

(** With [self.values] set, [transform] returns what [encode] computes
    from it and leaves the object alone. *)
Lemma SimpleOneHotEncoder_transform_eq (X : ndarray string) vals :
  SimpleOneHotEncoder.transform X (SimpleOneHotEncoder.Self (Some vals))
    = (encode vals X, SimpleOneHotEncoder.Self (Some vals)).
Proof.
  unfold SimpleOneHotEncoder.transform. rewrite py_bind_eq.
  cbn [py_lift np_array ndarray_ArrayLike]. rewrite py_bind_eq.
  rewrite transform_loop_fitted. unfold encode.
  by destruct (mapR _ _).
Qed.

Lemma SimpleOneHotEncoder_transform_unfitted (X : ndarray string) :
  SimpleOneHotEncoder.transform X (SimpleOneHotEncoder.Self None)
    = (Raise (if decide (shape1 X = 0) then ValueError else AttributeError),
       SimpleOneHotEncoder.Self None).
Proof.
  unfold SimpleOneHotEncoder.transform. rewrite py_bind_eq.
  cbn [py_lift np_array ndarray_ArrayLike]. rewrite py_bind_eq.
  rewrite transform_loop_unfitted.
  destruct (shape1 X) as [|n]; simpl; done.
Qed.

Lemma SimpleOneHotEncoder_transform_state (X : ndarray string) (s : SimpleOneHotEncoder.self) :
  (SimpleOneHotEncoder.transform X s).2 = s.
Proof.
  destruct s as [[vals|]].
  - by rewrite SimpleOneHotEncoder_transform_eq.
  - by rewrite SimpleOneHotEncoder_transform_unfitted.
Qed.

(** *** The rows [transform] produces *)

Lemma length_onehot_row d x : length (onehot_row d x) = size d.
Proof.
  unfold onehot_row, onehot. destruct (d !! x).
  - by rewrite length_insert, length_replicate.
  - by rewrite length_replicate.
Qed.

(** The loop over [enumerate(Y)], started below the rows in [top]. *)
Lemma mark_step d (top : list (list Z)) (n : nat) (x : string) :
  dict_ok d →
  mark d
    (NdArray (size d) (top ++ replicate (size d) 0%Z :: replicate n (replicate (size d) 0%Z)))
    (length top, x)
  = Ok (NdArray (size d)
          ((top ++ [onehot_row d x]) ++ replicate n (replicate (size d) 0%Z))).
Proof.
  intros Hd. unfold mark, onehot_row, onehot. cbn [fst snd].
  destruct (d !! x) as [k|] eqn:Hx.
  - unfold setitem, shape0. cbn [rows shape1].
    rewrite decide_True.
    + rewrite <-(Nat.add_0_r (length top)) at 1.
      rewrite alter_app_r. cbn [alter list_alter]. by rewrite <-app_assoc.
    + split; [|by eapply Hd]. rewrite length_app. simpl. lia.
  - by rewrite <-app_assoc.
Qed.

Lemma mark_loop_from d (top : list (list Z)) (Y : list string) :
  dict_ok d →
  foldR (mark d)
    (NdArray (size d) (top ++ replicate (length Y) (replicate (size d) 0%Z)))
    (imap (λ i, pair (length top + i)) Y)
  = Ok (NdArray (size d) (top ++ (onehot_row d <$> Y))).
Proof.
  intros Hd. revert top.
  induction Y as [|x Y IH]; intros top; [done|].
  rewrite imap_cons. cbn [foldR length replicate].
  rewrite Nat.add_0_r, mark_step by done. cbn [result_bind].
  assert (imap ((λ i, pair (length top + i)) ∘ S) Y
          = imap (λ i, pair (length (top ++ [onehot_row d x]) + i)) Y) as ->.
  { apply imap_ext. intros i y _. simpl. rewrite length_app. simpl.
    f_equal. lia. }
  rewrite IH. by rewrite <-app_assoc.
Qed.

Lemma mark_loop d (Y : list string) :
  dict_ok d →
  foldR (mark d) (np_zeros (length Y) (size d)) (enumerate Y)
  = Ok (NdArray (size d) (onehot_row d <$> Y)).
Proof. intros Hd. by apply (mark_loop_from d [] Y). Qed.

Lemma encode_block_Ok vals (X : ndarray string) c d :
  vals !! c = Some d → dict_ok d →
  encode_block vals X c = Ok (NdArray (size d) (onehot_row d <$> column c X)).
Proof. intros Hc Hd. unfold encode_block. rewrite Hc. by apply mark_loop. Qed.

Lemma zip_with_onehot_length vals (r : list string) :
  length r ≤ length vals →
  length (encode_row vals r) = offset vals (length r).
Proof.
  unfold encode_row, offset. revert vals.
  induction r as [|x r IH]; intros vals Hlen.
  - by rewrite zip_with_nil_r.
  - destruct vals as [|d vals]; simpl in Hlen; [lia|]. simpl.
    rewrite length_app, length_onehot_row, IH by lia. done.
Qed.

Lemma encode_row_snoc vals (r : list string) c d x :
  vals !! c = Some d → r !! c = Some x →
  encode_row (take (S c) vals) r = encode_row (take c vals) r ++ onehot_row d x.
Proof.
  intros Hd Hx. unfold encode_row.
  rewrite (take_S_r _ _ _ Hd).
  rewrite <-(take_drop_middle r c x Hx) at 1.
  assert (length (take c vals) = length (take c r)) as Hlen.
  { apply lookup_lt_Some in Hd, Hx. rewrite !length_take. lia. }
  rewrite zip_with_app by done. simpl.
  rewrite concat_app. simpl. rewrite app_nil_r. f_equal. f_equal.
  apply zip_with_take_r'. rewrite length_take. lia.
Qed.

Lemma offset_S vals c d : vals !! c = Some d → offset vals (S c) = offset vals c + size d.
Proof.
  intros Hd. unfold offset. rewrite (take_S_r _ _ _ Hd), sum_list_with_app.
  simpl. lia.
Qed.

Lemma hstack_step vals (X : ndarray string) c d :
  wf X → c < shape1 X → vals !! c = Some d →
  hstack2 (stacked vals X c) (block_of vals X c) = Ok (stacked vals X (S c)).
Proof.
  intros Hwf Hc Hd. unfold hstack2, stacked, block_of, shape0. rewrite Hd.
  change (default ∅ (Some d)) with d.
  cbn [rows shape1]. rewrite !length_fmap.
  pose proof (length_column X c Hwf Hc) as Hlen. unfold shape0 in Hlen.
  rewrite decide_True by done. rewrite (offset_S _ _ _ Hd). do 2 f_equal.
  unfold column. clear Hlen. unfold wf in Hwf.
  induction Hwf as [|r l Hr _ IH]; [done|]. csimpl.
  destruct (lookup_lt_is_Some_2 r c) as [x Hx]; [lia|]. rewrite Hx. csimpl.
  rewrite IH. f_equal. symmetry. by apply encode_row_snoc.
Qed.

Lemma hstack_from vals (X : ndarray string) c k :
  wf X → c + k ≤ shape1 X → c + k ≤ length vals →
  foldR hstack2 (stacked vals X c) (block_of vals X <$> seq c k)
  = Ok (stacked vals X (c + k)).
Proof.
  intros Hwf. revert c. induction k as [|k IH]; intros c Hk Hv; csimpl.
  - by rewrite Nat.add_0_r.
  - destruct (lookup_lt_is_Some_2 vals c) as [d Hd]; [lia|].
    rewrite (hstack_step vals X c d) by (done || lia). cbn [result_bind].
    rewrite IH by lia. f_equal. f_equal. lia.
Qed.

Lemma hstack_stacked_0 vals (X : ndarray string) (B : ndarray Z) :
  shape0 B = shape0 X → hstack2 (stacked vals X 0) B = Ok B.
Proof.
  intros Hlen. unfold hstack2, stacked, shape0 in *. cbn [rows shape1].
  rewrite length_fmap, decide_True by done.
  destruct B as [m rs]. cbn [rows shape1] in *. f_equal. f_equal.
  revert rs Hlen. induction (rows X) as [|r l IH]; intros [|b rs] Hlen;
    simplify_eq/=; [done|]. by rewrite IH.
Qed.

Lemma mapR_encode_block vals (X : ndarray string) (l : list nat) :
  Forall dict_ok vals → Forall (λ c, c < length vals) l →
  mapR (encode_block vals X) l = Ok (block_of vals X <$> l).
Proof.
  intros Hok Hl. rewrite <-mapR_total. apply mapR_ext_Forall.
  eapply Forall_impl; [exact Hl|]. intros c Hc. simpl in Hc.
  destruct (lookup_lt_is_Some_2 vals c Hc) as [d Hd].
  unfold block_of. rewrite Hd. change (default ∅ (Some d)) with d.
  apply encode_block_Ok; [done|].
  by eapply (Forall_lookup_1 _ _ _ _ Hok).
Qed.

(** What [transform] returns on an array with at least one and at most
    the fitted number of columns: row by row, the blocks of the values
    of the row. *)
Lemma encode_Ok vals (X : ndarray string) :
  wf X → 0 < shape1 X → shape1 X ≤ length vals → Forall dict_ok vals →
  encode vals X
  = Ok (NdArray (offset vals (shape1 X)) (encode_row vals <$> rows X)).
Proof.
  intros Hwf Hpos Hlen Hok. unfold encode.
  rewrite mapR_encode_block; [|done|].
  2:{ apply Forall_forall. intros c [_ ?]%elem_of_seq. lia. }
  cbn [result_bind]. destruct (shape1 X) as [|n] eqn:Hn; [lia|].
  cbn [seq fmap list_fmap np_concatenate1].
  change (list_fmap nat (ndarray Z) (block_of vals X) (seq 1 n))
    with (block_of vals X <$> seq 1 n).
  destruct (lookup_lt_is_Some_2 vals 0) as [d Hd]; [lia|].
  assert (block_of vals X 0 = stacked vals X 1) as ->.
  { pose proof (hstack_step vals X 0 d Hwf ltac:(lia) Hd) as Hs.
    rewrite hstack_stacked_0 in Hs; [congruence|].
    unfold block_of, shape0. cbn [rows]. rewrite length_fmap.
    apply length_column; [done|lia]. }
  rewrite hstack_from by (done || lia). unfold stacked.
  change (1 + n) with (S n).
  do 2 f_equal. apply Forall_fmap_ext_1. unfold wf in Hwf.
  eapply Forall_impl; [exact Hwf|]. intros r Hr. simpl in *.
  unfold encode_row. f_equal. apply zip_with_take_l'. lia.
Qed.

(** *** When [transform] raises *)

Lemma encode_no_columns vals (X : ndarray string) :
  shape1 X = 0 → encode vals X = Raise ValueError.
Proof. intros H. unfold encode. by rewrite H. Qed.

Lemma encode_Ok_inv vals (X : ndarray string) M :
  encode vals X = Ok M → 0 < shape1 X ≤ length vals.
Proof.
  intros HM. split.
  - destruct (decide (shape1 X = 0)) as [H0|]; [|lia].
    by rewrite encode_no_columns in HM.
  - destruct (decide (shape1 X ≤ length vals)) as [|Hgt]; [done|].
    unfold encode in HM.
    destruct (mapR _ _) as [Ms|] eqn:HMs; [|done].
    apply mapR_Ok in HMs.
    destruct (Forall2_lookup_l _ _ _ (length vals) (length vals) HMs)
      as (B & _ & HB).
    { apply lookup_seq. lia. }
    unfold encode_block in HB. by rewrite lookup_ge_None_2 in HB.
Qed.

(** *** Blocks of an output row *)

Lemma block_encode_row vals (r : list string) c d x :
  vals !! c = Some d → r !! c = Some x →
  block vals c (encode_row vals r) = onehot_row d x.
Proof.
  intros Hd Hx. unfold block, encode_row. rewrite Hd.
  change (default ∅ (Some d)) with d.
  rewrite <-(take_drop_middle vals c d Hd) at 2.
  rewrite <-(take_drop_middle r c x Hx).
  assert (length (take c vals) = length (take c r)) as Hlen.
  { apply lookup_lt_Some in Hd, Hx. rewrite !length_take. lia. }
  rewrite zip_with_app by done. rewrite concat_app. csimpl.
  rewrite drop_app_length'.
  - by rewrite take_app_length' by (by rewrite length_onehot_row).
  - pose proof (zip_with_onehot_length (take c vals) (take c r)) as Hz.
    unfold encode_row, offset in *. rewrite Hz by lia.
    rewrite <-Hlen. by rewrite (take_ge (take c vals)) by lia.
Qed.

Lemma onehot_lookup n k j :
  k < n → j < n → onehot n k !! j = Some (if decide (j = k) then 1%Z else 0%Z).
Proof.
  intros Hk Hj. unfold onehot. case_decide as Hjk.
  - subst. apply list_lookup_insert_eq. by rewrite length_replicate.
  - rewrite list_lookup_insert_ne by done. by apply lookup_replicate_2.
Qed.

Lemma onehot_row_binary d x : Forall (λ z, z = 0%Z ∨ z = 1%Z) (onehot_row d x).
Proof.
  unfold onehot_row, onehot.
  assert (Forall (λ z, z = 0%Z ∨ z = 1%Z) (replicate (size d) 0%Z)) as Hz.
  { apply Forall_replicate. by left. }
  destruct (d !! x) as [k|]; [|done].
  apply Forall_insert; [done|by right].
Qed.

Lemma insert_one_count (l : list Z) k :
  Forall (λ z, z = 0%Z) l → length (filter (λ z, z = 1%Z) (<[k:=1%Z]> l)) ≤ 1.
Proof.
  intros Hl. revert k. induction Hl as [|z l -> Hl IH]; intros k.
  { destruct k; simpl; lia. }
  destruct k as [|k].
  - change (<[0:=1%Z]> (0%Z :: l)) with (1%Z :: l).
    rewrite filter_cons_True by done. rewrite filter_none; [done|].
    eapply Forall_impl; [exact Hl|]. intros z ->. done.
  - change (<[S k:=1%Z]> (0%Z :: l)) with (0%Z :: <[k:=1%Z]> l).
    rewrite filter_cons_False by done. apply IH.
Qed.

Lemma onehot_row_count d x : length (filter (λ z, z = 1%Z) (onehot_row d x)) ≤ 1.
Proof.
  unfold onehot_row, onehot. destruct (d !! x) as [k|].
  - apply insert_one_count. by apply Forall_replicate.
  - rewrite filter_none; [simpl; lia|]. apply Forall_replicate. done.
Qed.

Lemma encode_row_binary vals (r : list string) :
  Forall (λ z, z = 0%Z ∨ z = 1%Z) (encode_row vals r).
Proof.
  unfold encode_row. apply Forall_concat. revert r.
  induction vals as [|d vals IH]; intros [|x r]; simpl; try constructor.
  - apply onehot_row_binary.
  - apply IH.
Qed.

Lemma column_elem_of {A} (X : ndarray A) c v :
  wf X → v ∈ column c X → c < shape1 X.
Proof.
  unfold column. intros Hwf (r & Hr & Hv)%list_elem_of_omap.
  apply lookup_lt_Some in Hv. unfold wf in Hwf. rewrite Forall_forall in Hwf.
  by rewrite <-(Hwf r Hr).
Qed.

(** [transform] in closed form: on an array with at least one and at
    most the fitted number of columns, a fitted encoder returns, row by
    row, the blocks of the values of the row, and is left as it was. *)
Lemma transform_fitted (Xtrain X : ndarray string) (s0 s : SimpleOneHotEncoder.self) :
  wf X → SimpleOneHotEncoder.fit Xtrain s0 = (Ok tt, s) →
  0 < shape1 X → shape1 X ≤ shape1 Xtrain →
  s = SimpleOneHotEncoder.Self (Some (fit_values Xtrain)) ∧
  SimpleOneHotEncoder.transform X s
  = (Ok (NdArray (offset (fit_values Xtrain) (shape1 X))
           (encode_row (fit_values Xtrain) <$> rows X)), s).
Proof.
  intros Hwf Hfit Hpos Hle. rewrite SimpleOneHotEncoder_fit_eq in Hfit.
  injection Hfit as <-. split; [done|].
  rewrite SimpleOneHotEncoder_transform_eq, encode_Ok; try done.
  - unfold fit_values. by rewrite length_fmap, length_seq.
  - apply fit_values_dict_ok.
Qed.

(** *** What [transform] returns *)

(** C1. For an encoder fitted on [Xtrain] and every input array [X] on
    which [transform] returns, the output row of every input row holds,
    in the block of every column [c] whose value [v] in that row was
    seen in column [c] at fit time, the binary vector with a single 1,
    at the index [self.values[c]] assigns to [v]: the block has one
    entry per key of [self.values[c]], entry [k] is 1 and every other
    entry is 0. *)
Theorem C1_transform_one_hot_block (Xtrain X : ndarray string) (s0 s s' : SimpleOneHotEncoder.self) (M : ndarray Z) :
  wf Xtrain → wf X →
  SimpleOneHotEncoder.fit Xtrain s0 = (Ok tt, s) →
  SimpleOneHotEncoder.transform X s = (Ok M, s') →
  ∃ vals, SimpleOneHotEncoder.values s = Some vals ∧
    ∀ i c v, cell X i c = Some v → v ∈ column c Xtrain →
      ∃ d k row, vals !! c = Some d ∧ d !! v = Some k ∧ k < size d
                 ∧ rows M !! i = Some row
                 ∧ block vals c row = onehot (size d) k
                 ∧ length (block vals c row) = size d
                 ∧ ∀ j, j < size d →
                     block vals c row !! j
                       = Some (if decide (j = k) then 1%Z else 0%Z).
Proof.
  intros Hwt Hwf Hfit Htr. rewrite SimpleOneHotEncoder_fit_eq in Hfit.
  injection Hfit as <-. exists (fit_values Xtrain). split; [done|].
  rewrite SimpleOneHotEncoder_transform_eq in Htr. injection Htr as Htr _.
  pose proof (encode_Ok_inv _ _ _ Htr) as [Hpos Hle].
  rewrite encode_Ok in Htr by (done || apply fit_values_dict_ok).
  injection Htr as <-.
  intros i c v Hcell Hseen.
  pose proof (column_elem_of _ _ _ Hwt Hseen) as Hc.
  set (d := dict_of_pairs (enumerate (np_unique (column c Xtrain)))).
  assert (fit_values Xtrain !! c = Some d) as Hd by (by apply fit_values_lookup).
  assert (is_Some (d !! v)) as [k Hk].
  { apply dict_of_pairs_dom. by apply np_unique_spec. }
  unfold cell in Hcell. destruct (rows X !! i) as [r|] eqn:Hr; [|done].
  simpl in Hcell. exists d, k, (encode_row (fit_values Xtrain) r).
  assert (k < size d) as Hkd.
  { by eapply (Forall_lookup_1 _ _ _ _ (fit_values_dict_ok Xtrain)). }
  assert (block (fit_values Xtrain) c (encode_row (fit_values Xtrain) r)
          = onehot (size d) k) as Hblock.
  { rewrite (block_encode_row _ _ _ d v) by done. unfold onehot_row.
    by rewrite Hk. }
  split_and!; try done.
  - cbn [rows]. by rewrite list_lookup_fmap, Hr.
  - rewrite Hblock. unfold onehot. by rewrite length_insert, length_replicate.
  - intros j Hj. rewrite Hblock. by apply onehot_lookup.
Qed.

Lemma C1_witness :
  ∃ vals, SimpleOneHotEncoder.values fitted_example = Some vals ∧
    ∀ i c v, cell input_example i c = Some v → v ∈ column c train_example →
      ∃ d k row, vals !! c = Some d ∧ d !! v = Some k ∧ k < size d
                 ∧ rows output_example !! i = Some row
                 ∧ block vals c row = onehot (size d) k
                 ∧ length (block vals c row) = size d
                 ∧ ∀ j, j < size d →
                     block vals c row !! j
                       = Some (if decide (j = k) then 1%Z else 0%Z).
Proof.
  apply (C1_transform_one_hot_block train_example input_example
           SimpleOneHotEncoder.init fitted_example fitted_example output_example).
  - repeat constructor.
  - repeat constructor.
  - vm_compute. reflexivity.
  - vm_compute. reflexivity.
Defined.

(** C3, as stated, fails: an unseen value blanks the block of its own
    column only. Fitted on the row (a, x), the encoder turns the row
    (b, x) into (0, 1): b is unseen, no error is raised, and the row is
    not all zero. And a value in a column the encoder was not fitted
    on does raise: the row (a, x, q) has no mapping for its third
    column. *)
Lemma C3_counterexample :
  SimpleOneHotEncoder.fit small_train SimpleOneHotEncoder.init = (Ok tt, small_fitted)
  ∧ cell small_input 0 0 = Some "b" ∧ ("b" ∉ column 0 small_train)
  ∧ SimpleOneHotEncoder.transform small_input small_fitted
      = (Ok (NdArray 2 [[0; 1]]%Z), small_fitted)
  ∧ ¬ (∃ M row, SimpleOneHotEncoder.transform small_input small_fitted
                  = (Ok M, small_fitted)
            ∧ rows M !! 0 = Some row ∧ Forall (λ z, z = 0%Z) row)
  ∧ cell wide_input 0 2 = Some "q" ∧ ("q" ∉ column 2 small_train)
  ∧ SimpleOneHotEncoder.transform wide_input small_fitted
      = (Raise IndexError, small_fitted).
Proof.
  assert (SimpleOneHotEncoder.transform small_input small_fitted
          = (Ok (NdArray 2 [[0; 1]]%Z), small_fitted)) as Htr.
  { vm_compute. reflexivity. }
  split_and!.
  - vm_compute. reflexivity.
  - reflexivity.
  - compute_done.
  - exact Htr.
  - intros (M & row & HM & Hrow & Hz). rewrite Htr in HM.
    injection HM as <-. simpl in Hrow. injection Hrow as <-.
    apply Forall_cons in Hz as [_ Hz]. apply Forall_cons in Hz as [Hz _].
    discriminate.
  - reflexivity.
  - compute_done.
  - vm_compute. reflexivity.
Qed.

(** C3, amended. For an encoder fitted on [Xtrain] and an input array
    [X] with no more columns than [Xtrain], if a row of [X] holds in
    column [c] a value that was not seen in column [c] at fit time,
    then [transform] raises no error, and in the output row of that
    row the block of column [c] is all zero. *)
Theorem C3_unseen_value_zero_block (Xtrain X : ndarray string) (s0 s : SimpleOneHotEncoder.self) (i c : nat) (v : string) :
  wf X →
  SimpleOneHotEncoder.fit Xtrain s0 = (Ok tt, s) →
  shape1 X ≤ shape1 Xtrain →
  cell X i c = Some v → v ∉ column c Xtrain →
  ∃ vals d M row,
    SimpleOneHotEncoder.values s = Some vals ∧ vals !! c = Some d
    ∧ SimpleOneHotEncoder.transform X s = (Ok M, s)
    ∧ rows M !! i = Some row
    ∧ block vals c row = replicate (size d) 0%Z.
Proof.
  intros Hwf Hfit Hle Hcell Hunseen.
  pose proof (cell_Some _ _ _ _ Hwf Hcell) as [_ Hc].
  destruct (transform_fitted Xtrain X s0 s) as [-> Htr]; [done|done|lia|done|].
  set (d := dict_of_pairs (enumerate (np_unique (column c Xtrain)))).
  assert (fit_values Xtrain !! c = Some d) as Hd.
  { apply fit_values_lookup. split; [lia|done]. }
  assert (d !! v = None) as Hv.
  { apply eq_None_not_Some. intros Hin%dict_of_pairs_dom.
    by apply Hunseen, np_unique_spec. }
  unfold cell in Hcell. destruct (rows X !! i) as [r|] eqn:Hr; [|done].
  simpl in Hcell. eexists _, d, _, (encode_row (fit_values Xtrain) r).
  split_and!; [done|done|exact Htr|..].
  - cbn [rows]. by rewrite list_lookup_fmap, Hr.
  - rewrite (block_encode_row _ _ _ d v) by done. unfold onehot_row.
    by rewrite Hv.
Qed.

Lemma C3_witness :
  ∃ vals d M row,
    SimpleOneHotEncoder.values fitted_example = Some vals ∧ vals !! 0 = Some d
    ∧ SimpleOneHotEncoder.transform input_example fitted_example = (Ok M, fitted_example)
    ∧ rows M !! 1 = Some row
    ∧ block vals 0 row = replicate (size d) 0%Z.
Proof.
  apply (C3_unseen_value_zero_block train_example input_example
           SimpleOneHotEncoder.init fitted_example 1 0 "c").
  - repeat constructor.
  - vm_compute. reflexivity.
  - simpl. lia.
  - reflexivity.
  - compute_done.
Defined.

(** C8, as stated, fails for an encoder fitted on an array without
    columns: on an input with one row and, as fitted, no columns,
    [np.concatenate] is handed an empty list and raises, so there is no
    output with one row. *)
Lemma C8_counterexample :
  SimpleOneHotEncoder.fit no_columns SimpleOneHotEncoder.init
    = (Ok tt, no_columns_fitted)
  ∧ wf no_columns ∧ shape0 no_columns = 1 ∧ shape1 no_columns = 0
  ∧ SimpleOneHotEncoder.transform no_columns no_columns_fitted
      = (Raise ValueError, no_columns_fitted)
  ∧ ¬ (∃ M, SimpleOneHotEncoder.transform no_columns no_columns_fitted
              = (Ok M, no_columns_fitted)
          ∧ shape0 M = 1).
Proof.
  assert (SimpleOneHotEncoder.transform no_columns no_columns_fitted
          = (Raise ValueError, no_columns_fitted)) as Htr.
  { vm_compute. reflexivity. }
  split_and!; [vm_compute; reflexivity|repeat constructor|done|done|exact Htr|].
  intros (M & HM & _). rewrite Htr in HM. discriminate.
Qed.

(** C8, amended. For an encoder fitted on [Xtrain] and every input
    array [X] with n rows and the fitted number of columns, that number
    being at least one, [transform(X)] has exactly n rows and exactly
    as many columns as the mappings of [self.values] have keys in
    total; every entry is 0 or 1, and within each row the block of one
    input column contains at most one 1. *)
Theorem C8_transform_shape_and_entries (Xtrain X : ndarray string) (s0 s : SimpleOneHotEncoder.self) :
  wf X →
  SimpleOneHotEncoder.fit Xtrain s0 = (Ok tt, s) →
  shape1 X = shape1 Xtrain → 0 < shape1 X →
  ∃ vals M,
    SimpleOneHotEncoder.values s = Some vals
    ∧ SimpleOneHotEncoder.transform X s = (Ok M, s)
    ∧ wf M ∧ shape0 M = shape0 X ∧ shape1 M = sum_list_with size vals
    ∧ ∀ row, row ∈ rows M →
        Forall (λ z, z = 0%Z ∨ z = 1%Z) row
        ∧ ∀ c, c < shape1 X →
            length (filter (λ z, z = 1%Z) (block vals c row)) ≤ 1.
Proof.
  intros Hwf Hfit Hcols Hpos.
  destruct (transform_fitted Xtrain X s0 s) as [-> Htr]; [done|done|lia|lia|].
  assert (length (fit_values Xtrain) = shape1 X) as Hlen.
  { unfold fit_values. rewrite length_fmap, length_seq. done. }
  eexists _, _. split; [done|]. split; [exact Htr|]. split_and!.
  - unfold wf. cbn [rows shape1]. apply Forall_fmap.
    eapply Forall_impl; [exact Hwf|]. intros r Hr. simpl in *.
    rewrite zip_with_onehot_length by lia. by rewrite Hr.
  - unfold shape0. cbn [rows]. by rewrite length_fmap.
  - cbn [shape1]. unfold offset. by rewrite take_ge by lia.
  - cbn [rows]. intros row (r & -> & Hr)%list_elem_of_fmap. split.
    + apply encode_row_binary.
    + intros c Hc. unfold wf in Hwf. rewrite Forall_forall in Hwf.
      destruct (lookup_lt_is_Some_2 r c) as [x Hx]; [by rewrite (Hwf r Hr)|].
      destruct (lookup_lt_is_Some_2 (fit_values Xtrain) c) as [d Hd]; [lia|].
      rewrite (block_encode_row _ _ _ d x) by done. apply onehot_row_count.
Qed.

Lemma C8_witness :
  ∃ vals M,
    SimpleOneHotEncoder.values fitted_example = Some vals
    ∧ SimpleOneHotEncoder.transform input_example fitted_example = (Ok M, fitted_example)
    ∧ wf M ∧ shape0 M = shape0 input_example ∧ shape1 M = sum_list_with size vals
    ∧ ∀ row, row ∈ rows M →
        Forall (λ z, z = 0%Z ∨ z = 1%Z) row
        ∧ ∀ c, c < shape1 input_example →
            length (filter (λ z, z = 1%Z) (block vals c row)) ≤ 1.
Proof.
  apply (C8_transform_shape_and_entries train_example input_example
           SimpleOneHotEncoder.init fitted_example).
  - repeat constructor.
  - vm_compute. reflexivity.
  - reflexivity.
  - simpl. lia.
Defined.

Example transform_example :
  SimpleOneHotEncoder.transform input_example fitted_example
    = (Ok output_example, fitted_example).
Proof. vm_compute. reflexivity. Qed.

(** ** Calls of [transform] and the state of the transformers *)

Lemma after_calls_fixed {S I O} (method : I → Py S O) (inputs : list I) (s : S) :
  (∀ X s, (method X s).2 = s) → after_calls method inputs s = s.
Proof.
  intros Hm. unfold after_calls. revert s.
  induction inputs as [|X inputs IH]; intros s; simpl; [done|].
  by rewrite Hm, IH.
Qed.

(** C7. A call of [transform] on any of the three transformers, fitted
    or not, with any input and whether it returns or raises, leaves the
    attributes of the transformer as they were; hence so does any
    sequence of calls: [PositionalSelector.positions] and
    [SimpleOneHotEncoder.values] are the same before and after. For
    the selector the input is anything [np.array] is applied to, an
    array or not. *)
Theorem C7_transform_leaves_state_unchanged :
  (∀ I A (H : ArrayLike I A) (X : I) s,
     (PositionalSelector.transform (A := A) X s).2 = s)
  ∧ (∀ X s, (StripString.transform X s).2 = s)
  ∧ (∀ X s, (SimpleOneHotEncoder.transform X s).2 = s)
  ∧ (∀ I A (H : ArrayLike I A) (Xs : list I) s,
       PositionalSelector.positions
         (after_calls (PositionalSelector.transform (A := A)) Xs s)
         = PositionalSelector.positions s)
  ∧ (∀ Xs s, after_calls StripString.transform Xs s = s)
  ∧ (∀ Xs s,
       SimpleOneHotEncoder.values (after_calls SimpleOneHotEncoder.transform Xs s)
         = SimpleOneHotEncoder.values s).
Proof.
  split_and!.
  - intros I A H X s. apply PositionalSelector_transform_state.
  - done.
  - apply SimpleOneHotEncoder_transform_state.
  - intros I A H Xs s.
    rewrite after_calls_fixed; [done|].
    intros X s'. apply PositionalSelector_transform_state.
  - intros Xs s. by rewrite after_calls_fixed.
  - intros Xs s.
    by rewrite after_calls_fixed by apply SimpleOneHotEncoder_transform_state.
Qed.

(** [fit], in contrast, does write [self.values]. *)
Example fit_changes_state :
  (SimpleOneHotEncoder.fit train_example SimpleOneHotEncoder.init).2
    ≠ SimpleOneHotEncoder.init.
Proof. rewrite SimpleOneHotEncoder_fit_eq. discriminate. Qed.

(** ** Labels *)

Lemma income_level_position : label_position COLUMNS "income-level" = Ok 14.
Proof. reflexivity. Qed.

Lemma py_eq_PStr v s : py_eq v (PStr s) = true ↔ v = PStr s.
Proof.
  destruct v as [t| |]; simpl; [|done..].
  rewrite bool_decide_eq_true. split; congruence.
Qed.

(** C10. The label of a row of the training table is True exactly when
    its income-level field is the string [ >50K], leading space
    included. The label column is not trimmed: a field that differs
    from it by whitespace or a trailing period, such as [>50K] or
    [ >50K.], gives the label False. *)
Theorem C10_train_labels_exact_match (records : ndarray pyval) :
  wf records → shape1 records = length COLUMNS →
  ∃ labels,
    train_labels records = Ok labels
    ∧ length labels = shape0 records
    ∧ ∀ i row, rows records !! i = Some row →
        ∃ j field b,
          COLUMNS !! j = Some "income-level" ∧ row !! j = Some field
          ∧ labels !! i = Some b
          ∧ (b = true ↔ field = PStr " >50K")
          ∧ (field = PStr ">50K" ∨ field = PStr " >50K." → b = false).
Proof.
  intros Hwf Hcols. unfold train_labels, df_getitem, raw_training_data, read_csv.
  cbn [df_columns df_values]. rewrite income_level_position. cbn [result_bind].
  eexists. split; [done|].
  assert (14 < shape1 records) as H14 by (rewrite Hcols; simpl; lia).
  split.
  - by rewrite length_fmap, length_column.
  - intros i row Hrow.
    destruct (lookup_lt_is_Some_2 row 14) as [field Hf].
    { by rewrite (wf_lookup records i row). }
    exists 14, field, (py_eq field (PStr " >50K")). split_and!.
    + done.
    + done.
    + rewrite list_lookup_fmap, column_lookup by done.
      unfold cell. rewrite Hrow. simpl. by rewrite Hf.
    + apply py_eq_PStr.
    + by intros [-> | ->].
Qed.

Lemma C10_witness :
  ∃ labels,
    train_labels census_example = Ok labels
    ∧ length labels = shape0 census_example
    ∧ ∀ i row, rows census_example !! i = Some row →
        ∃ j field b,
          COLUMNS !! j = Some "income-level" ∧ row !! j = Some field
          ∧ labels !! i = Some b
          ∧ (b = true ↔ field = PStr " >50K")
          ∧ (field = PStr ">50K" ∨ field = PStr " >50K." → b = false).
Proof.
  apply (C10_train_labels_exact_match census_example).
  - repeat constructor.
  - reflexivity.
Defined.

Example train_labels_example :
  train_labels census_example = Ok [false; true; false; false].
Proof. reflexivity. Qed.
(** ** The steps of the pipeline on arrays *)

Lemma take_columns_shape {A} (X M : ndarray A) (ps : list Z) :
  wf X → take_columns X ps = Ok M →
  wf M ∧ shape0 M = shape0 X ∧ shape1 M = length ps.
Proof.
  intros Hwf HM. pose proof (take_columns_Ok_inv _ _ _ HM) as Hps.
  rewrite take_columns_Ok in HM by done. injection HM as <-.
  unfold shape0. cbn [rows shape1]. rewrite length_fmap. split_and!; [|done..].
  unfold wf. cbn [rows shape1]. apply Forall_fmap.
  eapply Forall_impl; [exact Hwf|]. intros r Hr. simpl in *.
  rewrite length_gather, length_fmap; [done|].
  apply Forall_fmap. eapply Forall_impl; [exact Hps|]. intros p Hp. simpl.
  rewrite Hr. by apply axis_index_Ok.
Qed.

(** Selecting by positions counted from the first column. *)
Lemma take_columns_at_Ok {B} (A : ndarray B) (ps : list Z) :
  Forall (λ p, (0 ≤ p < Z.of_nat (shape1 A))%Z) ps →
  take_columns A ps = Ok (columns_at (Z.to_nat <$> ps) A).
Proof.
  intros Hps. rewrite take_columns_Ok.
  2:{ eapply Forall_impl; [exact Hps|]. intros p Hp. simpl in *. lia. }
  assert ((λ p, Z.to_nat (p mod Z.of_nat (shape1 A))) <$> ps = Z.to_nat <$> ps) as ->.
  { apply Forall_fmap_ext_1. eapply Forall_impl; [exact Hps|].
    intros p Hp. simpl in *. by rewrite Z.mod_small. }
  unfold columns_at. by rewrite length_fmap.
Qed.

Lemma take_columns_at {B} (A C : ndarray B) (ps : list Z) :
  Forall (λ p, (0 ≤ p)%Z) ps → take_columns A ps = Ok C →
  C = columns_at (Z.to_nat <$> ps) A
  ∧ Forall (λ p, p < shape1 A) (Z.to_nat <$> ps).
Proof.
  intros Hnn HC. pose proof (take_columns_Ok_inv _ _ _ HC) as Hps.
  assert (Forall (λ p, (0 ≤ p < Z.of_nat (shape1 A))%Z) ps) as Hin.
  { apply Forall_and. split; [done|].
    eapply Forall_impl; [exact Hps|]. intros p Hp. simpl in *. lia. }
  rewrite take_columns_at_Ok in HC by done. injection HC as <-.
  split; [done|]. apply Forall_fmap. eapply Forall_impl; [exact Hin|].
  intros p Hp. simpl in *. lia.
Qed.

(** What the trimming step returns, when it returns. *)
Lemma str_strip_Ok_inv (v : pyval) (t : string) :
  str_strip v = Ok t → ∃ s, v = PStr s ∧ t = strip s.
Proof. destruct v as [s| |]; [|done..]. intros [= <-]. by exists s. Qed.

Lemma np_vectorize_str_strip_inv (C : ndarray pyval) (S : ndarray string) :
  np_vectorize str_strip C = Ok S →
  0 < shape0 C ∧ 0 < shape1 C ∧ shape1 S = shape1 C
  ∧ Forall2 (Forall2 (λ v u, ∃ s, v = PStr s ∧ u = kept s)) (rows C) (rows S).
Proof.
  unfold np_vectorize. case_decide as Hsize; [done|].
  destruct (mapR (mapR str_strip) (rows C)) as [rs|] eqn:Hrs; [|done].
  cbn [result_bind]. intros [= <-]. split; [lia|]. split; [lia|].
  split; [done|]. unfold amap. cbn [rows shape1].
  apply mapR_Ok in Hrs. apply Forall2_fmap_r.
  eapply Forall2_impl; [exact Hrs|]. intros r ts Hr. simpl in *.
  apply mapR_Ok in Hr. apply Forall2_fmap_r.
  eapply Forall2_impl; [exact Hr|]. intros v t (s & -> & ->)%str_strip_Ok_inv.
  by exists s.
Qed.

Lemma np_vectorize_shape {A} (f : A → result string) (X : ndarray A) (M : ndarray string) :
  wf X → np_vectorize f X = Ok M →
  wf M ∧ shape0 M = shape0 X ∧ shape1 M = shape1 X.
Proof.
  intros Hwf. unfold np_vectorize. case_decide; [done|].
  destruct (mapR (mapR f) (rows X)) as [rs|] eqn:Hrs; [|done].
  cbn [result_bind]. intros [= <-]. apply mapR_Ok in Hrs.
  unfold wf, shape0, amap in *. cbn [rows shape1]. rewrite length_fmap.
  split_and!; [|symmetry; by eapply Forall2_length|reflexivity].
  apply Forall_fmap. clear H.
  induction Hrs as [|r r' rs rs' Hr _ IH]; [done|].
  apply Forall_cons in Hwf as [Hlen Hwf]. constructor; [|by apply IH].
  simpl. rewrite length_fmap.
  apply mapR_Ok, Forall2_length in Hr. congruence.
Qed.

Lemma amap_text_of (C : ndarray pyval) :
  Forall (Forall (λ v, ∃ s, v = PStr s)) (rows C) →
  amap PStr (amap text_of C) = C.
Proof.
  intros Htext. destruct C as [m rs]. unfold amap. cbn [rows shape1] in *.
  f_equal. rewrite <-list_fmap_compose. rewrite <-(list_fmap_id rs) at 2.
  apply Forall_fmap_ext_1. eapply Forall_impl; [exact Htext|].
  intros r Hr. simpl in *. rewrite <-list_fmap_compose.
  rewrite <-(list_fmap_id r) at 2. apply Forall_fmap_ext_1.
  eapply Forall_impl; [exact Hr|]. by intros v [s ->].
Qed.

(** ** From the steps to the features *)

Lemma text_at_row (r : list pyval) (ps : list nat) (us : list string) :
  Forall (λ p, p < length r) ps →
  Forall2 (λ v u, ∃ s, v = PStr s ∧ u = kept s) (omap (λ p : nat, r !! p) ps) us →
  Forall2 (text_at kept_of r) ps us.
Proof.
  intros Hps. revert us. induction Hps as [|p ps Hp _ IH]; intros us; csimpl.
  - by intros ->%Forall2_nil_inv_l.
  - destruct (lookup_lt_is_Some_2 r p Hp) as [v Hv]. rewrite Hv. csimpl.
    intros (u & us' & (s & -> & ->) & Hus & ->)%Forall2_cons_inv_l.
    constructor; [|by apply IH].
    exists s. split; [done|]. by apply kept_of_iff.
Qed.

Lemma text_columns_of_rows (ps : list nat) (A : ndarray pyval) (S : ndarray string) :
  Forall2 (λ r us, Forall2 (text_at kept_of r) ps us) (rows A) (rows S) →
  text_columns kept_of ps A ((λ c, column c S) <$> seq 0 (length ps)).
Proof.
  intros Hrows. unfold text_columns. apply Forall2_fmap_r.
  apply Forall2_same_length_lookup_2.
  { by rewrite length_seq. }
  intros j p c Hp [-> _]%lookup_seq. simpl.
  unfold column. induction Hrows as [|r us rs uss Hr _ IH]; csimpl; [done|].
  destruct (Forall2_lookup_l _ _ _ _ _ Hr Hp) as (u & Hu & Hat).
  rewrite Hu. csimpl. by constructor.
Qed.

(** The block [fit] and [transform] make of a value is its one-hot
    encoding among the values of the training column. *)
Lemma onehot_row_fit (col : list string) (x : string) :
  onehot_row (dict_of_pairs (enumerate (np_unique col))) x = one_hot_encoding col x.
Proof.
  unfold onehot_row, one_hot_encoding.
  pose proof (np_unique_spec col) as [Hsorted Hel].
  rewrite dict_of_pairs_size by apply np_unique_NoDup.
  rewrite (Permutation_length (np_unique_distinct col)).
  destruct (dict_of_pairs (enumerate (np_unique col)) !! x) as [k|] eqn:Hk.
  - rewrite decide_True.
    2:{ apply Hel, dict_of_pairs_dom. by eexists. }
    f_equal. apply dict_of_pairs_lookup in Hk; [|apply np_unique_NoDup].
    unfold count_below. rewrite <-np_unique_distinct.
    symmetry. by apply sorted_position.
  - rewrite decide_False; [done|].
    intros Hin%Hel%dict_of_pairs_dom. rewrite Hk in Hin. by destruct Hin.
Qed.

Lemma fit_values_columns (S : ndarray string) :
  fit_values S
  = (λ col, dict_of_pairs (enumerate (np_unique col)))
      <$> ((λ c, column c S) <$> seq 0 (shape1 S)).
Proof. unfold fit_values. by rewrite <-list_fmap_compose. Qed.

Lemma encode_row_fit (S : ndarray string) (us : list string) :
  encode_row (fit_values S) us
  = concat (zip_with one_hot_encoding ((λ c, column c S) <$> seq 0 (shape1 S)) us).
Proof.
  unfold encode_row. rewrite fit_values_columns. f_equal.
  generalize ((λ c, column c S) <$> seq 0 (shape1 S)). intros T. revert us.
  induction T as [|col T IH]; intros [|u us]; csimpl; [done..|].
  by rewrite onehot_row_fit, IH.
Qed.

Lemma offset_fit (S : ndarray string) :
  offset (fit_values S) (shape1 S)
  = sum_list_with (λ col, length (distinct col))
      ((λ c, column c S) <$> seq 0 (shape1 S)).
Proof.
  unfold offset. rewrite take_ge.
  2:{ unfold fit_values. by rewrite length_fmap, length_seq. }
  rewrite fit_values_columns.
  generalize ((λ c, column c S) <$> seq 0 (shape1 S)). intros T.
  induction T as [|col T IH]; csimpl; [done|]. rewrite IH. f_equal.
  rewrite dict_of_pairs_size by apply np_unique_NoDup.
  apply Permutation_length, np_unique_distinct.
Qed.

Lemma encode_shape0 (S0 X : ndarray string) (OH : ndarray Z) :
  wf X → encode (fit_values S0) X = Ok OH → shape0 OH = shape0 X.
Proof.
  intros Hwf HOH. pose proof (encode_Ok_inv _ _ _ HOH) as [Hpos Hle].
  rewrite encode_Ok in HOH by (done || apply fit_values_dict_ok).
  injection HOH as <-. unfold shape0. cbn [rows]. by rewrite length_fmap.
Qed.

Lemma rows_text (ps : list nat) (A : ndarray pyval) (S : ndarray string) :
  wf A → Forall (λ p, p < shape1 A) ps →
  np_vectorize str_strip (columns_at ps A) = Ok S →
  Forall2 (λ r us, Forall2 (text_at kept_of r) ps us) (rows A) (rows S).
Proof.
  intros Hwf Hps (_ & _ & _ & Hrows)%np_vectorize_str_strip_inv.
  unfold columns_at in Hrows. cbn [rows] in Hrows.
  rewrite Forall2_fmap_l in Hrows. unfold wf in Hwf.
  revert Hrows Hwf. generalize (rows S), (rows A). intros uss rs Hrows.
  induction Hrows as [|r us rs uss Hr _ IH]; intros Hwf; [done|].
  apply Forall_cons in Hwf as [Hlen Hwf]. constructor; [|by apply IH].
  apply text_at_row; [|done]. by rewrite Hlen.
Qed.

Lemma StripString_transform_Ok_inv (C : ndarray pyval) (S : ndarray string) s s' :
  StripString.transform C s = (Ok S, s') → np_vectorize str_strip C = Ok S.
Proof. rewrite StripString_transform_eq. by intros [= -> _]. Qed.

Section Features_of_steps.

Variable float64 : Type.
Variable float_of_int8 : Z → float64.
Variable scaler_stats : Type.
Variable scaler_fit : ndarray pyval → result scaler_stats.
Variable scaler_transform : scaler_stats → ndarray pyval → result (ndarray float64).

(** What the steps of a pipeline fitted on [Atrain] make of [A] is the
    feature matrix of [A]. *)
Lemma features_of_steps (Atrain A : ndarray pyval) (Str : ndarray string) st (M : ndarray float64) :
  wf Atrain → wf A →
  Forall (λ p, p < shape1 Atrain) [1; 3; 5; 7] →
  np_vectorize str_strip (columns_at [1; 3; 5; 7] Atrain) = Ok Str →
  concatenation float64 float_of_int8 scaler_stats scaler_transform
    (fit_values Str) st A M →
  feature_matrix float64 float_of_int8 scaler_stats scaler_transform
    kept_of Atrain st A M.
Proof.
  intros Hwt Hwf Hpt HStr (C & S & OH & N & SC & HC & HS & HOH & HN & HSC & Hrows & ->).
  (* the training text *)
  pose proof (rows_text _ _ _ Hwt Hpt HStr) as Htrain.
  apply np_vectorize_str_strip_inv in HStr as (_ & _ & HStr1 & _).
  cbn [columns_at shape1 length] in HStr1.
  (* the steps on [A] *)
  rewrite PositionalSelector_transform_eq in HC, HN.
  cbn [PositionalSelector.positions PositionalSelector.init] in HC, HN.
  injection HC as HC. injection HN as HN.
  destruct (take_columns_shape _ _ _ Hwf HC) as (HwC & HC0 & HC1).
  apply take_columns_at in HC as [-> Hps]; [|repeat constructor; lia].
  apply take_columns_at in HN as [-> _]; [|repeat constructor; lia].
  apply StripString_transform_Ok_inv in HS.
  destruct (np_vectorize_shape _ _ _ HwC HS) as (HwS & HS0 & HS1).
  pose proof (rows_text _ _ _ Hwf Hps HS) as Htext.
  rewrite SimpleOneHotEncoder_transform_eq in HOH. injection HOH as HOH.
  pose proof (encode_shape0 _ _ _ HwS HOH) as HOH0.
  pose proof (encode_Ok_inv _ _ _ HOH) as [Hpos Hle].
  rewrite encode_Ok in HOH by (done || apply fit_values_dict_ok).
  injection HOH as <-.
  change (Z.to_nat <$> [0; 12]%Z) with [0; 12] in *.
  change (Z.to_nat <$> [1; 3; 5; 7]%Z) with [1; 3; 5; 7] in *.
  cbn [columns_at shape1 length] in HS1.
  assert (shape1 S = shape1 Str) as HSS by congruence.
  exists ((λ c, column c Str) <$> seq 0 (shape1 Str)), SC.
  split_and!.
  - rewrite HStr1. by apply (text_columns_of_rows [1; 3; 5; 7]).
  - exact HSC.
  - congruence.
  - unfold shape0 in *. cbn [rows]. rewrite length_zip_with.
    destruct (amap_shape float_of_int8
                (NdArray (offset (fit_values Str) (shape1 S))
                   (encode_row (fit_values Str) <$> rows S))) as [E _].
    unfold shape0 in E. rewrite E. lia.
  - cbn [shape1]. by rewrite HSS, offset_fit.
  - intros i r Hr.
    destruct (Forall2_lookup_l _ _ _ _ _ Htext Hr) as (us & Hus & Hat).
    destruct (lookup_lt_is_Some_2 (rows SC) i) as [sc Hsc].
    { apply lookup_lt_Some in Hus. unfold shape0 in *. cbn [rows] in *.
      rewrite length_fmap in Hrows. lia. }
    exists us, sc. split; [done|]. split; [done|]. cbn [rows amap].
    apply lookup_zip_with_Some. eexists _, sc. split; [done|]. split; [|done].
    rewrite !list_lookup_fmap, Hus. simpl. by rewrite encode_row_fit.
Qed.

End Features_of_steps.

(** ** When the steps return *)

Lemma columns_at_text (ps : list nat) (A : ndarray pyval) :
  Forall (λ r, Forall (λ p, ∃ s, r !! p = Some (PStr s)) ps) (rows A) →
  wf (columns_at ps A)
  ∧ Forall (Forall (λ v, ∃ s, v = PStr s)) (rows (columns_at ps A)).
Proof.
  intros Htext. unfold wf, columns_at. cbn [rows shape1].
  rewrite !Forall_fmap. split.
  - eapply Forall_impl; [exact Htext|]. clear Htext. intros r Hr. simpl in *.
    induction Hr as [|p ps (s & Hs) _ IH]; csimpl; [done|].
    rewrite Hs. csimpl. by rewrite IH.
  - eapply Forall_impl; [exact Htext|]. clear Htext. intros r Hr. simpl in *.
    induction Hr as [|p ps (s & Hs) _ IH]; csimpl; [done|].
    rewrite Hs. csimpl. constructor; [by exists s|done].
Qed.

(** On rows the pipeline has features for, the categorical steps
    return the stored text of columns 1, 3, 5, 7, four columns wide. *)
Lemma categorical_steps (A : ndarray pyval) :
  wf A → census_rows A →
  ∃ S, take_columns A [1; 3; 5; 7]%Z = Ok (columns_at [1; 3; 5; 7] A)
     ∧ StripString.transform (columns_at [1; 3; 5; 7] A) StripString.init
         = (Ok S, StripString.init)
     ∧ wf S ∧ shape0 S = shape0 A ∧ shape1 S = 4.
Proof.
  intros Hwf (Hrows & Hcols & Htext).
  destruct (columns_at_text _ _ Htext) as [HwC HtC].
  set (C := columns_at [1; 3; 5; 7] A) in *.
  assert (shape0 C = shape0 A) as HC0.
  { unfold C, columns_at, shape0. cbn [rows]. by rewrite length_fmap. }
  exists (amap kept (amap text_of C)). split.
  { rewrite take_columns_at_Ok; [done|]. repeat constructor; lia. }
  destruct (amap_shape text_of C) as [E0 E1].
  destruct (amap_shape kept (amap text_of C)) as [F0 F1].
  split.
  { rewrite <-(amap_text_of C) at 1 by done.
    apply StripString_transform_Ok; [lia|]. rewrite E1. simpl. lia. }
  split_and!.
  - unfold wf, amap in *. cbn [rows shape1] in *.
    rewrite !Forall_fmap. eapply Forall_impl; [exact HwC|].
    intros r Hr. simpl in *. by rewrite !length_fmap.
  - lia.
  - by rewrite F1, E1.
Qed.

(** With trimming alone as the cleaning, the text of the columns is
    the trimmed text of the cells. *)
Lemma text_columns_trimmed (ps : list nat) (A : ndarray pyval) (T : list (list string)) :
  text_columns trimmed_of ps A T →
  T = (λ p, (λ r : list pyval, strip (text_of (default PNaN (r !! p)))) <$> rows A) <$> ps.
Proof.
  unfold text_columns. induction 1 as [|p col ps T Hcol _ IH]; [done|].
  csimpl. f_equal; [|exact IH]. clear IH.
  induction Hcol as [|r t rs col (s & Hs & Ht) _ IH]; [done|].
  csimpl. f_equal; [|exact IH]. rewrite Hs. simpl. by apply trimmed_of_strip.
Qed.

(** ** The feature pipeline *)

Lemma categorical_columns :
  (λ p, COLUMNS !! Z.to_nat p) <$> categorical_indices
    = [Some "workclass"; Some "education"; Some "marital-status"; Some "relationship"].
Proof. reflexivity. Qed.

Lemma numerical_columns :
  (λ p, COLUMNS !! Z.to_nat p) <$> numerical_indices
    = [Some "age"; Some "hours-per-week"].
Proof. reflexivity. Qed.

Section Pipeline_properties.

Variable checks_fitted : bool.
Variable float64 : Type.
Variable float_of_int8 : Z → float64.
Variable scaler_stats : Type.
Variable scaler_fit : ndarray pyval → result scaler_stats.
Variable scaler_transform : scaler_stats → ndarray pyval → result (ndarray float64).

Abbreviation the_pipeline :=
  (pipeline checks_fitted float64 float_of_int8 scaler_stats scaler_fit scaler_transform).
Abbreviation the_pipeline_init := (pipeline_init scaler_stats).

Abbreviation fitted_as := (fitted_pipeline scaler_stats).
Abbreviation learned_from := (fitted_on scaler_stats scaler_fit).
Abbreviation features_of :=
  (concatenation float64 float_of_int8 scaler_stats scaler_transform).

(** The steps of [pipeline.transform] on a fitted pipeline. *)
Lemma pipeline_transform_fitted {I} `{!ArrayLike I pyval} vals st (X : I) (A : ndarray pyval) M s :
  np_array X = Ok A →
  transform the_pipeline X (fitted_as vals st) = (Ok M, s) →
  checks_fitted = false ∧ s = fitted_as vals st ∧ features_of vals st A M.
Proof.
  intros HX. unfold fitted_pipeline, concatenation.
  cbn [transform pipeline FeatureUnion p1 p2 make_pipeline steps TransformerMixin
       is_fitted PositionalSelector_ StripString_ SimpleOneHotEncoder_ StandardScaler].
  unfold py_bind, on_fst, on_snd, py_lift, py_get. cbn [fst snd].
  destruct checks_fitted; cbn [andb negb]; [done|].
  rewrite !(PositionalSelector_transform_of X A) by done.
  rewrite !PositionalSelector_transform_eq.
  cbn [PositionalSelector.positions PositionalSelector.init].
  change categorical_indices with [1; 3; 5; 7]%Z.
  change numerical_indices with [0; 12]%Z.
  destruct (take_columns A [1; 3; 5; 7]%Z) as [C|] eqn:HC; [|done].
  cbn [fst snd].
  destruct (StripString.transform C StripString.init) as [[S|] []] eqn:HS; [|done].
  cbn [fst snd]. rewrite SimpleOneHotEncoder_transform_eq.
  destruct (encode vals S) as [OH|] eqn:HOH; [|done].
  cbn [fst snd]. rewrite (PositionalSelector_transform_of X A) by done.
  cbn [PositionalSelector.positions PositionalSelector.init].
  destruct (take_columns A [0; 12]%Z) as [N|] eqn:HN; [|done].
  cbn [fst snd].
  destruct (scaler_transform st N) as [SC|] eqn:HSC; [|done].
  unfold np_hstack, hstack2. destruct (amap_shape float_of_int8 OH) as [-> ->].
  case_decide as Hrows; [|intros Hno; discriminate Hno].
  intros [= <- <-]. split; [reflexivity|]. split; [reflexivity|].
  exists C, S, OH, N, SC. split_and!.
  - reflexivity.
  - exact HS.
  - by rewrite SimpleOneHotEncoder_transform_eq, HOH.
  - reflexivity.
  - exact HSC.
  - exact Hrows.
  - reflexivity.
Qed.

(** The steps of [pipeline.fit_transform] on the pipeline as
    constructed. *)
Lemma pipeline_fit_transform {I} `{!ArrayLike I pyval} (X : I) (A : ndarray pyval) M s :
  np_array X = Ok A →
  fit_transform the_pipeline X the_pipeline_init = (Ok M, s) →
  ∃ vals st, s = fitted_as vals st ∧ learned_from A vals st
             ∧ features_of vals st A M.
Proof.
  intros HX. unfold pipeline_init, fitted_pipeline, fitted_on, concatenation.
  cbn [fit_transform pipeline FeatureUnion p1 p2 make_pipeline steps TransformerMixin
       PositionalSelector_ StripString_ SimpleOneHotEncoder_ StandardScaler].
  unfold py_bind, on_fst, on_snd, py_lift, py_get, py_put,
    PositionalSelector.fit, StripString.fit, py_ret.
  cbn [fst snd].
  rewrite !(PositionalSelector_transform_of X A) by done.
  rewrite !PositionalSelector_transform_eq.
  cbn [PositionalSelector.positions PositionalSelector.init].
  change categorical_indices with [1; 3; 5; 7]%Z.
  change numerical_indices with [0; 12]%Z.
  destruct (take_columns A [1; 3; 5; 7]%Z) as [C|] eqn:HC; [|done].
  cbn [fst snd].
  destruct (StripString.transform C StripString.init) as [[S|] []] eqn:HS; [|done].
  cbn [fst snd]. rewrite SimpleOneHotEncoder_fit_eq. cbn [fst snd].
  rewrite SimpleOneHotEncoder_transform_eq.
  destruct (encode (fit_values S) S) as [OH|] eqn:HOH; [|done].
  cbn [fst snd]. rewrite (PositionalSelector_transform_of X A) by done.
  cbn [PositionalSelector.positions PositionalSelector.init].
  destruct (take_columns A [0; 12]%Z) as [N|] eqn:HN; [|done].
  cbn [fst snd].
  destruct (scaler_fit N) as [st|] eqn:Hst; [|done]. cbn [fst snd].
  destruct (scaler_transform st N) as [SC|] eqn:HSC; [|done].
  unfold np_hstack, hstack2. destruct (amap_shape float_of_int8 OH) as [-> ->].
  case_decide as Hrows; [|intros Hno; discriminate Hno].
  intros [= <- <-]. exists (fit_values S), st. split_and!.
  - reflexivity.
  - exists C, S, N. split_and!.
    + reflexivity.
    + exact HS.
    + apply SimpleOneHotEncoder_fit_eq.
    + reflexivity.
    + exact Hst.
  - exists C, S, OH, N, SC. split_and!.
    + reflexivity.
    + exact HS.
    + by rewrite SimpleOneHotEncoder_transform_eq, HOH.
    + reflexivity.
    + exact HSC.
    + exact Hrows.
    + reflexivity.
Qed.

(** On a library that checks, [pipeline.transform] raises before any
    step is run, whatever the pipeline holds: the last step of the
    first pipeline never passes for fitted. *)
Lemma pipeline_transform_checked {I} `{!ArrayLike I pyval} (X : I) s :
  checks_fitted = true →
  transform the_pipeline X s = (Raise NotFittedError, s).
Proof.
  intros Hch. destruct s as [s1 s2].
  cbn [transform pipeline FeatureUnion p1 p2 make_pipeline steps TransformerMixin
       is_fitted PositionalSelector_ StripString_ SimpleOneHotEncoder_ StandardScaler].
  unfold py_bind, on_fst. cbn [fst snd]. by rewrite Hch.
Qed.

(** On rows the pipeline has features for, [pipeline.fit_transform]
    returns, provided the scaler does, with a row for every row. *)
Lemma pipeline_fit_transform_returns {I} `{!ArrayLike I pyval} (X : I) (A : ndarray pyval) st SC :
  np_array X = Ok A → wf A → census_rows A →
  scaler_fit (columns_at [0; 12] A) = Ok st →
  scaler_transform st (columns_at [0; 12] A) = Ok SC →
  shape0 SC = shape0 A →
  ∃ M s, fit_transform the_pipeline X the_pipeline_init = (Ok M, s).
Proof.
  intros HX Hwf Hrows Hst HSC HSC0.
  destruct (categorical_steps A Hwf Hrows) as (S & HC & HS & HwS & HS0 & HS1).
  destruct Hrows as (_ & Hcols & _).
  assert (take_columns A [0; 12]%Z = Ok (columns_at [0; 12] A)) as HN.
  { rewrite take_columns_at_Ok; [done|]. repeat constructor; lia. }
  unfold pipeline_init.
  cbn [fit_transform pipeline FeatureUnion p1 p2 make_pipeline steps TransformerMixin
       PositionalSelector_ StripString_ SimpleOneHotEncoder_ StandardScaler].
  unfold py_bind, on_fst, on_snd, py_lift, py_get, py_put,
    PositionalSelector.fit, StripString.fit, py_ret.
  cbn [fst snd].
  rewrite (PositionalSelector_transform_of X A) by done.
  cbn [PositionalSelector.positions PositionalSelector.init].
  change categorical_indices with [1; 3; 5; 7]%Z.
  change numerical_indices with [0; 12]%Z.
  rewrite HC. cbn [fst snd]. rewrite HS. cbn [fst snd].
  rewrite SimpleOneHotEncoder_fit_eq. cbn [fst snd].
  rewrite SimpleOneHotEncoder_transform_eq.
  rewrite encode_Ok; [|done|lia| |apply fit_values_dict_ok].
  2:{ unfold fit_values. rewrite length_fmap, length_seq. lia. }
  cbn [fst snd]. rewrite (PositionalSelector_transform_of X A) by done.
  cbn [PositionalSelector.positions PositionalSelector.init].
  rewrite HN. cbn [fst snd]. rewrite Hst. cbn [fst snd]. rewrite HSC.
  unfold np_hstack, hstack2.
  rewrite decide_True; [by eexists _, _|].
  unfold shape0, amap in *. cbn [rows]. rewrite !length_fmap. lia.
Qed.

(** So does [pipeline.transform] on a pipeline fitted on four columns
    of text, on a library that does not check. *)
Lemma pipeline_transform_returns {I} `{!ArrayLike I pyval} (X : I) (A : ndarray pyval) (S0 : ndarray string) st SC :
  checks_fitted = false →
  np_array X = Ok A → wf A → census_rows A →
  shape1 S0 = 4 →
  scaler_transform st (columns_at [0; 12] A) = Ok SC →
  shape0 SC = shape0 A →
  ∃ M, transform the_pipeline X (fitted_as (fit_values S0) st)
       = (Ok M, fitted_as (fit_values S0) st).
Proof.
  intros Hch HX Hwf Hrows HS0cols HSC HSC0.
  destruct (categorical_steps A Hwf Hrows) as (S & HC & HS & HwS & HS0 & HS1).
  destruct Hrows as (_ & Hcols & _).
  assert (take_columns A [0; 12]%Z = Ok (columns_at [0; 12] A)) as HN.
  { rewrite take_columns_at_Ok; [done|]. repeat constructor; lia. }
  unfold fitted_pipeline.
  cbn [transform pipeline FeatureUnion p1 p2 make_pipeline steps TransformerMixin
       is_fitted PositionalSelector_ StripString_ SimpleOneHotEncoder_ StandardScaler].
  unfold py_bind, on_fst, on_snd, py_lift, py_get. cbn [fst snd].
  rewrite Hch. cbn [andb].
  rewrite (PositionalSelector_transform_of X A) by done.
  cbn [PositionalSelector.positions PositionalSelector.init].
  change categorical_indices with [1; 3; 5; 7]%Z.
  change numerical_indices with [0; 12]%Z.
  rewrite HC. cbn [fst snd]. rewrite HS. cbn [fst snd].
  rewrite SimpleOneHotEncoder_transform_eq.
  rewrite encode_Ok; [|done|lia| |apply fit_values_dict_ok].
  2:{ unfold fit_values. rewrite length_fmap, length_seq. lia. }
  cbn [fst snd]. rewrite (PositionalSelector_transform_of X A) by done.
  cbn [PositionalSelector.positions PositionalSelector.init].
  rewrite HN. cbn [fst snd]. rewrite HSC.
  unfold np_hstack, hstack2.
  rewrite decide_True; [by eexists|].
  unfold shape0, amap in *. cbn [rows]. rewrite !length_fmap. lia.
Qed.

Abbreviation the_features :=
  (feature_matrix float64 float_of_int8 scaler_stats scaler_transform kept_of).

(** C6, amended. Let [A] be the array [np.array] makes of the training
    rows [X]. On rows the pipeline has features for (at least one row,
    thirteen columns or more, text in columns 1, 3, 5, 7) and with a
    scaler that returns a row for every row, [pipeline.fit_transform]
    returns. Whenever it returns [train_features], these are, row by
    row, the column-wise concatenation of (1) the one-hot encodings of
    the text in columns 1, 3, 5, 7 (workclass, education,
    marital-status, relationship), each text stripped of its leading
    and trailing whitespace and then of the NUL characters left at its
    end, encoded among the values so cleaned of its column, and (2) the
    row the scaler makes of columns 0 and 12 (age, hours-per-week) with
    the statistics fitted on them. Whenever the fitted pipeline then
    returns [processed_instances] for rows [X'], these are the same
    concatenation for the array [np.array] makes of [X'], under the
    values and statistics of the training rows, and the pipeline stays
    as fitted; on such rows it does return on a library that runs the
    steps at once, and raises [NotFittedError] on one that checks
    first. *)
Theorem C6_pipeline_features {I} `{!ArrayLike I pyval} (X : I) (A : ndarray pyval) :
  np_array X = Ok A → wf A →
  (∀ st SC, census_rows A →
     scaler_fit (columns_at [0; 12] A) = Ok st →
     scaler_transform st (columns_at [0; 12] A) = Ok SC →
     shape0 SC = shape0 A →
     ∃ M s, fit_transform the_pipeline X the_pipeline_init = (Ok M, s))
  ∧ (∀ M s, fit_transform the_pipeline X the_pipeline_init = (Ok M, s) →
       ∃ st,
         scaler_fit (columns_at [0; 12] A) = Ok st
         ∧ the_features A st A M
         ∧ (∀ J (HJ : ArrayLike J pyval) (X' : J) A' M' s',
              np_array X' = Ok A' → wf A' →
              transform the_pipeline X' s = (Ok M', s') →
              s' = s ∧ the_features A st A' M')
         ∧ (∀ J (HJ : ArrayLike J pyval) (X' : J) A' SC',
              np_array X' = Ok A' → wf A' → census_rows A' →
              scaler_transform st (columns_at [0; 12] A') = Ok SC' →
              shape0 SC' = shape0 A' →
              if checks_fitted
              then transform the_pipeline X' s = (Raise NotFittedError, s)
              else ∃ M', transform the_pipeline X' s = (Ok M', s)))
  ∧ (λ p, COLUMNS !! p) <$> [1; 3; 5; 7]
      = [Some "workclass"; Some "education"; Some "marital-status";
         Some "relationship"]
  ∧ (λ p, COLUMNS !! p) <$> [0; 12] = [Some "age"; Some "hours-per-week"].
Proof.
  intros HX Hwf. split_and!; [| |reflexivity..].
  { intros st SC Hrows Hst HSC HSC0.
    by eapply pipeline_fit_transform_returns. }
  intros M s (vals & st & -> & Hlearn & HM)%(pipeline_fit_transform X A); [|done].
  destruct Hlearn as (C & S & N & HC & HS & Hfit & HN & Hst).
  rewrite PositionalSelector_transform_eq in HC, HN.
  cbn [PositionalSelector.positions PositionalSelector.init] in HC, HN.
  injection HC as HC. injection HN as HN.
  destruct (take_columns_shape _ _ _ Hwf HC) as (HwC & _ & _).
  apply take_columns_at in HC as [-> Hps]; [|repeat constructor; lia].
  apply take_columns_at in HN as [-> _]; [|repeat constructor; lia].
  change (Z.to_nat <$> [0; 12]%Z) with [0; 12] in *.
  change (Z.to_nat <$> [1; 3; 5; 7]%Z) with [1; 3; 5; 7] in *.
  apply StripString_transform_Ok_inv in HS.
  destruct (np_vectorize_shape _ _ _ HwC HS) as (_ & _ & HS1).
  cbn [columns_at shape1 length] in HS1.
  rewrite SimpleOneHotEncoder_fit_eq in Hfit. injection Hfit as <-.
  exists st. split; [done|]. split_and!.
  - by eapply features_of_steps.
  - intros J HJ X' A' M' s' HX' Hwf' Htr.
    apply (pipeline_transform_fitted _ _ X' A') in Htr as (_ & -> & HM'); [|done].
    split; [done|]. by eapply features_of_steps.
  - intros J HJ X' A' SC' HX' Hwf' Hrows' HSC' HSC0'.
    pose proof (pipeline_transform_checked X' (fitted_as (fit_values S) st)) as Hyes.
    pose proof (λ H, pipeline_transform_returns X' A' S st SC' H HX' Hwf' Hrows'
                       HS1 HSC' HSC0') as Hno.
    destruct checks_fitted; [by apply Hyes|by apply Hno].
Qed.

End Pipeline_properties.

Example train_features_run :
  fit_transform sample_pipeline features_example (pipeline_init unit)
    = (Ok train_features_example, sample_pipeline_fitted).
Proof. vm_compute. reflexivity. Qed.

(** C6, as stated, fails on text that ends with a NUL character once
    trimmed. The trimmed text is stored in an array of text, which
    drops such characters: of two rows whose workclass is the letter a,
    once with and once without a NUL character after it, the
    whitespace-stripped workclass column holds two different values,
    and its one-hot encoding has two entries per row; the pipeline
    encodes both rows alike, with one entry. *)
Lemma C6_counterexample :
  wf nul_rows ∧ census_rows nul_rows
  ∧ fit_transform sample_pipeline nul_rows (pipeline_init unit)
      = (Ok nul_features,
         fitted_pipeline unit [ {["a" := 0]}; {["x" := 0]}; {["y" := 0]}; {["z" := 0]} ] tt)
  ∧ text_columns trimmed_of [1] nul_rows [["a"; String "a" (String NUL EmptyString)]]
  ∧ ¬ feature_matrix Z id unit sample_scaler_transform trimmed_of
        nul_rows tt nul_rows nul_features.
Proof.
  split_and!.
  - repeat constructor.
  - split_and!; [unfold shape0; simpl; lia|simpl; lia|].
    repeat constructor; by eexists.
  - vm_compute. reflexivity.
  - repeat constructor.
    + exists " a"%string. split; [reflexivity|].
      exists " "%string, EmptyString. by split_and!.
    + exists nul_padded. split; [reflexivity|].
      exists " "%string, EmptyString. by split_and!.
  - intros (T & SC & HT%text_columns_trimmed & HSC & _ & _ & Hcols & _).
    subst T. injection HSC as <-. vm_compute in Hcols. discriminate.
Qed.

(** The fitted sample pipeline on the sample rows, with a library that
    runs the steps at once and with one that checks first. *)
Example processed_run :
  transform sample_pipeline features_example sample_pipeline_fitted
    = (Ok train_features_example, sample_pipeline_fitted)
  ∧ transform (pipeline true Z id unit sample_scaler_fit sample_scaler_transform)
      features_example sample_pipeline_fitted
    = (Raise NotFittedError, sample_pipeline_fitted).
Proof. split; vm_compute; reflexivity. Qed.

Lemma C6_witness :
  (∀ st SC, census_rows features_example →
     sample_scaler_fit (columns_at [0; 12] features_example) = Ok st →
     sample_scaler_transform st (columns_at [0; 12] features_example) = Ok SC →
     shape0 SC = shape0 features_example →
     ∃ M s, fit_transform sample_pipeline features_example (pipeline_init unit)
            = (Ok M, s))
  ∧ (∀ M s, fit_transform sample_pipeline features_example (pipeline_init unit)
            = (Ok M, s) →
       ∃ st,
         sample_scaler_fit (columns_at [0; 12] features_example) = Ok st
         ∧ feature_matrix Z id unit sample_scaler_transform kept_of
             features_example st features_example M
         ∧ (∀ J (HJ : ArrayLike J pyval) (X' : J) A' M' s',
              np_array X' = Ok A' → wf A' →
              transform sample_pipeline X' s = (Ok M', s') →
              s' = s
              ∧ feature_matrix Z id unit sample_scaler_transform kept_of
                  features_example st A' M')
         ∧ (∀ J (HJ : ArrayLike J pyval) (X' : J) A' SC',
              np_array X' = Ok A' → wf A' → census_rows A' →
              sample_scaler_transform st (columns_at [0; 12] A') = Ok SC' →
              shape0 SC' = shape0 A' →
              if false
              then transform sample_pipeline X' s = (Raise NotFittedError, s)
              else ∃ M', transform sample_pipeline X' s = (Ok M', s)))
  ∧ (λ p, COLUMNS !! p) <$> [1; 3; 5; 7]
      = [Some "workclass"; Some "education"; Some "marital-status";
         Some "relationship"]
  ∧ (λ p, COLUMNS !! p) <$> [0; 12] = [Some "age"; Some "hours-per-week"].
Proof.
  apply (C6_pipeline_features false Z id unit sample_scaler_fit
           sample_scaler_transform features_example features_example).
  - reflexivity.
  - repeat constructor.
Defined.


(** * Further properties *)

(** ** The encoder at its edges *)

Lemma mapR_app_Raise {A B} (f : A → result B) (l1 l2 : list A) (x : A) (k : list B) (e : exn) :
  mapR f l1 = Ok k → f x = Raise e → mapR f (l1 ++ x :: l2) = Raise e.
Proof.
  revert k. induction l1 as [|y l1 IH]; intros k; simpl.
  - intros _ ->. done.
  - destruct (f y) as [b|]; simpl; [|done].
    destruct (mapR f l1) as [bs|] eqn:Hl1; simpl; [|done].
    intros _ Hx. by rewrite (IH bs).
Qed.

(** X1. [transform] on an encoder that was never fitted returns
    nothing: it raises [AttributeError] as soon as the input has a
    column (and [ValueError] from the empty concatenation when it has
    none), and the encoder stays unfitted. *)
Theorem X1_transform_before_fit_raises (X : ndarray string) :
  SimpleOneHotEncoder.transform X SimpleOneHotEncoder.init
    = (Raise (if decide (shape1 X = 0) then ValueError else AttributeError),
       SimpleOneHotEncoder.init).
Proof. apply SimpleOneHotEncoder_transform_unfitted. Qed.

(** X2. An input with more columns than the encoder was fitted on
    makes [transform] raise [IndexError], whatever its rows hold; the
    encoder is left as fitted. *)
Theorem X2_transform_too_many_columns (Xtrain X : ndarray string) (s0 s : SimpleOneHotEncoder.self) :
  SimpleOneHotEncoder.fit Xtrain s0 = (Ok tt, s) →
  shape1 Xtrain < shape1 X →
  SimpleOneHotEncoder.transform X s = (Raise IndexError, s).
Proof.
  intros Hfit Hlt. rewrite SimpleOneHotEncoder_fit_eq in Hfit.
  injection Hfit as <-. rewrite SimpleOneHotEncoder_transform_eq. f_equal.
  assert (length (fit_values Xtrain) = shape1 Xtrain) as Hlen.
  { unfold fit_values. by rewrite length_fmap, length_seq. }
  unfold encode.
  replace (shape1 X) with (shape1 Xtrain + S (shape1 X - S (shape1 Xtrain))) by lia.
  rewrite seq_app. cbn [seq].
  erewrite mapR_app_Raise; [done| |].
  - apply mapR_encode_block; [apply fit_values_dict_ok|].
    apply Forall_forall. intros c [_ ?]%elem_of_seq. lia.
  - unfold encode_block. rewrite lookup_ge_None_2; [done|]. simpl. lia.
Qed.

Lemma X2_witness :
  SimpleOneHotEncoder.transform wide_input small_fitted = (Raise IndexError, small_fitted).
Proof.
  apply (X2_transform_too_many_columns small_train wide_input
           SimpleOneHotEncoder.init small_fitted).
  - vm_compute. reflexivity.
  - simpl. lia.
Defined.

(** X3. [transform] works row by row: for two batches with the same
    columns ([1] up to the fitted number), the output for the batches
    one below the other is the outputs one below the other. *)
Theorem X3_transform_row_by_row (Xtrain X1 X2 : ndarray string) (s0 s : SimpleOneHotEncoder.self) :
  wf X1 → wf X2 →
  SimpleOneHotEncoder.fit Xtrain s0 = (Ok tt, s) →
  shape1 X1 = shape1 X2 → 0 < shape1 X1 → shape1 X1 ≤ shape1 Xtrain →
  ∃ M1 M2,
    SimpleOneHotEncoder.transform X1 s = (Ok M1, s)
    ∧ SimpleOneHotEncoder.transform X2 s = (Ok M2, s)
    ∧ SimpleOneHotEncoder.transform (vstack X1 X2) s = (Ok (vstack M1 M2), s).
Proof.
  intros Hw1 Hw2 Hfit Heq Hpos Hle.
  destruct (transform_fitted Xtrain X1 s0 s) as [_ H1]; [done..|].
  destruct (transform_fitted Xtrain X2 s0 s) as [_ H2]; [done|done|lia|lia|].
  destruct (transform_fitted Xtrain (vstack X1 X2) s0 s) as [_ H12]; [|done..|].
  { unfold wf, vstack in *. cbn [rows shape1]. apply Forall_app. split; [done|].
    by rewrite Heq. }
  eexists _, _. split; [exact H1|]. split; [exact H2|].
  rewrite H12. unfold vstack. cbn [rows shape1]. by rewrite fmap_app.
Qed.

Lemma X3_witness :
  ∃ M1 M2,
    SimpleOneHotEncoder.transform input_example fitted_example = (Ok M1, fitted_example)
    ∧ SimpleOneHotEncoder.transform batch_example fitted_example = (Ok M2, fitted_example)
    ∧ SimpleOneHotEncoder.transform (vstack input_example batch_example) fitted_example
        = (Ok (vstack M1 M2), fitted_example).
Proof.
  apply (X3_transform_row_by_row train_example input_example batch_example
           SimpleOneHotEncoder.init fitted_example).
  - repeat constructor.
  - repeat constructor.
  - vm_compute. reflexivity.
  - reflexivity.
  - simpl. lia.
  - simpl. lia.
Defined.

(** ** What the encoding keeps and what it forgets *)

Lemma onehot_inj n k k' : k < n → k' < n → onehot n k = onehot n k' → k = k'.
Proof.
  intros Hk Hk' Heq.
  assert (onehot n k !! k = onehot n k' !! k) as Hl by (by rewrite Heq).
  rewrite !onehot_lookup in Hl by done.
  rewrite decide_True in Hl by done. by case_decide.
Qed.

Lemma fit_values_seen (Xtrain : ndarray string) c d v :
  fit_values Xtrain !! c = Some d →
  (is_Some (d !! v) ↔ v ∈ column c Xtrain).
Proof.
  intros [_ ->]%fit_values_lookup. rewrite dict_of_pairs_dom.
  apply np_unique_spec.
Qed.

Lemma fit_values_inj (Xtrain : ndarray string) c d v w k :
  fit_values Xtrain !! c = Some d → d !! v = Some k → d !! w = Some k → v = w.
Proof.
  intros [_ ->]%fit_values_lookup Hv Hw.
  apply dict_of_pairs_lookup in Hv, Hw; try apply np_unique_NoDup. congruence.
Qed.

(** X4. On values seen at fit time the encoding loses nothing: if two
    rows of an input with the fitted number of columns hold only values
    seen in their columns at fit time and have the same output row,
    they are the same row. *)
Theorem X4_transform_injective_on_seen (Xtrain X : ndarray string) (s0 s : SimpleOneHotEncoder.self) (M : ndarray Z) (i j : nat) (r r' : list string) :
  wf X →
  SimpleOneHotEncoder.fit Xtrain s0 = (Ok tt, s) →
  shape1 X = shape1 Xtrain →
  SimpleOneHotEncoder.transform X s = (Ok M, s) →
  rows X !! i = Some r → rows X !! j = Some r' →
  (∀ c v, r !! c = Some v → v ∈ column c Xtrain) →
  (∀ c v, r' !! c = Some v → v ∈ column c Xtrain) →
  rows M !! i = rows M !! j →
  r = r'.
Proof.
  intros Hwf Hfit Hcols Htr Hr Hr' Hseen Hseen' Hout.
  pose proof (wf_lookup X i r Hwf Hr) as Hlen.
  pose proof (wf_lookup X j r' Hwf Hr') as Hlen'.
  destruct (decide (shape1 X = 0)) as [H0|Hpos].
  { rewrite H0 in Hlen, Hlen'.
    apply nil_length_inv in Hlen, Hlen'. by subst. }
  destruct (transform_fitted Xtrain X s0 s) as [-> Htr']; [done|done|lia|lia|].
  rewrite Htr' in Htr. injection Htr as <-. cbn [rows] in Hout.
  rewrite !list_lookup_fmap, Hr, Hr' in Hout. injection Hout as Hout.
  apply list_eq. intros c.
  destruct (decide (c < shape1 X)) as [Hc|Hc].
  2:{ rewrite !lookup_ge_None_2 by lia. done. }
  destruct (lookup_lt_is_Some_2 r c) as [v Hv]; [lia|].
  destruct (lookup_lt_is_Some_2 r' c) as [v' Hv']; [lia|].
  destruct (lookup_lt_is_Some_2 (fit_values Xtrain) c) as [d Hd].
  { unfold fit_values. rewrite length_fmap, length_seq. lia. }
  assert (is_Some (d !! v)) as [k Hk].
  { apply (fit_values_seen Xtrain c); [done|]. by eapply Hseen. }
  assert (is_Some (d !! v')) as [k' Hk'].
  { apply (fit_values_seen Xtrain c); [done|]. by eapply Hseen'. }
  pose proof (block_encode_row (fit_values Xtrain) r c d v Hd Hv) as Hb.
  pose proof (block_encode_row (fit_values Xtrain) r' c d v' Hd Hv') as Hb'.
  rewrite Hout, Hb' in Hb. unfold onehot_row in Hb. rewrite Hk, Hk' in Hb.
  pose proof (fit_values_dict_ok Xtrain) as Hok.
  rewrite Forall_lookup in Hok.
  apply onehot_inj in Hb; [|by eapply Hok..]. subst k'.
  rewrite Hv, Hv'. f_equal. by eapply fit_values_inj.
Qed.

Lemma X4_witness :
  rows train_example !! 0 = Some ["b"; "x"]
  ∧ rows train_example !! 2 = Some ["b"; "x"]
  ∧ ["b"; "x"] = ["b"; "x"].
Proof.
  split; [reflexivity|]. split; [reflexivity|].
  apply (X4_transform_injective_on_seen train_example train_example
           SimpleOneHotEncoder.init fitted_example
           (NdArray 4 [[0; 1; 1; 0]; [1; 0; 0; 1]; [0; 1; 1; 0]]%Z) 0 2).
  - repeat constructor.
  - vm_compute. reflexivity.
  - reflexivity.
  - vm_compute. reflexivity.
  - reflexivity.
  - reflexivity.
  - intros c v Hv. destruct c as [|[|c]]; simplify_eq/=; compute_done.
  - intros c v Hv. destruct c as [|[|c]]; simplify_eq/=; compute_done.
  - reflexivity.
Defined.

(** X5. Values not seen at fit time are all encoded alike: two inputs
    of the same shape that differ only in entries which, on both
    sides, were not seen in their column at fit time get the same
    result from [transform], the same output or the same error. *)
Theorem X5_transform_forgets_unseen (Xtrain X X' : ndarray string) (s0 s : SimpleOneHotEncoder.self) :
  wf X → wf X' →
  SimpleOneHotEncoder.fit Xtrain s0 = (Ok tt, s) →
  shape1 X = shape1 X' → shape0 X = shape0 X' →
  (∀ i c v v', cell X i c = Some v → cell X' i c = Some v' →
     v = v' ∨ ((v ∉ column c Xtrain) ∧ (v' ∉ column c Xtrain))) →
  SimpleOneHotEncoder.transform X s = SimpleOneHotEncoder.transform X' s.
Proof.
  intros Hwf Hwf' Hfit Hcols Hrows Hdiff. rewrite SimpleOneHotEncoder_fit_eq in Hfit.
  injection Hfit as <-. rewrite !SimpleOneHotEncoder_transform_eq. f_equal.
  unfold encode. rewrite <-Hcols. f_equal. apply mapR_ext_Forall.
  apply Forall_forall. intros c [_ Hc]%elem_of_seq. simpl in Hc.
  unfold encode_block. destruct (fit_values Xtrain !! c) as [d|] eqn:Hd; [|done].
  assert (dict_ok d) as Hok.
  { by eapply (Forall_lookup_1 _ _ _ _ (fit_values_dict_ok Xtrain)). }
  rewrite !mark_loop by done. do 2 f_equal.
  apply list_eq. intros i. rewrite !list_lookup_fmap.
  rewrite !column_lookup by (done || lia).
  destruct (cell X i c) as [v|] eqn:Hv, (cell X' i c) as [v'|] eqn:Hv'; simpl.
  - f_equal. destruct (Hdiff i c v v' Hv Hv') as [->|[Hu Hu']]; [done|].
    unfold onehot_row.
    assert (d !! v = None) as ->.
    { apply eq_None_not_Some. by rewrite (fit_values_seen Xtrain c). }
    assert (d !! v' = None) as ->.
    { apply eq_None_not_Some. by rewrite (fit_values_seen Xtrain c). }
    done.
  - apply cell_Some in Hv as [Hi _]; [|done].
    unfold cell in Hv'. destruct (rows X' !! i) as [r'|] eqn:Hr'.
    + simpl in Hv'. apply lookup_ge_None in Hv'.
      rewrite (wf_lookup X' i r') in Hv' by done. lia.
    + apply lookup_ge_None in Hr'. unfold shape0 in *. lia.
  - apply cell_Some in Hv' as [Hi _]; [|done].
    unfold cell in Hv. destruct (rows X !! i) as [r|] eqn:Hr.
    + simpl in Hv. apply lookup_ge_None in Hv.
      rewrite (wf_lookup X i r) in Hv by done. lia.
    + apply lookup_ge_None in Hr. unfold shape0 in *. lia.
  - done.
Qed.

Lemma X5_witness :
  SimpleOneHotEncoder.transform input_example fitted_example
  = SimpleOneHotEncoder.transform (NdArray 2 [["a"; "x"]; ["zz"; "y"]]) fitted_example.
Proof.
  apply (X5_transform_forgets_unseen train_example input_example
           (NdArray 2 [["a"; "x"]; ["zz"; "y"]]) SimpleOneHotEncoder.init fitted_example).
  - repeat constructor.
  - repeat constructor.
  - vm_compute. reflexivity.
  - reflexivity.
  - reflexivity.
  - intros i c v v' Hv Hv'.
    destruct i as [|[|i]], c as [|[|c]];
      vm_compute in Hv; vm_compute in Hv'; try discriminate;
      injection Hv as <-; injection Hv' as <-;
      first [left; reflexivity | right; split; compute_done].
Defined.

(** ** The encoder on its own training data *)

Lemma onehot_count n k : k < n → length (filter (λ z, z = 1%Z) (onehot n k)) = 1.
Proof.
  unfold onehot. revert k. induction n as [|n IH]; intros k Hk; [lia|].
  destruct k as [|k].
  - change (<[0:=1%Z]> (replicate (S n) 0%Z)) with (1%Z :: replicate n 0%Z).
    rewrite filter_cons_True by done. rewrite filter_none; [done|].
    apply Forall_replicate. done.
  - change (<[S k:=1%Z]> (replicate (S n) 0%Z))
      with (0%Z :: <[k:=1%Z]> (replicate n 0%Z)).
    rewrite filter_cons_False by done. apply IH. lia.
Qed.

Lemma encode_row_count vals (r : list string) :
  Forall2 (λ d v, dict_ok d ∧ is_Some (d !! v)) vals r →
  length (filter (λ z, z = 1%Z) (encode_row vals r)) = length r.
Proof.
  unfold encode_row. induction 1 as [|d v vals r [Hok [k Hk]] _ IH]; [done|].
  cbn [zip_with concat length]. rewrite filter_app, length_app, IH.
  unfold onehot_row. rewrite Hk, onehot_count by (by eapply Hok). done.
Qed.

(** X6. Fitted and then applied to the same array (with at least one
    column), the encoder leaves no block empty: in every output row
    the block of every column holds exactly one 1, so every row holds
    as many ones as the input has columns. *)
Theorem X6_training_rows_fully_encoded (X : ndarray string) (s0 s : SimpleOneHotEncoder.self) :
  wf X → 0 < shape1 X →
  SimpleOneHotEncoder.fit X s0 = (Ok tt, s) →
  ∃ vals M,
    SimpleOneHotEncoder.values s = Some vals
    ∧ SimpleOneHotEncoder.transform X s = (Ok M, s)
    ∧ ∀ row, row ∈ rows M →
        (∀ c, c < shape1 X →
           length (filter (λ z, z = 1%Z) (block vals c row)) = 1)
        ∧ length (filter (λ z, z = 1%Z) row) = shape1 X.
Proof.
  intros Hwf Hpos Hfit.
  destruct (transform_fitted X X s0 s) as [-> Htr]; [done..|].
  exists (fit_values X). eexists. split; [done|]. split; [exact Htr|].
  cbn [rows]. intros row (r & -> & Hr)%list_elem_of_fmap.
  pose proof Hwf as Hall. unfold wf in Hall. rewrite Forall_forall in Hall.
  pose proof (Hall r Hr) as Hlen.
  assert (∀ c d v, fit_values X !! c = Some d → r !! c = Some v →
                   dict_ok d ∧ is_Some (d !! v)) as Hseen.
  { intros c d v Hd Hv. split.
    - by eapply (Forall_lookup_1 _ _ _ _ (fit_values_dict_ok X)).
    - apply (fit_values_seen X c); [done|]. unfold column.
      apply list_elem_of_omap. by exists r. }
  split.
  - intros c Hc.
    destruct (lookup_lt_is_Some_2 r c) as [v Hv]; [lia|].
    destruct (lookup_lt_is_Some_2 (fit_values X) c) as [d Hd].
    { unfold fit_values. rewrite length_fmap, length_seq. lia. }
    rewrite (block_encode_row _ _ _ d v) by done.
    destruct (Hseen c d v Hd Hv) as [Hok [k Hk]].
    unfold onehot_row. rewrite Hk. apply onehot_count. by eapply Hok.
  - rewrite encode_row_count; [done|].
    apply Forall2_same_length_lookup_2.
    + unfold fit_values. rewrite length_fmap, length_seq. lia.
    + intros c d v Hd Hv. by eapply Hseen.
Qed.

Lemma X6_witness :
  ∃ vals M,
    SimpleOneHotEncoder.values fitted_example = Some vals
    ∧ SimpleOneHotEncoder.transform train_example fitted_example = (Ok M, fitted_example)
    ∧ ∀ row, row ∈ rows M →
        (∀ c, c < shape1 train_example →
           length (filter (λ z, z = 1%Z) (block vals c row)) = 1)
        ∧ length (filter (λ z, z = 1%Z) row) = shape1 train_example.
Proof.
  apply (X6_training_rows_fully_encoded train_example
           SimpleOneHotEncoder.init fitted_example).
  - repeat constructor.
  - simpl. lia.
  - vm_compute. reflexivity.
Defined.

(** ** What [fit] depends on *)

Lemma np_unique_same_values (Y Y' : list string) :
  (∀ v, v ∈ Y ↔ v ∈ Y') → np_unique Y = np_unique Y'.
Proof.
  intros Hsame.
  destruct (np_unique_spec Y) as [Hs He], (np_unique_spec Y') as [Hs' He'].
  apply (StronglySorted_unique_strong str_lt); [|done|done|].
  - intros x1 x2 _ _ H12 H21. by destruct (str_lt_asym x1 x2).
  - apply NoDup_Permutation; [apply np_unique_NoDup..|].
    intros v. by rewrite He, He', Hsame.
Qed.

(** X7. [fit] learns from the set of values of each column and from
    nothing else: training arrays with the same number of columns and,
    column by column, the same values occurring (in any order, any
    number of times, in any number of rows) leave any two encoders
    with identical mappings. *)
Theorem X7_fit_depends_on_value_sets (X X' : ndarray string) (s s' : SimpleOneHotEncoder.self) :
  shape1 X = shape1 X' →
  (∀ c v, v ∈ column c X ↔ v ∈ column c X') →
  SimpleOneHotEncoder.fit X s = SimpleOneHotEncoder.fit X' s'.
Proof.
  intros Hcols Hsame. rewrite !SimpleOneHotEncoder_fit_eq. do 3 f_equal.
  unfold fit_values. rewrite <-Hcols. apply list_fmap_ext.
  intros _ c _. by rewrite (np_unique_same_values _ (column c X')).
Qed.

Lemma X7_witness :
  SimpleOneHotEncoder.fit train_example SimpleOneHotEncoder.init
  = SimpleOneHotEncoder.fit train_shuffled fitted_example.
Proof.
  apply (X7_fit_depends_on_value_sets train_example train_shuffled).
  - reflexivity.
  - intros c v. destruct c as [|[|c]].
    + change (column 0 train_example) with ["b"; "a"; "b"].
      change (column 0 train_shuffled) with ["a"; "b"; "a"; "b"; "a"].
      rewrite !elem_of_cons, !elem_of_nil. tauto.
    + change (column 1 train_example) with ["x"; "y"; "x"].
      change (column 1 train_shuffled) with ["y"; "x"; "x"; "y"; "y"].
      rewrite !elem_of_cons, !elem_of_nil. tauto.
    + change (column (S (S c)) train_example) with (@nil string).
      change (column (S (S c)) train_shuffled) with (@nil string).
      done.
Defined.

Lemma StronglySorted_str_lt_lookup u i j v w :
  StronglySorted str_lt u → u !! i = Some v → u !! j = Some w →
  (i < j ↔ str_lt v w).
Proof.
  intros Hs Hi Hj.
  assert (∀ i j v w, u !! i = Some v → u !! j = Some w → i < j → str_lt v w) as Hmono.
  { clear i j v w Hi Hj. induction Hs as [|x u Hs IH Hx]; intros i j v w Hi Hj Hij.
    { done. }
    destruct j as [|j]; [lia|]. simpl in Hj. destruct i as [|i]; simpl in Hi.
    - simplify_eq. rewrite Forall_forall in Hx.
      apply Hx. by eapply list_elem_of_lookup_2.
    - apply (IH i j); [done|done|lia]. }
  split; [by apply Hmono|]. intros Hlt.
  destruct (decide (i < j)) as [|Hge]; [done|].
  destruct (decide (i = j)) as [->|Hne].
  - assert (v = w) as -> by congruence. by destruct (irreflexivity str_lt w).
  - destruct (str_lt_asym v w Hlt). apply (Hmono j i); [done|done|lia].
Qed.

(** X8. The indices [fit] hands out follow the order of the values:
    of two values of one column, the smaller string has the smaller
    index. *)
Theorem X8_fit_indices_are_monotone (X : ndarray string) (s : SimpleOneHotEncoder.self) :
  ∃ vals,
    SimpleOneHotEncoder.fit X s = (Ok tt, SimpleOneHotEncoder.Self (Some vals))
    ∧ ∀ c d v w k k', vals !! c = Some d → d !! v = Some k → d !! w = Some k' →
        (k < k' ↔ str_lt v w).
Proof.
  exists (fit_values X). split; [apply SimpleOneHotEncoder_fit_eq|].
  intros c d v w k k' [_ ->]%fit_values_lookup Hv Hw.
  apply dict_of_pairs_lookup in Hv, Hw; try apply np_unique_NoDup.
  eapply StronglySorted_str_lt_lookup; [apply np_unique_spec|done..].
Qed.

(** ** Inputs narrower than the training data, and training data
    without rows *)

(** X20. An input with fewer columns than the encoder was fitted on
    (but at least one) is accepted without an error: [transform]
    encodes its columns under the mappings of the first columns of the
    training data and returns an array with the rows of the input and
    the keys of those mappings as columns. *)
Theorem X20_transform_accepts_fewer_columns (Xtrain X : ndarray string) (s0 s : SimpleOneHotEncoder.self) :
  wf X →
  SimpleOneHotEncoder.fit Xtrain s0 = (Ok tt, s) →
  0 < shape1 X → shape1 X < shape1 Xtrain →
  ∃ vals M,
    SimpleOneHotEncoder.values s = Some vals
    ∧ SimpleOneHotEncoder.transform X s = (Ok M, s)
    ∧ wf M ∧ shape0 M = shape0 X
    ∧ shape1 M = sum_list_with size (take (shape1 X) vals)
    ∧ ∀ i r, rows X !! i = Some r →
        ∃ row, rows M !! i = Some row ∧
          ∀ c v d, r !! c = Some v → vals !! c = Some d →
            block vals c row
            = match d !! v with
              | Some k => onehot (size d) k
              | None => replicate (size d) 0%Z
              end.
Proof.
  intros Hwf Hfit Hpos Hlt.
  destruct (transform_fitted Xtrain X s0 s) as [-> Htr]; [done|done|lia|lia|].
  assert (length (fit_values Xtrain) = shape1 Xtrain) as Hlen.
  { unfold fit_values. by rewrite length_fmap, length_seq. }
  eexists _, _. split; [done|]. split; [exact Htr|]. split_and!.
  - unfold wf. cbn [rows shape1]. apply Forall_fmap.
    eapply Forall_impl; [exact Hwf|]. intros r Hr. simpl in *.
    rewrite zip_with_onehot_length by lia. by rewrite Hr.
  - unfold shape0. cbn [rows]. by rewrite length_fmap.
  - done.
  - intros i r Hr. exists (encode_row (fit_values Xtrain) r). split.
    + cbn [rows]. by rewrite list_lookup_fmap, Hr.
    + intros c v d Hv Hd. by rewrite (block_encode_row _ _ _ d v).
Qed.

Lemma X20_witness :
  ∃ vals M,
    SimpleOneHotEncoder.values fitted_example = Some vals
    ∧ SimpleOneHotEncoder.transform (NdArray 1 [["b"]; ["q"]]) fitted_example
        = (Ok M, fitted_example)
    ∧ wf M ∧ shape0 M = shape0 (NdArray 1 [["b"]; ["q"]])
    ∧ shape1 M = sum_list_with size (take (shape1 (NdArray 1 [["b"]; ["q"]])) vals)
    ∧ ∀ i r, rows (NdArray 1 [["b"]; ["q"]]) !! i = Some r →
        ∃ row, rows M !! i = Some row ∧
          ∀ c v d, r !! c = Some v → vals !! c = Some d →
            block vals c row
            = match d !! v with
              | Some k => onehot (size d) k
              | None => replicate (size d) 0%Z
              end.
Proof.
  apply (X20_transform_accepts_fewer_columns train_example (NdArray 1 [["b"]; ["q"]])
           SimpleOneHotEncoder.init fitted_example).
  - repeat constructor.
  - vm_compute. reflexivity.
  - simpl. lia.
  - simpl. lia.
Defined.

Example transform_fewer_columns_example :
  SimpleOneHotEncoder.transform (NdArray 1 [["b"]; ["q"]]) fitted_example
    = (Ok (NdArray 2 [[0; 1]; [0; 0]]%Z), fitted_example).
Proof. vm_compute. reflexivity. Qed.

(** X21. Fitted on an array without rows, the encoder knows no value:
    every mapping is empty, and [transform] turns any input with one
    up to the fitted number of columns into an array with the rows of
    the input and no columns. *)
Theorem X21_fit_without_rows (Xtrain X : ndarray string) (s0 : SimpleOneHotEncoder.self) :
  rows Xtrain = [] → wf X → 0 < shape1 X → shape1 X ≤ shape1 Xtrain →
  ∃ s,
    SimpleOneHotEncoder.fit Xtrain s0 = (Ok tt, s)
    ∧ SimpleOneHotEncoder.values s = Some (replicate (shape1 Xtrain) ∅)
    ∧ SimpleOneHotEncoder.transform X s
        = (Ok (NdArray 0 (replicate (shape0 X) [])), s).
Proof.
  intros Hrows Hwf Hpos Hle.
  assert (fit_values Xtrain = replicate (shape1 Xtrain) ∅) as Hvals.
  { unfold fit_values, column. rewrite Hrows.
    rewrite (const_fmap _ _ ∅) by done. by rewrite length_seq. }
  eexists. split; [apply SimpleOneHotEncoder_fit_eq|]. cbn [SimpleOneHotEncoder.values].
  split; [by rewrite Hvals|].
  destruct (transform_fitted Xtrain X s0 (SimpleOneHotEncoder.Self (Some (fit_values Xtrain))))
    as [_ Htr]; [done|apply SimpleOneHotEncoder_fit_eq|done..|].
  rewrite Htr. do 2 f_equal. rewrite Hvals.
  assert (∀ n (r : list string), encode_row (replicate n ∅) r = []) as Hrow.
  { unfold encode_row. induction n as [|n IH]; intros [|x r]; try done.
    cbn [replicate zip_with concat]. rewrite IH. unfold onehot_row.
    by rewrite lookup_empty, map_size_empty. }
  f_equal.
  - unfold offset. generalize (shape1 Xtrain) (shape1 X).
    intros n m. revert m. induction n as [|n IH]; intros [|m]; try done.
    cbn [replicate take sum_list_with]. by rewrite IH, map_size_empty.
  - unfold shape0. clear Htr Hwf. induction (rows X) as [|r rs IH]; [done|].
    csimpl. f_equal; [apply Hrow | exact IH].
Qed.

Lemma X21_witness :
  ∃ s,
    SimpleOneHotEncoder.fit (NdArray 2 []) SimpleOneHotEncoder.init = (Ok tt, s)
    ∧ SimpleOneHotEncoder.values s = Some (replicate (shape1 (NdArray (A:=string) 2 [])) ∅)
    ∧ SimpleOneHotEncoder.transform input_example s
        = (Ok (NdArray 0 (replicate (shape0 input_example) [])), s).
Proof.
  apply (X21_fit_without_rows (NdArray 2 []) input_example SimpleOneHotEncoder.init).
  - reflexivity.
  - repeat constructor.
  - simpl. lia.
  - simpl. lia.
Defined.

(** ** StripString beyond well-formed text *)

Lemma mapR_Raise_only {A B} (f : A → result B) (l : list A) (e : exn) :
  (∀ y e', f y = Raise e' → e' = e) →
  Exists (λ x, ∃ e', f x = Raise e') l →
  mapR f l = Raise e.
Proof.
  intros Honly Hex. destruct (mapR f l) as [k|e'] eqn:Hl.
  - apply mapR_Ok in Hl. apply Exists_exists in Hex as (x & Hx & e0 & He0).
    apply list_elem_of_lookup in Hx as [i Hi].
    destruct (Forall2_lookup_l _ _ _ _ _ Hl Hi) as (y & _ & Hy). congruence.
  - apply mapR_Raise, Exists_exists in Hl as (x & _ & Hx).
    by rewrite (Honly x e').
Qed.

Lemma nul_free_append (s t : string) :
  nul_free (s +:+ t) = nul_free s && nul_free t.
Proof.
  induction s as [|a s IH]; [done|]. rewrite append_String. simpl.
  by rewrite IH, andb_assoc.
Qed.

Lemma nul_free_ends (s : string) : nul_free s = true → ends_with_nul s = false.
Proof.
  induction s as [|a s IH]; [done|]. simpl.
  intros [Ha Hs]%andb_true_iff. destruct s as [|b s].
  - by destruct (is_nul a).
  - by apply IH.
Qed.

Lemma nul_free_strip (s : string) : nul_free s = true → nul_free (strip s) = true.
Proof.
  destruct (strip_trimmed_of s) as (l & r & Hs & _). rewrite Hs at 1.
  rewrite !nul_free_append. by intros [_ [? _]%andb_true_iff]%andb_true_iff.
Qed.

Lemma strip_strip (s : string) : strip (strip s) = strip s.
Proof.
  symmetry. apply trimmed_of_strip. exists EmptyString, EmptyString.
  destruct (strip_trimmed_of s) as (l & r' & _ & _ & _ & Hst & Hen).
  rewrite append_empty_l, append_empty_r. by split_and!.
Qed.

Lemma kept_nul_free (s : string) : nul_free s = true → kept s = strip s.
Proof. intros Hs. apply unicode_item_id, nul_free_ends, nul_free_strip, Hs. Qed.

(** X9. Stripping is idempotent on text without NUL characters: on an
    array of such strings with at least one entry,
    [StripString.transform] applied to its own output returns that
    output. *)
Theorem X9_strip_string_idempotent (X : ndarray string) :
  0 < shape0 X → 0 < shape1 X →
  Forall (Forall (λ s, nul_free s = true)) (rows X) →
  ∃ M, StripString.transform (amap PStr X) StripString.init = (Ok M, StripString.init)
     ∧ StripString.transform (amap PStr M) StripString.init = (Ok M, StripString.init).
Proof.
  intros H0 H1 Hnul. exists (amap kept X).
  split; [by apply StripString_transform_Ok|].
  destruct (amap_shape kept X) as [E0 E1].
  rewrite StripString_transform_Ok by congruence. do 2 f_equal.
  unfold amap. cbn [rows shape1]. f_equal.
  rewrite <-list_fmap_compose. apply Forall_fmap_ext_1.
  eapply Forall_impl; [exact Hnul|]. intros r Hr. simpl in *.
  rewrite <-list_fmap_compose. apply Forall_fmap_ext_1.
  eapply Forall_impl; [exact Hr|]. intros s Hs. simpl in *.
  rewrite (kept_nul_free s) by done.
  rewrite kept_nul_free by (by apply nul_free_strip). apply strip_strip.
Qed.

Lemma X9_witness :
  ∃ M, StripString.transform (amap PStr padded_example) StripString.init
         = (Ok M, StripString.init)
     ∧ StripString.transform (amap PStr M) StripString.init = (Ok M, StripString.init).
Proof.
  apply (X9_strip_string_idempotent padded_example).
  - unfold shape0. simpl. lia.
  - simpl. lia.
  - repeat constructor.
Defined.

(** With a NUL character it is not: of the letter a, a space and a NUL
    character the first pass drops the NUL character only, and the
    second the space. *)
Example strip_string_twice :
  StripString.transform (amap PStr (NdArray 1 [[String "a" (String " " (String NUL EmptyString))]]))
    StripString.init
    = (Ok (NdArray 1 [["a "]]), StripString.init)
  ∧ StripString.transform (amap PStr (NdArray 1 [["a "]])) StripString.init
    = (Ok (NdArray 1 [["a"]]), StripString.init).
Proof. split; reflexivity. Qed.

(** X10. [StripString.transform] accepts text only: an array holding
    an entry that is not a string (an integer, a missing value) makes
    it raise [TypeError]. *)
Theorem X10_strip_string_rejects_non_text (X : ndarray pyval) (i j : nat) (v : pyval) :
  wf X → cell X i j = Some v → (∀ s, v ≠ PStr s) →
  StripString.transform X StripString.init = (Raise TypeError, StripString.init).
Proof.
  intros Hwf Hcell Hv. pose proof (cell_Some _ _ _ _ Hwf Hcell) as [Hi Hj].
  rewrite StripString_transform_eq. unfold np_vectorize.
  rewrite decide_False by nia. f_equal.
  assert (∀ y e', str_strip y = Raise e' → e' = TypeError) as Honly.
  { intros [s| |] e'; simpl; congruence. }
  rewrite (mapR_Raise_only _ _ TypeError); [done| |].
  - intros r e' Hr. apply mapR_Raise, Exists_exists in Hr as (y & _ & Hy).
    by apply (Honly y).
  - unfold cell in Hcell. destruct (rows X !! i) as [r|] eqn:Hr; [|done].
    simpl in Hcell. apply Exists_exists. exists r.
    split; [by eapply list_elem_of_lookup_2|]. exists TypeError.
    apply mapR_Raise_only; [done|]. apply Exists_exists. exists v.
    split; [by eapply list_elem_of_lookup_2|]. exists TypeError.
    destruct v as [s| |]; [by destruct (Hv s)|done..].
Qed.

Lemma X10_witness :
  StripString.transform mixed_example StripString.init
    = (Raise TypeError, StripString.init).
Proof.
  apply (X10_strip_string_rejects_non_text mixed_example 0 1 (PInt 40)).
  - repeat constructor.
  - reflexivity.
  - intros s. discriminate.
Defined.

Lemma string_length_append (s t : string) :
  String.length (s +:+ t) = String.length s + String.length t.
Proof. induction s as [|a s IH]; simpl; [done|]. by rewrite IH. Qed.

(** X11. On text whose characters have code points below 256, where
    the whitespace characters are those with the code points 9 to 13,
    28 to 32, 133 and 160, [strip] leaves a string as it is exactly
    when the string neither begins nor ends with whitespace, and it
    never makes a string longer. *)
Theorem X11_strip_fixed_points (s : string) :
  (strip s = s ↔ starts_with_space s = false ∧ ends_with_space s = false)
  ∧ String.length (strip s) ≤ String.length s
  ∧ (∀ a, is_space a = true
          ↔ N_of_ascii a ∈ [9; 10; 11; 12; 13; 28; 29; 30; 31; 32; 133; 160]%N).
Proof.
  destruct (strip_trimmed_of s) as (l & r & Hs & _ & _ & Hst & Hen). split_and!.
  - split.
    + intros Heq. by rewrite Heq in Hst, Hen.
    + intros [Hst' Hen']. unfold strip. by rewrite lstrip_id, rstrip_id.
  - rewrite Hs at 2. rewrite !string_length_append. lia.
  - intros a. unfold is_space. generalize (N_of_ascii a). intros n.
    rewrite !orb_true_iff, !andb_true_iff, !N.leb_le, !N.eqb_eq.
    rewrite !elem_of_cons, elem_of_nil. lia.
Qed.

(** ** Selections of selections *)

Lemma gather_gather {A} (r : list A) (ks1 ks2 : list nat) :
  Forall (λ k, k < length r) ks1 →
  omap (λ k : nat, omap (λ k : nat, r !! k) ks1 !! k) ks2
  = omap (λ k : nat, r !! k) (omap (λ k : nat, ks1 !! k) ks2).
Proof.
  intros Hks1. induction ks2 as [|k ks2 IH]; [done|]. csimpl.
  rewrite gather_lookup by done.
  destruct (ks1 !! k) as [k1|] eqn:Hk1; csimpl; [|exact IH].
  destruct (lookup_lt_is_Some_2 r k1) as [x Hx].
  { rewrite Forall_forall in Hks1. apply Hks1. by eapply list_elem_of_lookup_2. }
  rewrite Hx. csimpl. f_equal. exact IH.
Qed.

Lemma compose_positions_spec (ps1 ps2 : list Z) (m : nat) :
  Forall (λ q, (- Z.of_nat (length ps1) ≤ q < Z.of_nat (length ps1))%Z) ps2 →
  length (compose_positions ps1 ps2) = length ps2
  ∧ (Forall (λ p, (- Z.of_nat m ≤ p < Z.of_nat m)%Z) ps1 →
     Forall (λ p, (- Z.of_nat m ≤ p < Z.of_nat m)%Z) (compose_positions ps1 ps2))
  ∧ (λ p, Z.to_nat (p mod Z.of_nat m)) <$> compose_positions ps1 ps2
    = omap (λ k : nat, ((λ p, Z.to_nat (p mod Z.of_nat m)) <$> ps1) !! k)
        ((λ q, Z.to_nat (q mod Z.of_nat (length ps1))) <$> ps2).
Proof.
  unfold compose_positions. induction 1 as [|q ps2 Hq _ (IH1 & IH2 & IH3)].
  { by split_and!. }
  destruct (axis_index_Ok _ _ Hq) as [_ Hlt].
  destruct (lookup_lt_is_Some_2 ps1 _ Hlt) as [p Hp].
  csimpl. rewrite Hp, list_lookup_fmap, Hp. csimpl. split_and!.
  - by rewrite IH1.
  - intros Hps1. constructor; [|by apply IH2].
    rewrite Forall_forall in Hps1. apply Hps1. by eapply list_elem_of_lookup_2.
  - f_equal. exact IH3.
Qed.

(** X12. Selecting from a selection is one selection: for positions
    [ps1] of columns of [X] and positions [ps2] of columns of the
    selection, [PositionalSelector(ps2)] applied to the output of
    [PositionalSelector(ps1)] returns what the selector with the
    positions [ps1[q]], [q] running over [ps2], returns on [X]. *)
Theorem X12_positional_selectors_compose {A} (X : ndarray A) (ps1 ps2 : list Z) :
  wf X →
  Forall (λ p, (- Z.of_nat (shape1 X) ≤ p < Z.of_nat (shape1 X))%Z) ps1 →
  Forall (λ q, (- Z.of_nat (length ps1) ≤ q < Z.of_nat (length ps1))%Z) ps2 →
  ∃ M1 M2,
    PositionalSelector.transform X (PositionalSelector.init ps1)
      = (Ok M1, PositionalSelector.init ps1)
    ∧ PositionalSelector.transform M1 (PositionalSelector.init ps2)
        = (Ok M2, PositionalSelector.init ps2)
    ∧ PositionalSelector.transform X
        (PositionalSelector.init (compose_positions ps1 ps2))
        = (Ok M2, PositionalSelector.init (compose_positions ps1 ps2)).
Proof.
  intros Hwf Hps1 Hps2.
  destruct (compose_positions_spec ps1 ps2 (shape1 X) Hps2) as (Hlen & Hval & Hks).
  set (ks1 := (λ p, Z.to_nat (p mod Z.of_nat (shape1 X))) <$> ps1) in *.
  set (M1 := NdArray (length ps1)
               ((λ r : list A, omap (λ k : nat, r !! k) ks1) <$> rows X)).
  assert (take_columns X ps1 = Ok M1) as H1 by (by apply take_columns_Ok).
  exists M1. eexists. rewrite !PositionalSelector_transform_eq.
  cbn [PositionalSelector.positions PositionalSelector.init].
  rewrite H1. split; [done|].
  rewrite (take_columns_Ok M1 ps2) by done.
  rewrite (take_columns_Ok X (compose_positions ps1 ps2)) by auto.
  split; [done|]. do 2 f_equal. rewrite Hlen. f_equal.
  unfold M1. cbn [shape1 rows].
  rewrite <-list_fmap_compose. apply Forall_fmap_ext_1.
  eapply Forall_impl; [exact Hwf|]. intros r Hr. simpl in *.
  rewrite Hks. symmetry. apply gather_gather.
  apply Forall_fmap. eapply Forall_impl; [exact Hps1|]. intros p Hp. simpl.
  rewrite Hr. by apply axis_index_Ok.
Qed.

Lemma X12_witness :
  ∃ M1 M2,
    PositionalSelector.transform digits_example (PositionalSelector.init [2; 0]%Z)
      = (Ok M1, PositionalSelector.init [2; 0]%Z)
    ∧ PositionalSelector.transform M1 (PositionalSelector.init [-1; 0; 1]%Z)
        = (Ok M2, PositionalSelector.init [-1; 0; 1]%Z)
    ∧ PositionalSelector.transform digits_example
        (PositionalSelector.init (compose_positions [2; 0]%Z [-1; 0; 1]%Z))
        = (Ok M2, PositionalSelector.init (compose_positions [2; 0]%Z [-1; 0; 1]%Z)).
Proof.
  apply (X12_positional_selectors_compose digits_example [2; 0]%Z [-1; 0; 1]%Z).
  - repeat constructor.
  - repeat constructor; simpl; lia.
  - repeat constructor; simpl; lia.
Defined.

Example compose_positions_example :
  compose_positions [2; 0]%Z [-1; 0; 1]%Z = [0; 2; 0]%Z.
Proof. reflexivity. Qed.

Lemma gather_seq {A} (r : list A) :
  omap (λ k : nat, r !! k) (seq 0 (length r)) = r.
Proof.
  apply list_eq. intros j. rewrite gather_lookup.
  - destruct (decide (j < length r)) as [Hj|Hj].
    + by rewrite (lookup_seq_lt _ _ _ Hj).
    + rewrite lookup_seq_ge by lia. by rewrite lookup_ge_None_2 by lia.
  - apply Forall_forall. intros k [_ ?]%elem_of_seq. lia.
Qed.

(** X13. Selecting every column in order changes nothing: with the
    positions 0, 1, ..., m-1 of an array with m columns the selector
    returns the array itself. *)
Theorem X13_positional_selector_identity {A} (X : ndarray A) :
  wf X →
  PositionalSelector.transform X
    (PositionalSelector.init (Z.of_nat <$> seq 0 (shape1 X)))
  = (Ok X, PositionalSelector.init (Z.of_nat <$> seq 0 (shape1 X))).
Proof.
  intros Hwf. destruct X as [m rs]. unfold wf in Hwf. cbn [shape1 rows] in *.
  rewrite PositionalSelector_transform_eq.
  cbn [PositionalSelector.positions PositionalSelector.init].
  rewrite take_columns_Ok.
  2:{ apply Forall_fmap, Forall_forall. intros k [_ ?]%elem_of_seq. simpl. lia. }
  do 2 f_equal. cbn [shape1 rows].
  rewrite length_fmap, length_seq. f_equal.
  rewrite <-(list_fmap_id rs) at 2. apply Forall_fmap_ext_1.
  eapply Forall_impl; [exact Hwf|]. intros r Hr. simpl in *.
  rewrite <-list_fmap_compose.
  rewrite (list_fmap_ext _ id (seq 0 m)).
  - by rewrite list_fmap_id, <-Hr, gather_seq.
  - intros i k [-> ?]%lookup_seq. simpl.
    rewrite Z.mod_small by lia. apply Nat2Z.id.
Qed.

Lemma X13_witness :
  PositionalSelector.transform digits_example
    (PositionalSelector.init (Z.of_nat <$> seq 0 (shape1 digits_example)))
  = (Ok digits_example,
     PositionalSelector.init (Z.of_nat <$> seq 0 (shape1 digits_example))).
Proof.
  apply (X13_positional_selector_identity digits_example). repeat constructor.
Defined.

(** ** Features and labels of the table *)

(** X14. The features of the training table are its rows without the
    label: for a table with the fifteen columns, [raw_features] has the
    rows of the table in order, the first fourteen fields of each at
    their positions, and no fifteenth column. *)
Theorem X14_raw_features_drop_label (records : ndarray pyval) :
  wf records → shape1 records = length COLUMNS →
  ∃ F, raw_features records = Ok F
     ∧ wf F ∧ shape0 F = shape0 records ∧ shape1 F = 14
     ∧ (∀ i j, j < 14 → cell F i j = cell records i j)
     ∧ (∀ i, cell F i 14 = None).
Proof.
  intros Hwf Hcols. unfold raw_features, df_drop, raw_training_data, read_csv.
  cbn [df_columns df_values]. rewrite income_level_position. cbn [result_bind df_values].
  eexists. split; [done|]. rewrite Hcols.
  assert (∀ r, r ∈ rows records → length r = 15) as Hlen.
  { intros r Hr. unfold wf in Hwf. rewrite Forall_forall in Hwf.
    by rewrite (Hwf r Hr), Hcols. }
  split_and!.
  - unfold wf. cbn [rows shape1]. apply Forall_fmap, Forall_forall.
    intros r Hr. simpl. rewrite length_delete; [|apply lookup_lt_is_Some_2];
      rewrite (Hlen r Hr); simpl; lia.
  - unfold shape0. cbn [rows]. by rewrite length_fmap.
  - done.
  - intros i j Hj. unfold cell. cbn [rows]. rewrite list_lookup_fmap.
    destruct (rows records !! i) as [r|]; [|done]. simpl.
    by rewrite list_lookup_delete_lt.
  - intros i. unfold cell. cbn [rows]. rewrite list_lookup_fmap.
    destruct (rows records !! i) as [r|] eqn:Hr; [|done]. simpl.
    apply lookup_ge_None_2. rewrite length_delete; [|apply lookup_lt_is_Some_2];
      rewrite (Hlen r) by (by eapply list_elem_of_lookup_2); simpl; lia.
Qed.

Lemma X14_witness :
  ∃ F, raw_features census_example = Ok F
     ∧ wf F ∧ shape0 F = shape0 census_example ∧ shape1 F = 14
     ∧ (∀ i j, j < 14 → cell F i j = cell census_example i j)
     ∧ (∀ i, cell F i 14 = None).
Proof.
  apply (X14_raw_features_drop_label census_example).
  - repeat constructor.
  - reflexivity.
Defined.

(** ** The pipeline as a whole *)

Lemma take_columns_agree {A} (X X' : ndarray A) (ps : list Z) :
  Forall (λ p, (0 ≤ p)%Z) ps →
  agree_at (Z.to_nat <$> ps) X X' →
  take_columns X ps = take_columns X' ps.
Proof.
  intros Hnn [Hcols Hrows]. unfold take_columns. rewrite <-Hcols.
  destruct (mapR (axis_index (shape1 X)) ps) as [ks|e] eqn:Hks; [|done].
  cbn [result_bind]. do 2 f_equal.
  assert (ks = Z.to_nat <$> ps) as ->.
  { apply mapR_Ok in Hks. clear Hrows.
    induction Hks as [|p k ps ks Hp _ IH]; [done|].
    apply Forall_cons in Hnn as [Hp0 Hnn]. csimpl. rewrite <-IH by done.
    f_equal. unfold axis_index in Hp. repeat case_decide; simplify_eq; [done|lia]. }
  clear Hks Hnn. revert Hrows. generalize (Z.to_nat <$> ps). intros kz Hrows.
  induction Hrows as [|r r' rs rs' Hr _ IH]; [done|]. csimpl. f_equal; [|exact IH].
  clear IH. induction Hr as [|k ks Hk _ IH]; [done|]. csimpl.
  rewrite Hk. destruct (r' !! k); csimpl; [f_equal|]; exact IH.
Qed.

Lemma raw_features_eq (records : ndarray pyval) :
  raw_features records
  = Ok (NdArray (shape1 records - 1)
          ((λ r : list pyval, delete 14 r) <$> rows records)).
Proof. reflexivity. Qed.

Lemma train_labels_eq (records : ndarray pyval) :
  train_labels records
  = Ok ((λ v, py_eq v (PStr " >50K")) <$> column 14 records).
Proof. reflexivity. Qed.

Section Pipeline_further.

Variable checks_fitted : bool.
Variable float64 : Type.
Variable float_of_int8 : Z → float64.
Variable scaler_stats : Type.
Variable scaler_fit : ndarray pyval → result scaler_stats.
Variable scaler_transform : scaler_stats → ndarray pyval → result (ndarray float64).

Abbreviation this_pipeline :=
  (pipeline checks_fitted float64 float_of_int8 scaler_stats scaler_fit scaler_transform).
Abbreviation this_pipeline_init := (pipeline_init scaler_stats).
Abbreviation this_fitted := (fitted_pipeline scaler_stats).
Abbreviation this_learned := (fitted_on scaler_stats scaler_fit).
Abbreviation this_features :=
  (concatenation float64 float_of_int8 scaler_stats scaler_transform).

(** X15. The pipeline returns no features before it is fitted: on
    every input, [pipeline.transform] called on the pipeline as
    constructed raises, and the pipeline stays as constructed. *)
Theorem X15_pipeline_transform_before_fit {I} `{!ArrayLike I pyval} (X : I) :
  ∃ e, transform this_pipeline X this_pipeline_init
       = (Raise e, this_pipeline_init).
Proof.
  assert (checks_fitted = true ∨ checks_fitted = false) as [Hch|Hch]
    by (destruct checks_fitted; auto).
  { exists NotFittedError.
    by apply (pipeline_transform_checked checks_fitted float64 float_of_int8
                scaler_stats scaler_fit scaler_transform). }
  unfold pipeline_init.
  cbn [transform pipeline FeatureUnion p1 p2 make_pipeline steps TransformerMixin
       is_fitted PositionalSelector_ StripString_ SimpleOneHotEncoder_ StandardScaler].
  unfold py_bind, on_fst, on_snd. cbn [fst snd]. rewrite Hch. cbn [andb].
  destruct (np_array X) as [A|e] eqn:HX.
  2:{ rewrite (PositionalSelector_transform_no_array X e) by done. by exists e. }
  rewrite (PositionalSelector_transform_of X A) by done.
  cbn [PositionalSelector.positions PositionalSelector.init].
  destruct (take_columns A categorical_indices) as [C|e]; [|by exists e].
  cbn [fst snd].
  destruct (StripString.transform C StripString.init) as [[S|e] []]; [|by exists e].
  cbn [fst snd]. unfold SimpleOneHotEncoder.init.
  rewrite SimpleOneHotEncoder_transform_unfitted. by eexists.
Qed.

(** X16. The features are computed from columns 0, 1, 3, 5, 7 and 12
    of the array [np.array] makes of the input, and from nothing else:
    two inputs whose arrays have the same number of columns and rows
    that agree at these positions get the same result, features or
    error, from [pipeline.fit_transform], leaving the pipeline in the
    same state, and the same result from [transform] on a fitted
    pipeline. *)
Theorem X16_pipeline_reads_six_columns {I J} `{!ArrayLike I pyval} `{!ArrayLike J pyval} (X : I) (X' : J) (A A' : ndarray pyval) :
  np_array X = Ok A → np_array X' = Ok A' →
  agree_at [0; 1; 3; 5; 7; 12] A A' →
  fit_transform this_pipeline X this_pipeline_init
  = fit_transform this_pipeline X' this_pipeline_init
  ∧ ∀ vals st,
      transform this_pipeline X (this_fitted vals st)
      = transform this_pipeline X' (this_fitted vals st).
Proof.
  intros HX HX' [Hcols Hrows].
  assert (take_columns A categorical_indices = take_columns A' categorical_indices) as Hcat.
  { apply take_columns_agree; [repeat constructor; lia|]. split; [done|].
    eapply Forall2_impl; [exact Hrows|]. intros r r' Hr. simpl.
    rewrite !Forall_cons in Hr. rewrite !Forall_cons. tauto. }
  assert (take_columns A numerical_indices = take_columns A' numerical_indices) as Hnum.
  { apply take_columns_agree; [repeat constructor; lia|]. split; [done|].
    eapply Forall2_impl; [exact Hrows|]. intros r r' Hr. simpl.
    rewrite !Forall_cons in Hr. rewrite !Forall_cons. tauto. }
  split.
  - unfold pipeline_init.
    cbn [fit_transform pipeline FeatureUnion p1 p2 make_pipeline steps TransformerMixin
         PositionalSelector_ StripString_ SimpleOneHotEncoder_ StandardScaler].
    unfold py_bind, on_fst, on_snd, PositionalSelector.fit, StripString.fit, py_ret.
    cbn [fst snd].
    rewrite (PositionalSelector_transform_of X A),
      (PositionalSelector_transform_of X' A') by done.
    cbn [PositionalSelector.positions PositionalSelector.init].
    rewrite Hcat.
    destruct (take_columns A' categorical_indices) as [C|]; [|done]. cbn [fst snd].
    destruct (StripString.transform C StripString.init) as [[S|] []]; [|done].
    cbn [fst snd]. rewrite SimpleOneHotEncoder_fit_eq. cbn [fst snd].
    rewrite SimpleOneHotEncoder_transform_eq.
    destruct (encode (fit_values S) S) as [OH|]; [|done].
    cbn [fst snd].
    rewrite (PositionalSelector_transform_of X A),
      (PositionalSelector_transform_of X' A') by done.
    cbn [PositionalSelector.positions PositionalSelector.init].
    by rewrite Hnum.
  - intros vals st. unfold fitted_pipeline.
    cbn [transform pipeline FeatureUnion p1 p2 make_pipeline steps TransformerMixin
         is_fitted PositionalSelector_ StripString_ SimpleOneHotEncoder_ StandardScaler].
    unfold py_bind, on_fst, on_snd. cbn [fst snd].
    destruct checks_fitted; cbn [andb negb]; [done|].
    rewrite (PositionalSelector_transform_of X A),
      (PositionalSelector_transform_of X' A') by done.
    cbn [PositionalSelector.positions PositionalSelector.init].
    rewrite Hcat.
    destruct (take_columns A' categorical_indices) as [C|]; [|done]. cbn [fst snd].
    destruct (StripString.transform C StripString.init) as [[S|] []]; [|done].
    cbn [fst snd]. rewrite SimpleOneHotEncoder_transform_eq.
    destruct (encode vals S) as [OH|]; [|done].
    cbn [fst snd].
    rewrite (PositionalSelector_transform_of X A),
      (PositionalSelector_transform_of X' A') by done.
    cbn [PositionalSelector.positions PositionalSelector.init].
    by rewrite Hnum.
Qed.

Lemma features_rows vals st (X : ndarray pyval) (M : ndarray float64) :
  wf X →
  (∃ S1, vals = fit_values S1) →
  this_features vals st X M → shape0 M = shape0 X.
Proof.
  intros Hwf [S1 ->] (C & S & OH & N & SC & HC & HS & HOH & _ & _ & Hrows & ->).
  rewrite PositionalSelector_transform_eq in HC. injection HC as HC.
  cbn [PositionalSelector.positions PositionalSelector.init] in HC.
  destruct (take_columns_shape _ _ _ Hwf HC) as (HwC & HC0 & _).
  apply StripString_transform_Ok_inv in HS.
  destruct (np_vectorize_shape _ _ _ HwC HS) as (HwS & HS0 & _).
  rewrite SimpleOneHotEncoder_transform_eq in HOH. injection HOH as HOH.
  pose proof (encode_shape0 _ _ _ HwS HOH) as HOH0.
  unfold shape0 in *. cbn [rows]. rewrite length_zip_with.
  destruct (amap_shape float_of_int8 OH) as [E _]. unfold shape0 in E.
  rewrite E. lia.
Qed.

(** X17. Features and labels line up: for a training table with the
    fifteen columns, whenever [pipeline.fit_transform] returns
    [train_features] for its [raw_features], there is one feature row
    per entry of [train_labels]; and whenever the fitted pipeline
    returns features for further rows, there is one feature row per
    input row. *)
Theorem X17_features_align_with_labels (records F : ndarray pyval) (labels : list bool) (M : ndarray float64) s :
  wf records → shape1 records = length COLUMNS →
  raw_features records = Ok F →
  train_labels records = Ok labels →
  fit_transform this_pipeline F this_pipeline_init = (Ok M, s) →
  shape0 M = length labels
  ∧ ∀ X' M' s', wf X' → transform this_pipeline X' s = (Ok M', s') →
      shape0 M' = shape0 X'.
Proof.
  intros Hwf Hcols HF Hlab Hfit.
  rewrite raw_features_eq in HF. injection HF as <-.
  rewrite train_labels_eq in Hlab. injection Hlab as <-.
  assert (14 < shape1 records) as H14 by (rewrite Hcols; simpl; lia).
  set (F := NdArray (shape1 records - 1)
              ((λ r : list pyval, delete 14 r) <$> rows records)) in *.
  assert (wf F) as HwF.
  { unfold wf, F. cbn [rows shape1]. apply Forall_fmap.
    eapply Forall_impl; [exact Hwf|]. intros r Hr. simpl in *.
    rewrite length_delete; [lia|]. apply lookup_lt_is_Some_2. lia. }
  apply (pipeline_fit_transform _ _ _ _ _ _ F F) in Hfit
    as (vals & st & -> & Hlearn & HM); [|done].
  assert (∃ S1, vals = fit_values S1) as Hvals.
  { destruct Hlearn as (C & S & N & _ & _ & HS & _). exists S.
    rewrite SimpleOneHotEncoder_fit_eq in HS. by injection HS as <-. }
  split.
  - rewrite (features_rows vals st F M) by done.
    rewrite length_fmap, length_column by done.
    unfold shape0, F. cbn [rows]. by rewrite length_fmap.
  - intros X' M' s' HwX' Htr.
    apply (pipeline_transform_fitted _ _ _ _ _ _ _ _ X' X') in Htr
      as (_ & _ & HM'); [|done].
    by eapply (features_rows vals st X' M').
Qed.

(** X18. The pipeline does not take an empty row set: when the array
    [np.array] makes of the input has no rows (and columns enough for
    the categorical selection), [pipeline.fit_transform] raises
    [ValueError], from the trimming step, and leaves the pipeline as
    constructed; [pipeline.transform] on a fitted pipeline raises as
    well, [ValueError] from the trimming step on a library that runs
    the steps at once and [NotFittedError] on one that checks first,
    and leaves the pipeline as fitted. *)
Theorem X18_pipeline_rejects_empty_row_set {I} `{!ArrayLike I pyval} (X : I) (A : ndarray pyval) :
  np_array X = Ok A → rows A = [] → 8 ≤ shape1 A →
  fit_transform this_pipeline X this_pipeline_init
    = (Raise ValueError, this_pipeline_init)
  ∧ ∀ vals st,
      transform this_pipeline X (this_fitted vals st)
      = (Raise (if checks_fitted then NotFittedError else ValueError),
         this_fitted vals st).
Proof.
  intros HX Hrows Hcols.
  assert (take_columns A categorical_indices = Ok (NdArray 4 [])) as Hcat.
  { rewrite take_columns_Ok; [by rewrite Hrows|].
    repeat constructor; simpl; lia. }
  split.
  - unfold pipeline_init.
    cbn [fit_transform pipeline FeatureUnion p1 p2 make_pipeline steps TransformerMixin
         PositionalSelector_ StripString_ SimpleOneHotEncoder_ StandardScaler].
    unfold py_bind, on_fst, on_snd, PositionalSelector.fit, StripString.fit, py_ret.
    cbn [fst snd]. rewrite (PositionalSelector_transform_of X A) by done.
    cbn [PositionalSelector.positions PositionalSelector.init].
    rewrite Hcat. reflexivity.
  - intros vals st. unfold fitted_pipeline.
    cbn [transform pipeline FeatureUnion p1 p2 make_pipeline steps TransformerMixin
         is_fitted PositionalSelector_ StripString_ SimpleOneHotEncoder_ StandardScaler].
    unfold py_bind, on_fst, on_snd. cbn [fst snd].
    destruct checks_fitted; cbn [andb negb]; [done|].
    rewrite (PositionalSelector_transform_of X A) by done.
    cbn [PositionalSelector.positions PositionalSelector.init].
    rewrite Hcat. reflexivity.
Qed.

(** X19. The pipeline needs thirteen columns: on a row set with fewer,
    neither [fit_transform] on the pipeline as constructed nor
    [transform] on a fitted pipeline ever returns features. *)
Theorem X19_pipeline_needs_thirteen_columns (X : ndarray pyval) :
  shape1 X < 13 →
  (∀ M s, fit_transform this_pipeline X this_pipeline_init ≠ (Ok M, s))
  ∧ (∀ vals st M s, transform this_pipeline X (this_fitted vals st) ≠ (Ok M, s)).
Proof.
  intros Hcols.
  assert (∀ vals st M, ¬ this_features vals st X M) as Hno.
  { intros vals st M (C & S & OH & N & SC & _ & _ & _ & HN & _).
    rewrite PositionalSelector_transform_eq in HN.
    cbn [PositionalSelector.positions PositionalSelector.init] in HN.
    injection HN as HN. apply take_columns_Ok_inv in HN.
    apply Forall_cons in HN as [_ Hv]. apply Forall_cons in Hv as [Hv _].
    lia. }
  split.
  - intros M s Hfit.
    apply (pipeline_fit_transform _ _ _ _ _ _ X X) in Hfit
      as (vals & st & _ & _ & HM); [|done].
    by eapply Hno.
  - intros vals st M s Htr.
    apply (pipeline_transform_fitted _ _ _ _ _ _ _ _ X X) in Htr
      as (_ & _ & HM); [|done].
    by eapply Hno.
Qed.

End Pipeline_further.

Lemma X16_witness :
  fit_transform sample_pipeline features_example (pipeline_init unit)
  = fit_transform sample_pipeline features_variant (pipeline_init unit)
  ∧ ∀ vals st,
      transform sample_pipeline features_example (fitted_pipeline unit vals st)
      = transform sample_pipeline features_variant (fitted_pipeline unit vals st).
Proof.
  apply (X16_pipeline_reads_six_columns false Z id unit sample_scaler_fit
           sample_scaler_transform features_example features_variant
           features_example features_variant).
  - reflexivity.
  - reflexivity.
  - split; [reflexivity|]. repeat constructor.
Defined.

Lemma X18_witness :
  fit_transform sample_pipeline (NdArray (A := pyval) 14 []) (pipeline_init unit)
    = (Raise ValueError, pipeline_init unit)
  ∧ ∀ vals st,
      transform sample_pipeline (NdArray (A := pyval) 14 []) (fitted_pipeline unit vals st)
      = (Raise (if false then NotFittedError else ValueError),
         fitted_pipeline unit vals st).
Proof.
  apply (X18_pipeline_rejects_empty_row_set false Z id unit sample_scaler_fit
           sample_scaler_transform (NdArray 14 []) (NdArray 14 [])).
  - reflexivity.
  - reflexivity.
  - simpl. lia.
Defined.

Lemma X19_witness :
  (∀ M s, fit_transform sample_pipeline (amap PStr input_example) (pipeline_init unit)
          ≠ (Ok M, s))
  ∧ (∀ vals st M s,
       transform sample_pipeline (amap PStr input_example) (fitted_pipeline unit vals st)
       ≠ (Ok M, s)).
Proof.
  apply (X19_pipeline_needs_thirteen_columns false Z id unit sample_scaler_fit
           sample_scaler_transform (amap PStr input_example)).
  simpl. lia.
Defined.

Lemma X17_witness :
  shape0 train_features_example = length [false; true; false; false]
  ∧ ∀ X' M' s', wf X' → transform sample_pipeline X' sample_pipeline_fitted = (Ok M', s') →
      shape0 M' = shape0 X'.
Proof.
  apply (X17_features_align_with_labels false Z id unit sample_scaler_fit
           sample_scaler_transform census_example features_example
           [false; true; false; false] train_features_example sample_pipeline_fitted).
  - repeat constructor.
  - reflexivity.
  - reflexivity.
  - reflexivity.
  - vm_compute. reflexivity.
Defined.
